(** * IoT API (api/main.py): time translation, device queries, deletion, access gate

    A shallow embedding of the request handlers of [api/main.py] and of the
    parts of Python's [datetime] module they call, with the properties the
    specification states about them.

    - Exceptions are values of [Exception]; a computation that can raise has
      type [result A].
    - The InfluxDB query and delete APIs and the MQTT client are external:
      they are the fields of an environment the handlers are run against.
    - [datetime] follows CPython's reference implementation (Lib/datetime.py):
      proleptic Gregorian ordinals, [timedelta] arithmetic, [astimezone],
      [isoformat] and [fromisoformat]. *)

From Stdlib Require Import ZArith String Ascii List Bool Lia Sorting.Sorted Permutation.
From stdpp Require Import base gmap strings list sorting.

Local Open Scope Z_scope.

(** ** Exceptions *)

Inductive Exception : Type :=
  | ValueError (msg : string)
  | OverflowError (msg : string)
  | ApiException (msg : string)      (* raised by the InfluxDB client *)
  | MqttError (msg : string).        (* raised by the MQTT client (OSError and the like) *)

(** [str(e)] *)
Definition str (e : Exception) : string :=
  match e with
  | ValueError m | OverflowError m | ApiException m | MqttError m => m
  end.

Inductive result (A : Type) : Type :=
  | Return (a : A)
  | Raise (e : Exception).
Arguments Return {A} a.
Arguments Raise {A} e.

Global Instance result_ret : MRet result := fun A a => Return a.
Global Instance result_bind : MBind result := fun A B k c =>
  match c with
  | Return a => k a
  | Raise e => Raise e
  end.

(** [try: body  except ValueError: handler] *)
Definition try_except_ValueError {A} (body : result A) (handler : result A) : result A :=
  match body with
  | Raise (ValueError _) => handler
  | r => r
  end.

(** [try: body  except Exception as e: handler e]. Every member of
    [Exception] is an instance of Python's [Exception] class. *)
Definition try_except_Exception {A} (body : result A) (handler : Exception → result A)
  : result A :=
  match body with
  | Raise e => handler e
  | r => r
  end.

(** ** Calendar arithmetic (Lib/datetime.py) *)

Module Calendar.

Definition MINYEAR : Z := 1.
Definition MAXYEAR : Z := 9999.
Definition _MAXORDINAL : Z := 3652059.

(** [_DAYS_IN_MONTH = [-1, 31, 28, 31, 30, 31, 30, 31, 31, 30, 31, 30, 31]] *)
Definition _DAYS_IN_MONTH (month : Z) : Z :=
  match month with
  | 1 => 31 | 2 => 28 | 3 => 31 | 4 => 30 | 5 => 31 | 6 => 30
  | 7 => 31 | 8 => 31 | 9 => 30 | 10 => 31 | 11 => 30 | 12 => 31
  | _ => -1
  end.

(** [_DAYS_BEFORE_MONTH]: the running sum of [_DAYS_IN_MONTH]. *)
Definition _DAYS_BEFORE_MONTH (month : Z) : Z :=
  match month with
  | 1 => 0 | 2 => 31 | 3 => 59 | 4 => 90 | 5 => 120 | 6 => 151
  | 7 => 181 | 8 => 212 | 9 => 243 | 10 => 273 | 11 => 304 | 12 => 334
  | _ => -1
  end.

Definition _is_leap (year : Z) : bool :=
  (year mod 4 =? 0) && (negb (year mod 100 =? 0) || (year mod 400 =? 0)).

Definition _days_before_year (year : Z) : Z :=
  let y := year - 1 in
  y * 365 + y / 4 - y / 100 + y / 400.

Definition _days_in_month (year month : Z) : Z :=
  if (month =? 2) && _is_leap year then 29 else _DAYS_IN_MONTH month.

Definition _days_before_month (year month : Z) : Z :=
  _DAYS_BEFORE_MONTH month + (if (month >? 2) && _is_leap year then 1 else 0).

Definition _ymd2ord (year month day : Z) : Z :=
  _days_before_year year + _days_before_month year month + day.

Definition _DI400Y : Z := 146097.
Definition _DI100Y : Z := 36524.
Definition _DI4Y : Z := 1461.

Definition _ord2ymd (n : Z) : Z * Z * Z :=
  let n := n - 1 in
  let n400 := n / _DI400Y in
  let n := n mod _DI400Y in
  let year := n400 * 400 + 1 in
  let n100 := n / _DI100Y in
  let n := n mod _DI100Y in
  let n4 := n / _DI4Y in
  let n := n mod _DI4Y in
  let n1 := n / 365 in
  let n := n mod 365 in
  let year := year + (n100 * 100 + n4 * 4 + n1) in
  if (n1 =? 4) || (n100 =? 4) then (year - 1, 12, 31)
  else
    let leapyear := (n1 =? 3) && (negb (n4 =? 24) || (n100 =? 3)) in
    let month := Z.shiftr (n + 50) 5 in
    let preceding :=
      _DAYS_BEFORE_MONTH month + (if (month >? 2) && leapyear then 1 else 0) in
    if preceding >? n then
      let month := month - 1 in
      let preceding :=
        preceding - (_DAYS_IN_MONTH month + (if (month =? 2) && leapyear then 1 else 0)) in
      (year, month, n - preceding + 1)
    else (year, month, n - preceding + 1).

(** The date check of [_check_date_fields]. *)
Definition valid_date (year month day : Z) : bool :=
  (MINYEAR <=? year) && (year <=? MAXYEAR) &&
  (1 <=? month) && (month <=? 12) &&
  (1 <=? day) && (day <=? _days_in_month year month).

End Calendar.

(** ** [timedelta], [tzinfo] and [datetime] *)

(** A [timedelta] is kept as its total number of microseconds; [days],
    [seconds] and [microseconds] are the normalised fields Python stores. *)
Definition timedelta : Type := Z.

Definition US_PER_SECOND : Z := 1000000.
Definition US_PER_DAY : Z := 86400 * US_PER_SECOND.

Definition timedelta_new (days hours minutes seconds microseconds : Z) : timedelta :=
  days * US_PER_DAY + (hours * 3600 + minutes * 60 + seconds) * US_PER_SECOND + microseconds.

Definition td_days (t : timedelta) : Z := t / US_PER_DAY.
Definition td_seconds (t : timedelta) : Z := (t mod US_PER_DAY) / US_PER_SECOND.
Definition td_microseconds (t : timedelta) : Z := t mod US_PER_SECOND.

(** The time-zone objects of the program: the singleton [timezone.utc], the
    module constant [MOSCOW_TZ = timezone(timedelta(hours=3))], and any other
    fixed-offset object (built by [fromisoformat], or attached by the store
    client to the instants it returns). *)
Inductive tzinfo : Type :=
  | timezone_utc
  | MOSCOW_TZ
  | timezone (offset : timedelta).

Definition utcoffset (tz : tzinfo) : timedelta :=
  match tz with
  | timezone_utc => 0
  | MOSCOW_TZ => timedelta_new 0 3 0 0 0
  | timezone offset => offset
  end.

(** [tz is mytz]: object identity. The argument [tz] of every call is one of
    the two named objects, which no other object is identical to. *)
Definition tz_is (tz mytz : tzinfo) : bool :=
  match tz, mytz with
  | timezone_utc, timezone_utc => true
  | MOSCOW_TZ, MOSCOW_TZ => true
  | _, _ => false
  end.

Record datetime : Type := mk_datetime {
  year : Z;
  month : Z;
  day : Z;
  hour : Z;
  minute : Z;
  second : Z;
  microsecond : Z;
  dt_tzinfo : option tzinfo
}.

Global Instance tzinfo_eq_dec : EqDecision tzinfo.
Proof. solve_decision. Defined.

Global Instance datetime_eq_dec : EqDecision datetime.
Proof. solve_decision. Defined.

(** [_check_time_fields] *)
Definition valid_time (hour minute second microsecond : Z) : bool :=
  (0 <=? hour) && (hour <=? 23) &&
  (0 <=? minute) && (minute <=? 59) &&
  (0 <=? second) && (second <=? 59) &&
  (0 <=? microsecond) && (microsecond <=? 999999).

(** The objects the constructor accepts. *)
Definition valid_datetime (d : datetime) : bool :=
  Calendar.valid_date (year d) (month d) (day d) &&
  valid_time (hour d) (minute d) (second d) (microsecond d).

(** [datetime(year, month, day, hour, minute, second, microsecond, tzinfo)] *)
Definition datetime_new (y m d hh mm ss us : Z) (tz : option tzinfo) : result datetime :=
  if negb (Calendar.valid_date y m d) then Raise (ValueError "date field out of range")
  else if negb (valid_time hh mm ss us) then Raise (ValueError "time field out of range")
  else Return (mk_datetime y m d hh mm ss us tz).

(** [self.replace(tzinfo=tz)] and [self.replace(microsecond=us)] *)
Definition replace_tzinfo (self : datetime) (tz : option tzinfo) : datetime :=
  mk_datetime (year self) (month self) (day self)
              (hour self) (minute self) (second self) (microsecond self) tz.

Definition replace_microsecond (self : datetime) (us : Z) : datetime :=
  mk_datetime (year self) (month self) (day self)
              (hour self) (minute self) (second self) us (dt_tzinfo self).

Definition toordinal (self : datetime) : Z :=
  Calendar._ymd2ord (year self) (month self) (day self).

(** [datetime.__add__]: the receiver as a [timedelta] since ordinal 0, plus
    [other], split again into date and time. *)
Definition datetime_add (self : datetime) (other : timedelta) : result datetime :=
  let delta :=
    timedelta_new (toordinal self) (hour self) (minute self) (second self)
                  (microsecond self) + other in
  let hh := td_seconds delta / 3600 in
  let rem := td_seconds delta mod 3600 in
  let mm := rem / 60 in
  let ss := rem mod 60 in
  if (0 <? td_days delta) && (td_days delta <=? Calendar._MAXORDINAL) then
    let '(y, m, d) := Calendar._ord2ymd (td_days delta) in
    Return (mk_datetime y m d hh mm ss (td_microseconds delta) (dt_tzinfo self))
  else Raise (OverflowError "date value out of range").

(** [datetime.__sub__] with a [timedelta]: [self + -other]. *)
Definition datetime_sub (self : datetime) (other : timedelta) : result datetime :=
  datetime_add self (- other).

(** A naive receiver of [astimezone] is read in the platform's local zone;
    both call sites of the program attach a [tzinfo] first, so the choice
    made here is never observed. *)
Definition _local_timezone : tzinfo := timezone 0.

(** [self.astimezone(tz)] *)
Definition astimezone (self : datetime) (tz : tzinfo) : result datetime :=
  let mytz := match dt_tzinfo self with Some z => z | None => _local_timezone end in
  let myoffset := utcoffset mytz in
  if tz_is tz mytz then Return self
  else
    utc ← datetime_sub self myoffset;
    (* tz.fromutc(utc) *)
    datetime_add (replace_tzinfo utc (Some tz)) (utcoffset tz).

(** ** Formatting: [isoformat] *)

Definition digit_char (d : Z) : ascii := ascii_of_nat (48 + Z.to_nat d).

(** [fmt_d w n acc] writes the [w] low decimal digits of [n] in front of
    [acc]: the text of ["%0wd" % n] for [0 <= n < 10^w], the only values the
    fields of a [datetime] and of a time-zone offset take. *)
Fixpoint fmt_d (width : nat) (n : Z) (acc : string) : string :=
  match width with
  | O => acc
  | S w => fmt_d w (n / 10) (String (digit_char (n mod 10)) acc)
  end.

Inductive timespec : Type := timespec_auto | timespec_seconds.

(** [_format_time(hh, mm, ss, us, timespec)]; ['auto'] is ['microseconds']
    when [us] is not zero and ['seconds'] otherwise. *)
Definition _format_time (hh mm ss us : Z) (spec : timespec) (acc : string) : string :=
  let frac :=
    match spec with
    | timespec_seconds => acc
    | timespec_auto => if us =? 0 then acc else String "."%char (fmt_d 6 us acc)
    end in
  fmt_d 2 hh (String ":"%char (fmt_d 2 mm (String ":"%char (fmt_d 2 ss frac)))).

(** [_format_offset(off)] *)
Definition _format_offset (off : option timedelta) : string :=
  match off with
  | None => ""
  | Some off =>
    let sign := if td_days off <? 0 then "-"%char else "+"%char in
    let off := if td_days off <? 0 then - off else off in
    let hh := off / (3600 * US_PER_SECOND) in
    let mm := off mod (3600 * US_PER_SECOND) in
    let ss := mm mod (60 * US_PER_SECOND) in
    let mm := mm / (60 * US_PER_SECOND) in
    String sign (fmt_d 2 hh (String ":"%char (fmt_d 2 mm
      (if ss =? 0 then ""
       else String ":"%char (fmt_d 2 (td_seconds ss)
              (if td_microseconds ss =? 0 then ""
               else String "."%char (fmt_d 6 (td_microseconds ss) "")))))))
  end.

(** [self.isoformat(sep='T', timespec=spec)] *)
Definition isoformat (self : datetime) (spec : timespec) : string :=
  fmt_d 4 (year self) (String "-"%char (fmt_d 2 (month self) (String "-"%char
    (fmt_d 2 (day self) (String "T"%char
      (_format_time (hour self) (minute self) (second self) (microsecond self) spec
         (_format_offset (utcoffset <$> dt_tzinfo self)))))))).

(** ** Parsing: [datetime.fromisoformat]

    The grammar is the one every version of [datetime.fromisoformat] reads,
    the output of [isoformat]:
    [YYYY-MM-DD[*HH[:MM[:SS[.fff[fff]]]][+HH:MM[:SS[.ffffff]]]]], where [*]
    is a single one-byte character; here every other string raises
    [ValueError]. From Python 3.11 on the function reads further spellings
    (a trailing [Z], the basic format without separators, fractions of one
    to nine digits, offsets such as [+0500], week dates, a separator outside
    ASCII), on which this definition is not to be relied on: the properties
    below apply it to texts of the grammar above only, or to texts that no
    version reads, or are stated for every [datetime] the parser may
    return. *)

Definition is_digit (c : ascii) : bool :=
  (48 <=? nat_of_ascii c)%nat && (nat_of_ascii c <=? 57)%nat.

Definition digit_val (c : ascii) : Z := Z.of_nat (nat_of_ascii c) - 48.

Fixpoint parse_digits (s : string) (acc : Z) : option Z :=
  match s with
  | EmptyString => Some acc
  | String c s' =>
    if is_digit c then parse_digits s' (acc * 10 + digit_val c) else None
  end.

(** [int(s)] on a slice that must consist of decimal digits. *)
Definition int_of (s : string) : result Z :=
  match s with
  | EmptyString => Raise (ValueError "invalid literal for int()")
  | _ =>
    match parse_digits s 0 with
    | Some n => Return n
    | None => Raise (ValueError "invalid literal for int()")
    end
  end.

(** [s[n:]] *)
Fixpoint drop_prefix (n : nat) (s : string) : string :=
  match n, s with
  | O, _ => s
  | S n', String _ s' => drop_prefix n' s'
  | S _, EmptyString => EmptyString
  end.

(** [s.find(c)] *)
Fixpoint find (c : ascii) (s : string) : option nat :=
  match s with
  | EmptyString => None
  | String c' s' => if Ascii.eqb c' c then Some O else S <$> find c s'
  end.

(** [_parse_isoformat_date(dtstr)], on the first ten characters. *)
Definition _parse_isoformat_date (dtstr : string) : result (Z * Z * Z) :=
  if negb (String.length dtstr =? 10)%nat then Raise (ValueError "Invalid isoformat string")
  else
    y ← int_of (substring 0 4 dtstr);
    if negb (String.eqb (substring 4 1 dtstr) "-") then
      Raise (ValueError "Invalid date separator")
    else
      m ← int_of (substring 5 2 dtstr);
      if negb (String.eqb (substring 7 1 dtstr) "-") then
        Raise (ValueError "Invalid date separator")
      else
        d ← int_of (substring 8 2 dtstr);
        Return (y, m, d).

(** The loop of [_parse_hh_mm_ss_ff]: up to [comps] two-digit components
    separated by colons. Returns the components read and the unread rest. *)
Fixpoint _parse_hh_mm_ss (comps : nat) (tstr : string) : result (list Z * string) :=
  match comps with
  | O => Return ([], tstr)
  | S comps' =>
    if (String.length tstr <? 2)%nat then Raise (ValueError "Incomplete time component")
    else
      v ← int_of (substring 0 2 tstr);
      match drop_prefix 2 tstr, comps' with
      | EmptyString, _ => Return ([v], EmptyString)
      | rest, O => Return ([v], rest)
      | String next_char rest, _ =>
        if Ascii.eqb next_char ":" then
          '(vs, r) ← _parse_hh_mm_ss comps' rest;
          Return (v :: vs, r)
        else Raise (ValueError "Invalid time separator")
      end
  end.

(** [_parse_hh_mm_ss_ff(tstr)]: [HH[:MM[:SS[.fff[fff]]]]] *)
Definition _parse_hh_mm_ss_ff (tstr : string) : result (Z * Z * Z * Z) :=
  '(comps, rest) ← _parse_hh_mm_ss 3 tstr;
  let hh := nth 0 comps 0 in
  let mm := nth 1 comps 0 in
  let ss := nth 2 comps 0 in
  match rest with
  | EmptyString => Return (hh, mm, ss, 0)
  | String c frac =>
    if negb (Ascii.eqb c ".") then Raise (ValueError "Invalid microsecond component")
    else if (String.length frac =? 3)%nat then
      us ← int_of frac; Return (hh, mm, ss, us * 1000)
    else if (String.length frac =? 6)%nat then
      us ← int_of frac; Return (hh, mm, ss, us)
    else Raise (ValueError "Invalid microsecond component")
  end.

(** [timezone(offset)]: the offset must lie strictly between -24h and 24h. *)
Definition timezone_new (offset : timedelta) : result tzinfo :=
  if (- US_PER_DAY <? offset) && (offset <? US_PER_DAY) then Return (timezone offset)
  else Raise (ValueError "offset must be a timedelta strictly between -timedelta(hours=24) and timedelta(hours=24)").

(** [_parse_isoformat_time(tstr)]: [HH[:MM[:SS[.fff[fff]]]][+HH:MM[:SS[.ffffff]]]] *)
Definition _parse_isoformat_time (tstr : string)
  : result (Z * Z * Z * Z * option tzinfo) :=
  if (String.length tstr <? 2)%nat then Raise (ValueError "Isoformat time too short")
  else
    (* tz_pos = (tstr.find('-') + 1 or tstr.find('+') + 1) *)
    let tz_pos :=
      match find "-" tstr with
      | Some i => Some i
      | None => find "+" tstr
      end in
    match tz_pos with
    | None =>
      '(hh, mm, ss, us) ← _parse_hh_mm_ss_ff tstr;
      Return (hh, mm, ss, us, None)
    | Some i =>
      '(hh, mm, ss, us) ← _parse_hh_mm_ss_ff (substring 0 i tstr);
      let tzstr := drop_prefix (S i) tstr in
      let n := String.length tzstr in
      if negb ((n =? 5) || (n =? 8) || (n =? 15))%nat then
        Raise (ValueError "Malformed time zone string")
      else
        '(th, tm, tsec, tus) ← _parse_hh_mm_ss_ff tzstr;
        if (th =? 0) && (tm =? 0) && (tsec =? 0) && (tus =? 0) then
          Return (hh, mm, ss, us, Some timezone_utc)
        else
          let tzsign := if String.eqb (substring i 1 tstr) "-" then -1 else 1 in
          tzi ← timezone_new (tzsign * timedelta_new 0 th tm tsec tus);
          Return (hh, mm, ss, us, Some tzi)
    end.

(** [datetime.fromisoformat(date_string)] *)
Definition fromisoformat (date_string : string) : result datetime :=
  '(y, m, d) ← _parse_isoformat_date (substring 0 10 date_string);
  if (String.length date_string <=? 10)%nat then datetime_new y m d 0 0 0 0 None
  else
    '(hh, mm, ss, us, tz) ← _parse_isoformat_time (drop_prefix 11 date_string);
    datetime_new y m d hh mm ss us tz.

(** ** Time Translator (api/main.py) *)

(** [iso_seconds_moscow(ts)] *)
Definition iso_seconds_moscow (ts : option datetime) : result (option string) :=
  match ts with
  | None => Return None
  | Some ts =>
    let ts :=
      match dt_tzinfo ts with
      | None => replace_tzinfo ts (Some timezone_utc)
      | Some _ => ts
      end in
    moscow_time ← astimezone ts MOSCOW_TZ;
    let moscow_naive := replace_tzinfo (replace_microsecond moscow_time 0) None in
    Return (Some (isoformat moscow_naive timespec_seconds))
  end.

(** [parse_moscow_time_to_utc(time_str)], together with the instant [utc_dt]
    the returned text denotes when the conversion took place. *)
Definition moscow_time_to_utc_dt (time_str : string) : result datetime :=
  moscow_dt ← fromisoformat time_str;
  let moscow_dt := replace_tzinfo moscow_dt (Some MOSCOW_TZ) in
  astimezone moscow_dt timezone_utc.

Definition parse_moscow_time_to_utc (time_str : string) : result string :=
  try_except_ValueError
    (utc_dt ← moscow_time_to_utc_dt time_str;
     Return (isoformat utc_dt timespec_auto))
    (Return time_str).

(** ** The external services *)

(** A field value of the store: a number (kept as an exact fraction) or a
    string. *)
Inductive FluxValue : Type :=
  | VNumber (num : Z) (den : positive)
  | VString (s : string).

Global Instance FluxValue_eq_dec : EqDecision FluxValue.
Proof. solve_decision. Defined.

(** A [FluxRecord] of a query result. [values] is its column dictionary, read
    here by column kind: [_time] (what [get_time()] returns), [_value] (what
    [get_value()] returns), the tag columns, whose values are strings, and the
    field columns of a pivoted row. A column that is missing or null reads as
    [None], as [values.get] does. *)
Record FluxRecord : Type := mk_FluxRecord {
  rec_time : option datetime;
  rec_value : option FluxValue;
  rec_tags : gmap string string;
  rec_fields : gmap string FluxValue
}.

Record FluxTable : Type := mk_FluxTable { records : list FluxRecord }.

(** Calls made on the store's delete API and on the MQTT client. *)
Inductive Call : Type :=
  | DeleteCall (start stop predicate bucket : string) (org : option string)
  | MqttUsernamePwSet (user password : string)
  | MqttConnect (host : string) (port : Z) (keepalive : Z)
  | MqttPublish (topic payload : string) (qos : Z) (retain : bool)
  | MqttLoop
  | MqttDisconnect.

(** The process configuration (read from the environment at start-up) and the
    behaviour of the external collaborators: what the store answers to a Flux
    query, which calls fail, and the clock. *)
Record Env : Type := mk_Env {
  INFLUXORG : option string;
  INFLUXBUCKET : string;
  MQTTHOST : string;
  MQTTPORT : Z;
  MQTTUSER : option string;
  MQTTPASS : option string;
  API_TOKEN : option string;
  q_query : option string → string → result (list FluxTable);
  call_outcome : list Call → Call → result unit;   (* calls so far, then the call *)
  datetime_now_utc : datetime
}.

(** ** Python idioms *)

(** Truth value of an [Optional[str]]. *)
Definition truthy (s : option string) : bool :=
  match s with
  | Some s => negb (String.eqb s "")
  | None => false
  end.

(** [a or b] *)
Definition py_or (a b : option string) : option string :=
  if truthy a then a else b.

(** [sorted(ids)] on strings: ascending in code-point order. *)
Definition sorted (ids : list string) : list string := merge_sort String.le ids.

Definition dq : string := String (ascii_of_nat 34) EmptyString.
Definition nl : string := String (ascii_of_nat 10) EmptyString.

(** A triple-quoted f-string that starts with a line break: every line is
    followed by one. *)
Definition flux_text (lines : list string) : string :=
  nl +:+ foldr (fun l acc => l +:+ nl +:+ acc) "" lines.

(** ** Access Gate *)

Record HTTPAuthorizationCredentials : Type := mk_credentials {
  scheme : string;
  credentials : string
}.

Inductive HTTPException : Type :=
  | HTTP_401_UNAUTHORIZED (detail : string).

(** [verify_token(token_q, token_h, bearer, token_cookie)]: [inl true], or the
    [HTTPException] raised. *)
Definition verify_token (env : Env)
    (token_q token_h : option string)
    (bearer : option HTTPAuthorizationCredentials)
    (token_cookie : option string) : HTTPException + bool :=
  let provided :=
    py_or token_q
      (py_or token_h
         (py_or (match bearer with Some b => Some (credentials b) | None => None end)
                token_cookie)) in
  if negb (truthy (API_TOKEN env)) || negb (bool_decide (provided = API_TOKEN env)) then
    inl (HTTP_401_UNAUTHORIZED "Missing or invalid API token")
  else inr true.

(** ** Cookie middleware *)









(** ** Device Directory *)

Definition qt (s : string) : string := dq +:+ s +:+ dq.

(** [for t in tables for rec in t.records] *)
Definition all_records (tables : list FluxTable) : list FluxRecord :=
  t ← tables; records t.

(** [[rec.values.get("deviceid") for t in tables for rec in t.records
      if rec.values.get("deviceid")]] *)
Definition device_ids (tables : list FluxTable) : list string :=
  rec ← all_records tables;
  match rec_tags rec !! "deviceid" with
  | Some id => if truthy (Some id) then [id] else []
  | None => []
  end.

Definition flux_list_devices (env : Env) : string :=
  flux_text [
    "a = from(bucket: " +:+ qt (INFLUXBUCKET env) +:+ ")";
    "  |> range(start: -7d)";
    "  |> filter(fn: (r) => r._measurement == " +:+ qt "sensors" +:+ ")";
    "  |> keep(columns: [" +:+ qt "deviceid" +:+ "])";
    "  |> distinct(column: " +:+ qt "deviceid" +:+ ")";
    "b = from(bucket: " +:+ qt (INFLUXBUCKET env) +:+ ")";
    "  |> range(start: -7d)";
    "  |> filter(fn: (r) => r._measurement == " +:+ qt "bme280" +:+ ")";
    "  |> keep(columns: [" +:+ qt "deviceid" +:+ "])";
    "  |> distinct(column: " +:+ qt "deviceid" +:+ ")";
    "union(tables: [a, b])";
    "  |> keep(columns: [" +:+ qt "deviceid" +:+ "])";
    "  |> unique(column: " +:+ qt "deviceid" +:+ ")";
    "  |> sort(columns: [" +:+ qt "deviceid" +:+ "], desc: false)"
  ].

(** [list_devices()] *)
Definition list_devices (env : Env) : result (list string) :=
  tables ← q_query env (INFLUXORG env) (flux_list_devices env);
  Return (device_ids tables).

Definition flux_list_online (env : Env) : string :=
  flux_text [
    "from(bucket: " +:+ qt (INFLUXBUCKET env) +:+ ")";
    "  |> range(start: -7d)";
    "  |> filter(fn: (r) => (r._measurement == " +:+ qt "devices"
      +:+ " or r._measurement == " +:+ qt "status"
      +:+ ") and r._field == " +:+ qt "value" +:+ ")";
    "  |> group(columns: [" +:+ qt "deviceid" +:+ "])";
    "  |> last()";
    "  |> filter(fn: (r) => r._value == " +:+ qt "online" +:+ ")";
    "  |> keep(columns: [" +:+ qt "deviceid" +:+ "])";
    "  |> unique(column: " +:+ qt "deviceid" +:+ ")"
  ].

(** [list_online()] *)
Definition list_online (env : Env) : result (list string) :=
  tables ← q_query env (INFLUXORG env) (flux_list_online env);
  Return (sorted (device_ids tables)).

(** ** Presence Resolver *)

Record StatusResponse : Type := mk_StatusResponse {
  status_deviceid : string;
  online : bool;
  statustime : option string;
  lastdatatime : option string
}.

Definition flux_status (env : Env) (deviceid : string) : string :=
  flux_text [
    "from(bucket: " +:+ qt (INFLUXBUCKET env) +:+ ")";
    "  |> range(start: -7d)";
    "  |> filter(fn: (r) => (r._measurement == " +:+ qt "devices"
      +:+ " or r._measurement == " +:+ qt "status"
      +:+ ") and r.deviceid == " +:+ qt deviceid
      +:+ " and r._field == " +:+ qt "value" +:+ ")";
    "  |> group(columns: [" +:+ qt "deviceid" +:+ "])";
    "  |> last()"
  ].

Definition flux_last_data (env : Env) (deviceid : string) : string :=
  flux_text [
    "a = from(bucket: " +:+ qt (INFLUXBUCKET env) +:+ ")";
    "  |> range(start: -7d)";
    "  |> filter(fn: (r) => r.deviceid == " +:+ qt deviceid
      +:+ " and r._measurement == " +:+ qt "sensors" +:+ ")";
    "b = from(bucket: " +:+ qt (INFLUXBUCKET env) +:+ ")";
    "  |> range(start: -7d)";
    "  |> filter(fn: (r) => r.deviceid == " +:+ qt deviceid
      +:+ " and r._measurement == " +:+ qt "bme280" +:+ ")";
    "union(tables: [a, b])";
    "  |> group(columns: [" +:+ qt "deviceid" +:+ "])";
    "  |> last()";
    "  |> keep(columns: [" +:+ qt "_time" +:+ "])"
  ].

(** [device_status(deviceid)] *)
Definition device_status (env : Env) (deviceid : string) : result StatusResponse :=
  status_tables ← q_query env (INFLUXORG env) (flux_status env deviceid);
  (* for t in status_tables: for r in t.records: assign both variables *)
  let '(status_val, status_ts) :=
    foldl (fun (_ : option FluxValue * option datetime) r => (rec_value r, rec_time r))
          (None, None) (all_records status_tables) in
  data_tables ← q_query env (INFLUXORG env) (flux_last_data env deviceid);
  let last_data_ts :=
    foldl (fun (_ : option datetime) r => rec_time r) None (all_records data_tables) in
  st ← iso_seconds_moscow status_ts;
  ld ← iso_seconds_moscow last_data_ts;
  Return {|
    status_deviceid := deviceid;
    online := bool_decide (status_val = Some (VString "online"));
    statustime := st;
    lastdatatime := ld
  |}.

(** ** Telemetry Reader *)

Record Point : Type := mk_Point {
  time : option string;
  temperature : option FluxValue;
  humidity : option FluxValue;
  pressure : option FluxValue
}.

(** The body returned by [device_data]; [error] is the key only the failure
    branch sets. *)
Record DataResponse : Type := mk_DataResponse {
  error : option string;
  data_deviceid : string;
  data_start : string;
  data_stop : option string;
  points : list Point
}.

Definition flux_device_data (env : Env) (deviceid start_utc stop_utc : string) : string :=
  flux_text [
    "a = from(bucket: " +:+ qt (INFLUXBUCKET env) +:+ ")";
    "  |> range(start: " +:+ start_utc +:+ ", stop: " +:+ stop_utc +:+ ")";
    "  |> filter(fn: (r) => r._measurement == " +:+ qt "sensors"
      +:+ " and r.deviceid == " +:+ qt deviceid +:+ ")";
    "b = from(bucket: " +:+ qt (INFLUXBUCKET env) +:+ ")";
    "  |> range(start: " +:+ start_utc +:+ ", stop: " +:+ stop_utc +:+ ")";
    "  |> filter(fn: (r) => r._measurement == " +:+ qt "bme280"
      +:+ " and r.deviceid == " +:+ qt deviceid +:+ ")";
    "union(tables: [a, b])";
    "  |> pivot(rowKey: [" +:+ qt "_time" +:+ "], columnKey: [" +:+ qt "_field"
      +:+ "], valueColumn: " +:+ qt "_value" +:+ ")";
    "  |> keep(columns: [" +:+ qt "_time" +:+ "," +:+ qt "temperature" +:+ ","
      +:+ qt "humidity" +:+ "," +:+ qt "pressure" +:+ "," +:+ qt "deviceid" +:+ "])"
  ].

(** The loop that fills [points]: one point per record, in order; it stops
    at the first record whose time cannot be rendered. *)
Fixpoint build_points (rs : list FluxRecord) (points : list Point) : result (list Point) :=
  match rs with
  | [] => Return points
  | r :: rs' =>
    moscow_time_str ← iso_seconds_moscow (rec_time r);
    build_points rs'
      (points ++ [ {| time := moscow_time_str;
                      temperature := rec_fields r !! "temperature";
                      humidity := rec_fields r !! "humidity";
                      pressure := rec_fields r !! "pressure" |} ])
  end.

(** The [try] block of [device_data]. *)
Definition device_data_try (env : Env) (deviceid start : string) (stop : option string)
  : result DataResponse :=
  start_utc ← parse_moscow_time_to_utc start;
  stop_utc ←
    match stop with
    | Some s =>
      if truthy stop then parse_moscow_time_to_utc s
      else Return (isoformat (datetime_now_utc env) timespec_auto)
    | None => Return (isoformat (datetime_now_utc env) timespec_auto)
    end;
  tables ← q_query env (INFLUXORG env) (flux_device_data env deviceid start_utc stop_utc);
  points ← build_points (all_records tables) [];
  stop_shown ←
    (if truthy stop then Return stop
     else iso_seconds_moscow (Some (datetime_now_utc env)));
  Return {|
    error := None;
    data_deviceid := deviceid;
    data_start := start;
    data_stop := stop_shown;
    points := points
  |}.

(** [device_data(deviceid, start, stop)]: what is handed to the transport
    layer, a body to send with status 200 or an exception. *)
Definition device_data (env : Env) (deviceid start : string) (stop : option string)
  : result DataResponse :=
  try_except_Exception
    (device_data_try env deviceid start stop)
    (fun e => Return {|
       error := Some (str e);
       data_deviceid := deviceid;
       data_start := start;
       data_stop := stop;
       points := []
     |}).

(** ** Device Eraser *)

(** Code that calls the delete API and the MQTT client: it reads the calls
    made so far and extends them. A call is recorded whether it fails or not;
    its outcome may depend on the calls before it. *)
Definition io (A : Type) : Type := list Call → result A * list Call.

Global Instance io_ret : MRet io := fun A a trace => (Return a, trace).
Global Instance io_bind : MBind io := fun A B k c trace =>
  match c trace with
  | (Return a, trace') => k a trace'
  | (Raise e, trace') => (Raise e, trace')
  end.

Definition call (env : Env) (c : Call) : io unit :=
  fun trace => (call_outcome env trace c, trace ++ [c]).

(** [try: body  except Exception: handler] *)
Definition io_try_except {A} (body : io A) (handler : io A) : io A :=
  fun trace =>
    match body trace with
    | (Raise _, trace') => handler trace'
    | r => r
    end.

Record DeleteResult : Type := mk_DeleteResult {
  device_id : string;
  influx_deleted : gmap string bool;
  mqtt_cleared : bool
}.

Definition delete_start : string := "1970-01-01T00:00:00Z".
Definition delete_stop : string := "2100-01-01T00:00:00Z".

(** The enumerated predicates: the current schema (bme280, status) and the
    alternative names (sensors, devices). *)
Definition predicates (device_id : string) : list string :=
  [ "_measurement=" +:+ qt "bme280" +:+ " AND deviceid=" +:+ qt device_id;
    "_measurement=" +:+ qt "status" +:+ " AND deviceid=" +:+ qt device_id;
    "_measurement=" +:+ qt "sensors" +:+ " AND deviceid=" +:+ qt device_id;
    "_measurement=" +:+ qt "devices" +:+ " AND deviceid=" +:+ qt device_id ].

(** [for pred in predicates: try: delete; deleted[pred] = True
                             except Exception: deleted[pred] = False] *)
Fixpoint delete_loop (env : Env) (preds : list string) (deleted : gmap string bool)
  : io (gmap string bool) :=
  match preds with
  | [] => mret deleted
  | pred :: rest =>
    deleted' ← io_try_except
      (call env (DeleteCall delete_start delete_stop pred (INFLUXBUCKET env) (INFLUXORG env));;
       mret (<[pred := true]> deleted))
      (mret (<[pred := false]> deleted));
    delete_loop env rest deleted'
  end.

(** The [try] block that clears the retained status message. *)
Definition mqtt_clear (env : Env) (device_id : string) : io bool :=
  let topic_status := "devices/" +:+ device_id +:+ "/status" in
  match MQTTUSER env, MQTTPASS env with
  | Some u, Some p =>
    if truthy (Some u) && truthy (Some p) then call env (MqttUsernamePwSet u p)
    else mret ()
  | _, _ => mret ()
  end;;
  call env (MqttConnect (MQTTHOST env) (MQTTPORT env) 10);;
  call env (MqttPublish topic_status "" 1 true);;
  call env MqttLoop;;
  call env MqttDisconnect;;
  mret true.

(** [delete_device(device_id)] *)
Definition delete_device (env : Env) (device_id : string) : io DeleteResult :=
  deleted ← delete_loop env (predicates device_id) ∅;
  mqtt_cleared ← io_try_except (mqtt_clear env device_id) (mret false);
  mret {|
    device_id := device_id;
    influx_deleted := deleted;
    mqtt_cleared := mqtt_cleared
  |}.

(** ** The store's pivot stage

    [pivot(rowKey: ["_time"], columnKey: ["_field"], valueColumn: "_value")]
    runs in the store. For the scenarios that start from raw samples it is
    described the way the data model does: the field records that share a
    timestamp become one row, each field name a column of that row, and a
    field with no record at a timestamp has no value there. *)
Record Sample : Type := mk_Sample {
  sample_time : datetime;
  sample_device : string;
  sample_field : string;
  sample_value : FluxValue
}.

Definition same_time (t : datetime) (row : FluxRecord) : bool :=
  bool_decide (rec_time row = Some t).

Fixpoint pivot_insert (s : Sample) (rows : list FluxRecord) : list FluxRecord :=
  match rows with
  | [] =>
    [ mk_FluxRecord (Some (sample_time s)) None
        {[ "deviceid" := sample_device s ]}
        {[ sample_field s := sample_value s ]} ]
  | row :: rows' =>
    if same_time (sample_time s) row then
      mk_FluxRecord (rec_time row) (rec_value row) (rec_tags row)
        (<[ sample_field s := sample_value s ]> (rec_fields row)) :: rows'
    else row :: pivot_insert s rows'
  end.

Definition pivot (samples : list Sample) : list FluxRecord :=
  foldl (fun rows s => pivot_insert s rows) [] samples.

(** ** Derived notions used by the properties *)

(** A range bound and back: the bound [parse_moscow_time_to_utc] returns, the
    UTC instant that text denotes, and its display rendering. *)
Definition display_of_range_bound (t : string) : result (option string) :=
  bound ← parse_moscow_time_to_utc t;
  instant ← fromisoformat bound;
  iso_seconds_moscow (Some instant).

(** What the transport layer answers: 200 with the body a handler returned,
    500 when the handler raised. *)
Definition http_status {A} (r : result A) : Z :=
  match r with
  | Return _ => 200
  | Raise _ => 500
  end.

(** The first source that is present and not empty. *)
Fixpoint first_nonempty (sources : list (option string)) : option string :=
  match sources with
  | [] => None
  | Some s :: rest => if String.eqb s "" then first_nonempty rest else Some s
  | None :: rest => first_nonempty rest
  end.

(** Strictly ascending order on identifiers. *)
Definition str_lt (s1 s2 : string) : Prop := strict String.le s1 s2.

(** The microseconds from ordinal 0 to a [datetime]'s wall-clock reading. *)
Definition total_us (d : datetime) : Z :=
  timedelta_new (toordinal d) (hour d) (minute d) (second d) (microsecond d).

(** [all_from k n P]: [P] holds at n, n+1, ..., n+k-1. *)
Fixpoint all_from (k : nat) (n : Z) (P : Z → bool) : bool :=
  match k with
  | O => true
  | S k' => P n && all_from k' (n + 1) P
  end.

(** The calendar of one year, by its leap flag: the month lengths, the days
    before a month, and the last step of [_ord2ymd], which finds the month
    and day of the [n]-th day (from 0) of a year. *)
Definition days_in_month_of (leapyear : bool) (month : Z) : Z :=
  if (month =? 2) && leapyear then 29 else Calendar._DAYS_IN_MONTH month.

Definition days_before_month_of (leapyear : bool) (month : Z) : Z :=
  Calendar._DAYS_BEFORE_MONTH month + (if (month >? 2) && leapyear then 1 else 0).

Definition month_day_of (leapyear : bool) (n : Z) : Z * Z :=
  let month := Z.shiftr (n + 50) 5 in
  let preceding :=
    Calendar._DAYS_BEFORE_MONTH month + (if (month >? 2) && leapyear then 1 else 0) in
  if preceding >? n then
    let month := month - 1 in
    let preceding :=
      preceding - (Calendar._DAYS_IN_MONTH month
                   + (if (month =? 2) && leapyear then 1 else 0)) in
    (month, n - preceding + 1)
  else (month, n - preceding + 1).

(** Checks run over the days of one year. *)
Definition year_day_ok (leapyear : bool) (n : Z) : bool :=
  let '(m, d) := month_day_of leapyear n in
  (1 <=? m) && (m <=? 12) && (1 <=? d) && (d <=? days_in_month_of leapyear m)
  && (days_before_month_of leapyear m + d =? n + 1).

Definition month_ok (leapyear : bool) (m : Z) : bool :=
  all_from 31 1 (fun d =>
    negb (d <=? days_in_month_of leapyear m) ||
    (let n := days_before_month_of leapyear m + d - 1 in
     let '(m', d') := month_day_of leapyear n in
     (m' =? m) && (d' =? d) && (0 <=? n)
     && (if leapyear then n <=? 365 else n <=? 364)
     && ((n <? 365) || ((m =? 12) && (d =? 31))))).

(** The numbers written by two, four and six decimal digits. *)
Definition val2 (a b : ascii) : Z := (0 * 10 + digit_val a) * 10 + digit_val b.
Definition val4 (a b c d : ascii) : Z :=
  (((0 * 10 + digit_val a) * 10 + digit_val b) * 10 + digit_val c) * 10 + digit_val d.
Definition val6 (a b c d e f : ascii) : Z :=
  (((((0 * 10 + digit_val a) * 10 + digit_val b) * 10 + digit_val c) * 10
    + digit_val d) * 10 + digit_val e) * 10 + digit_val f.

(** The [deviceid] column of a query result: the values of the rows that
    have one, in the order of the result. *)
Definition deviceid_column (tables : list FluxTable) : list string :=
  omap (fun r => rec_tags r !! "deviceid") (all_records tables).

(** The identifier is not the empty string. *)
Definition nonempty (id : string) : Prop := id ≠ "".

(** The delete calls [delete_device] is to make, in order, and whether a
    call returned. *)
Definition delete_call (env : Env) (pred : string) : Call :=
  DeleteCall delete_start delete_stop pred (INFLUXBUCKET env) (INFLUXORG env).

Definition delete_calls (env : Env) (device_id : string) : list Call :=
  delete_call env <$> predicates device_id.

Definition succeeded {A} (r : result A) : bool :=
  match r with
  | Return _ => true
  | Raise _ => false
  end.

(** ** Concrete inputs of the examples *)

Definition display_time_example : datetime := mk_datetime 2024 2 29 1 30 15 0 None.

(** An environment whose store has no data and whose calls all succeed. *)
Definition quiet_env : Env := {|
  INFLUXORG := Some "home";
  INFLUXBUCKET := "iotsensors";
  MQTTHOST := "mosquitto";
  MQTTPORT := 1883;
  MQTTUSER := None;
  MQTTPASS := None;
  API_TOKEN := Some "s3cret";
  q_query := fun _ _ => Return [];
  call_outcome := fun _ _ => Return ();
  datetime_now_utc := mk_datetime 2024 5 1 12 0 0 0 (Some timezone_utc)
|}.

(** The same environment with another store behaviour. *)
Definition with_store (env : Env)
    (q : option string → string → result (list FluxTable)) : Env :=
  mk_Env (INFLUXORG env) (INFLUXBUCKET env) (MQTTHOST env) (MQTTPORT env)
         (MQTTUSER env) (MQTTPASS env) (API_TOKEN env) q
         (call_outcome env) (datetime_now_utc env).

(** A store that is unreachable. *)
Definition down_env : Env :=
  with_store quiet_env (fun _ _ => Raise (ApiException "connection refused")).

(** A row that carries only the [deviceid] tag. *)
Definition id_row (id : string) : FluxRecord :=
  mk_FluxRecord None None {[ "deviceid" := id ]} ∅.


Definition sorted_store_env : Env :=
  with_store quiet_env
    (fun _ _ => Return [mk_FluxTable [id_row "attic"]; mk_FluxTable [id_row "cellar"]]).

Definition unsorted_store_env : Env :=
  with_store quiet_env
    (fun _ _ => Return [mk_FluxTable [id_row "cellar"];
                        mk_FluxTable [id_row "attic"; id_row "attic"]]).

Definition online_store_env : Env :=
  with_store quiet_env
    (fun _ _ => Return [mk_FluxTable [id_row "cellar"]; mk_FluxTable [id_row "attic"]]).


(** A store that answers with tables that hold no record. *)
Definition empty_tables_env : Env :=
  with_store quiet_env
    (fun _ flux =>
       if String.eqb flux (flux_status quiet_env "sensor-7")
       then Return [mk_FluxTable []]
       else Return [mk_FluxTable []; mk_FluxTable []]).

(** A store whose answer holds a record in the last hours of year 9999. *)
Definition late_record_env : Env :=
  with_store quiet_env
    (fun _ _ => Return [mk_FluxTable
       [mk_FluxRecord (Some (mk_datetime 9999 12 31 22 0 0 0 (Some timezone_utc)))
          None {[ "deviceid" := "sensor-7" ]} {[ "temperature" := VNumber 43 2 ]}]]).

(** A store that refuses every delete and a broker that refuses the
    connection. *)
Definition refusing_env : Env :=
  mk_Env (INFLUXORG quiet_env) (INFLUXBUCKET quiet_env) (MQTTHOST quiet_env)
         (MQTTPORT quiet_env) (MQTTUSER quiet_env) (MQTTPASS quiet_env)
         (API_TOKEN quiet_env) (q_query quiet_env)
         (fun _ c =>
            match c with
            | DeleteCall _ _ _ _ _ => Raise (ApiException "unauthorized")
            | MqttConnect _ _ _ => Raise (MqttError "connection refused")
            | _ => Return ()
            end)
         (datetime_now_utc quiet_env).

(** The scenario of the specification: device "sensor-7" has a temperature
    sample at T1 and a humidity sample five seconds later. *)
Definition T1 : datetime := mk_datetime 2024 5 1 10 0 0 0 (Some timezone_utc).
Definition T1_plus_5s : datetime := mk_datetime 2024 5 1 10 0 5 0 (Some timezone_utc).

Definition scenario_samples : list Sample :=
  [ mk_Sample T1 "sensor-7" "temperature" (VNumber 43 2);
    mk_Sample T1_plus_5s "sensor-7" "humidity" (VNumber 44 1) ].

Definition scenario_env : Env :=
  with_store quiet_env (fun _ _ => Return [mk_FluxTable (pivot scenario_samples)]).

(** ** Further notions used by the properties *)

(** The UTC instant of a timestamp, in microseconds from ordinal 0: its
    wall-clock reading less its offset. A naive timestamp is read as UTC, as
    [iso_seconds_moscow] does. *)
Definition instant_us (ts : datetime) : Z :=
  total_us ts - match dt_tzinfo ts with Some tz => utcoffset tz | None => 0 end.

(** The last instant [iso_seconds_moscow] can render is the microsecond
    before 9999-12-31T21:00:00 UTC. *)
Definition after_last_moscow_day (ts : datetime) : Prop :=
  (year ts, month ts, day ts) = (9999, 12, 31) ∧ 21 ≤ hour ts.

(** The first three hours of year 1 have no UTC instant in Moscow time. *)
Definition before_first_utc_day (d : datetime) : Prop :=
  (year d, month d, day d) = (1, 1, 1) ∧ hour d < 3.

(** [parse_moscow_time_to_utc(time_str)] for a given outcome [parsed] of its
    call [datetime.fromisoformat(time_str)]: the rest of the [try] block and
    the [except ValueError] branch. With it a property of the conversion can
    be stated for every [datetime] the parser may return, also for the texts
    that only later versions of the parser read. *)
Definition utc_bound_of (parsed : result datetime) (time_str : string) : result string :=
  try_except_ValueError
    (utc_dt ← (moscow_dt ← parsed;
               let moscow_dt := replace_tzinfo moscow_dt (Some MOSCOW_TZ) in
               astimezone moscow_dt timezone_utc);
     Return (isoformat utc_dt timespec_auto))
    (Return time_str).

(** The computation raises nothing but [ValueError]. *)
Definition raises_only_ValueError {A} (r : result A) : Prop :=
  ∀ e, r = Raise e → ∃ msg, e = ValueError msg.

(** A status row of device "sensor-7", and a store that answers the status
    query with two of them and the telemetry query with one record. *)
Definition status_row (v : string) (t : datetime) : FluxRecord :=
  mk_FluxRecord (Some t) (Some (VString v)) {[ "deviceid" := "sensor-7" ]} ∅.

Definition two_status_env : Env :=
  with_store quiet_env
    (fun _ flux =>
       if String.eqb flux (flux_status quiet_env "sensor-7")
       then Return [mk_FluxTable [status_row "offline" T1];
                    mk_FluxTable [status_row "online" T1_plus_5s]]
       else Return [mk_FluxTable [mk_FluxRecord (Some T1) None ∅ ∅]]).

(** The calls of the MQTT block of [delete_device] in program order; the
    credentials are set when both are configured and not empty. *)
Definition mqtt_calls (env : Env) (device_id : string) : list Call :=
  match MQTTUSER env, MQTTPASS env with
  | Some u, Some p =>
    if truthy (Some u) && truthy (Some p) then [MqttUsernamePwSet u p] else []
  | _, _ => []
  end
  ++ [ MqttConnect (MQTTHOST env) (MQTTPORT env) 10;
       MqttPublish ("devices/" +:+ device_id +:+ "/status") "" 1 true;
       MqttLoop;
       MqttDisconnect ].

(** Calls made one after the other until one raises: whether all of them
    returned, and the calls made. *)
Fixpoint calls_until_failure (env : Env) (trace : list Call) (calls : list Call)
  : bool * list Call :=
  match calls with
  | [] => (true, [])
  | c :: rest =>
    if succeeded (call_outcome env trace c) then
      let '(ok, made) := calls_until_failure env (trace ++ [c]) rest in
      (ok, c :: made)
    else (false, [c])
  end.

(** The text begins with the four decimal digits of a year. *)
Definition starts_with_year (s : string) : bool :=
  match s with
  | String a (String b (String c (String d _))) =>
    is_digit a && is_digit b && is_digit c && is_digit d
  | _ => false
  end.

(** ** The failure policy of [device_data] *)

(** The body returned by the [except Exception as e] branch. *)
Definition error_body (deviceid start : string) (stop : option string) (e : Exception)
  : DataResponse :=
  {| error := Some (str e);
     data_deviceid := deviceid;
     data_start := start;
     data_stop := stop;
     points := [] |}.

(** The upper bound of the window, the second half of step 1: the converted
    [stop] when one is given and not empty, the clock otherwise. *)
Definition stop_bound (env : Env) (stop : option string) : result string :=
  match stop with
  | Some s =>
    if truthy stop then parse_moscow_time_to_utc s
    else Return (isoformat (datetime_now_utc env) timespec_auto)
  | None => Return (isoformat (datetime_now_utc env) timespec_auto)
  end.

(** ** The store's stages of the [list_online] query

    The stages of the query run in the store. For the property that ties the
    result to the status stream they are described the way the data model
    does. The status stream is a sequence of status samples in the store's
    own order, which is authoritative for what is the latest sample of a
    device. *)

Record StatusSample : Type := mk_StatusSample {
  status_measurement : string;
  status_field : string;
  status_device : option string;    (* the [deviceid] tag, if the row has one *)
  status_time : datetime;
  status_value : string
}.

(** [range(start: -7d)] at the store's clock [now]: the rows from seven days
    before [now] up to, and not including, [now]. *)
Definition in_trailing_window (now t : datetime) : bool :=
  (instant_us now - timedelta_new 7 0 0 0 0 <=? instant_us t)
  && (instant_us t <? instant_us now).

(** [filter(fn: (r) => (r._measurement == "devices" or r._measurement ==
    "status") and r._field == "value")] *)
Definition is_status_row (s : StatusSample) : bool :=
  (String.eqb (status_measurement s) "devices"
   || String.eqb (status_measurement s) "status")
  && String.eqb (status_field s) "value".

(** [from |> range |> filter]: the status rows of the trailing window, in the
    store's order. *)
Definition status_rows (now : datetime) (stream : list StatusSample)
  : list StatusSample :=
  filter (fun s => in_trailing_window now (status_time s) && is_status_row s = true)
         stream.

(** The table [group(columns: ["deviceid"])] makes for one value of the tag:
    the rows that carry it, in order. *)
Definition device_table (key : option string) (rows : list StatusSample)
  : list StatusSample :=
  filter (fun s => status_device s = key) rows.

(** The one row [keep(columns: ["deviceid"])] leaves of a row of the group
    with this key. *)
Definition deviceid_row (key : option string) : FluxRecord :=
  mk_FluxRecord None None
    (match key with Some id => {[ "deviceid" := id ]} | None => ∅ end) ∅.

(** The answer of a store that evaluates the query of [list_online] over its
    status stream: one table per value of the [deviceid] tag ([group]), of it
    the last row ([last]), kept if its value is the text "online" ([filter];
    a table left without rows is dropped), reduced to the [deviceid] column
    ([keep], [unique]). *)
Definition online_query_result (now : datetime) (stream : list StatusSample)
  : list FluxTable :=
  let rows := status_rows now stream in
  key ← remove_dups (status_device <$> rows);
  match last (device_table key rows) with
  | Some s =>
    if String.eqb (status_value s) "online"
    then [mk_FluxTable [deviceid_row key]]
    else []
  | None => []
  end.


(** A status stream: "attic" went online, "cellar" went offline, "porch"
    reports under the other measurement name, and "shed" has only a row of
    another field. A store that evaluates the query over it at noon. *)
Definition status_stream_example : list StatusSample :=
  [ mk_StatusSample "status" "value" (Some "attic") T1 "offline";
    mk_StatusSample "status" "value" (Some "attic") T1_plus_5s "online";
    mk_StatusSample "status" "value" (Some "cellar") T1 "online";
    mk_StatusSample "status" "value" (Some "cellar") T1_plus_5s "offline";
    mk_StatusSample "devices" "value" (Some "porch") T1 "online";
    mk_StatusSample "status" "rssi" (Some "shed") T1 "online" ].

Definition evaluating_store_env : Env :=
  with_store quiet_env
    (fun _ _ => Return (online_query_result (datetime_now_utc quiet_env)
                          status_stream_example)).

(** * File collector (combine.py)

    The helpers of the script that gathers the configuration files of the
    stack into one Markdown document. A Python [str] is kept as the string of
    its UTF-8 bytes: the operations below look for ASCII characters and ASCII
    texts only, which occur in the bytes exactly where they occur in the
    text. *)

(** [s.rfind(c)]: the index of the last occurrence, or -1. *)
Fixpoint rfind (c : ascii) (s : string) : Z :=
  match s with
  | EmptyString => -1
  | String c' s' =>
    let i := rfind c s' in
    if 0 <=? i then i + 1 else if Ascii.eqb c' c then 0 else -1
  end.

(** [sub in s] *)
Fixpoint str_in (sub s : string) : bool :=
  String.prefix sub s ||
  match s with
  | EmptyString => false
  | String _ s' => str_in sub s'
  end.

(** [s.lower()], as far as the comparison with the keys of [LANG_MAP] can
    tell: the letters A to Z are lowered and the bytes of every other
    character are left as they are. (The one character outside ASCII whose
    lower case is an ASCII letter is the Kelvin sign, which becomes [k]; no
    key holds a [k].) *)
Definition ascii_lower (c : ascii) : ascii :=
  let n := nat_of_ascii c in
  if (65 <=? n)%nat && (n <=? 90)%nat then ascii_of_nat (n + 32) else c.

Fixpoint lower (s : string) : string :=
  match s with
  | EmptyString => EmptyString
  | String c s' => String (ascii_lower c) (lower s')
  end.

(** ** [os.path] (posixpath.py, genericpath.py) *)

Module os_path.

Definition sep : ascii := "/".
Definition extsep : ascii := ".".

(** [basename(p)]: [i = p.rfind(sep) + 1; return p[i:]] *)
Definition basename (p : string) : string :=
  let i := rfind sep p + 1 in
  drop_prefix (Z.to_nat i) p.

(** The loop of [_splitext] that skips the leading dots of the file name:
    whether a character other than [extsep] stands at one of the [n] indices
    from [filenameIndex] on. *)
Fixpoint _splitext_loop (p : string) (n : nat) (filenameIndex : nat) : bool :=
  match n with
  | O => false
  | S n' =>
    match String.get filenameIndex p with
    | Some c =>
      if negb (Ascii.eqb c extsep) then true
      else _splitext_loop p n' (S filenameIndex)
    | None => true
    end
  end.

(** [genericpath._splitext(p, sep, None, extsep)] *)
Definition _splitext (p : string) : string * string :=
  let sepIndex := rfind sep p in
  let dotIndex := rfind extsep p in
  if sepIndex <? dotIndex then
    let filenameIndex := sepIndex + 1 in
    if _splitext_loop p (Z.to_nat (dotIndex - filenameIndex)) (Z.to_nat filenameIndex)
    then (substring 0 (Z.to_nat dotIndex) p, drop_prefix (Z.to_nat dotIndex) p)
    else (p, EmptyString)
  else (p, EmptyString).

Definition splitext (p : string) : string * string := _splitext p.

(** [b.startswith(sep)] and [path.endswith(sep)] *)
Definition startswith (s : string) (c : ascii) : bool :=
  match s with
  | String c' _ => Ascii.eqb c' c
  | EmptyString => false
  end.

Definition endswith (s : string) (c : ascii) : bool :=
  match String.length s with
  | O => false
  | S n =>
    match String.get n s with
    | Some c' => Ascii.eqb c' c
    | None => false
    end
  end.

(** [join(a, b)] *)
Definition join (a b : string) : string :=
  if startswith b sep then b
  else if String.eqb a "" || endswith a sep then a +:+ b
  else a +:+ String sep b.

End os_path.

(** ** Constants of the script *)

Definition LANG_MAP : gmap string string :=
  {[ ".py" := "python";
     ".yml" := "yaml";
     ".yaml" := "yaml";
     ".conf" := "ini";
     ".env" := "ini" ]}.

Definition NAME_LANG_HINTS : list (string * string) :=
  [ ("Dockerfile", "dockerfile") ].

(** ** [guess_lang] and [choose_fence] *)

(** [for hint, lang in NAME_LANG_HINTS: if hint in base: return lang] *)
Fixpoint first_hint (hints : list (string * string)) (base : string) : option string :=
  match hints with
  | [] => None
  | (hint, lang) :: rest => if str_in hint base then Some lang else first_hint rest base
  end.

(** [guess_lang(path)] *)
Definition guess_lang (path : string) : string :=
  let base := os_path.basename path in
  match first_hint NAME_LANG_HINTS base with
  | Some lang => lang
  | None =>
    let '(_, ext) := os_path.splitext base in
    default "plaintext" (LANG_MAP !! lower ext)
  end.

(** [choose_fence(content)] *)
Definition choose_fence (content : string) : string :=
  if str_in "```" content then "````" else "```".


(** ** [iter_targets] *)

Definition TARGETS : list string :=
  [ ".env";
    "docker-compose.yml";
    "telegraf/telegraf.conf";
    "api/main.py";
    "api/Dockerfile";
    ".mosquitto/config/mosquitto.conf";
    ".mosquitto/config/passwd";
    ".influxdb-config/influx-configs" ].

Definition SKIP_DIRS : gset string := {[ ".git"; "__pycache__" ]}.

(** The directory the script is run from: a tree of directories whose
    entries are listed in the order the system reports them. Everything that
    is not a directory counts as a file; every directory can be listed and
    no entry is a symbolic link. *)
#[warnings="-register-all"] Inductive Node : Type :=
  | File
  | Dir (entries : list (string * Node)).

Fixpoint lookup_entry (name : string) (entries : list (string * Node)) : option Node :=
  match entries with
  | [] => None
  | (n, child) :: rest => if String.eqb n name then Some child else lookup_entry name rest
  end.

(** The names of a relative path: [p.split("/")]. *)
Fixpoint components (p : string) : list string :=
  match p with
  | EmptyString => [EmptyString]
  | String c p' =>
    if Ascii.eqb c "/" then EmptyString :: components p'
    else
      match components p' with
      | x :: xs => String c x :: xs
      | [] => [String c EmptyString]
      end
  end.

(** What a relative path made of plain names, as every member of [TARGETS]
    is, leads to. *)
Fixpoint resolve (node : Node) (names : list string) : option Node :=
  match names with
  | [] => Some node
  | name :: rest =>
    match node with
    | File => None
    | Dir entries =>
      match lookup_entry name entries with
      | Some child => resolve child rest
      | None => None
      end
    end
  end.

(** [os.path.isdir(t)] *)
Definition isdir (cwd : Node) (t : string) : bool :=
  match resolve cwd (components t) with
  | Some (Dir _) => true
  | _ => false
  end.

(** The paths appended while [os.walk] runs top-down over a directory [node]
    reached as [top]: for each directory visited the files in it, then the
    visits of its sub-directories that the pruning [dirs[:] = [d for d in
    dirs if d not in SKIP_DIRS]] has kept. *)
Fixpoint walk (top : string) (node : Node) {struct node} : list string :=
  match node with
  | File => []
  | Dir entries =>
    ('(fn, child) ← entries;
     match child with
     | File => [os_path.join top fn]
     | Dir _ => []
     end)
    ++
    ('(d, child) ← entries;
     match child with
     | File => []
     | Dir _ =>
       if bool_decide (d ∉ SKIP_DIRS) then walk (os_path.join top d) child else []
     end)
  end.

(** [for root, dirs, files in os.walk(t): ...] *)
Definition os_walk (cwd : Node) (t : string) : list string :=
  match resolve cwd (components t) with
  | Some node => walk t node
  | None => []
  end.

(** [dict.fromkeys(paths)]: the keys in the order of their first
    occurrence. *)
Definition dict_fromkeys (paths : list string) : list string :=
  foldl (fun keys k => if bool_decide (k ∈ keys) then keys else keys ++ [k]) [] paths.

(** [iter_targets()], run from the directory [cwd]. *)
Definition iter_targets (cwd : Node) : list string :=
  let paths := t ← TARGETS; if isdir cwd t then os_walk cwd t else [t] in
  sorted (dict_fromkeys paths).

(** A file of a tree: the directories that lead to it from the top, and its
    name. *)
Fixpoint tree_file (node : Node) (dirs : list string) (name : string) : Prop :=
  match dirs with
  | [] => ∃ entries, node = Dir entries ∧ (name, File) ∈ entries
  | d :: ds =>
    ∃ entries sub, node = Dir entries ∧ (d, Dir sub) ∈ entries
      ∧ tree_file (Dir sub) ds name
  end.

(** An example tree: a stack directory whose [.influxdb-config] target is a
    directory with a repository and a cache inside. *)
Definition example_tree : Node :=
  Dir [ (".env", File);
        ("api", Dir [("main.py", File); ("Dockerfile", File); ("__pycache__", Dir [("main.pyc", File)])]);
        (".influxdb-config",
         Dir [("influx-configs",
               Dir [("default", File);
                    (".git", Dir [("HEAD", File)]);
                    ("backup", Dir [("old", File)])])]) ].

(** * Properties *)

(** ** The calendar: ordinals and dates are inverse to each other *)

Lemma all_from_spec k P : ∀ n0 n,
  all_from k n0 P = true → n0 ≤ n < n0 + Z.of_nat k → P n = true.
Proof.
  induction k as [|k IH]; intros n0 n Hall Hn; [lia|].
  cbn [all_from] in Hall. apply andb_true_iff in Hall as [Hk Hrest].
  destruct (decide (n = n0)) as [->|Hne]; [done|].
  apply (IH (n0 + 1)); [done|lia].
Qed.

Lemma year_days_check leapyear :
  all_from 365 0 (year_day_ok leapyear) = true.
Proof. destruct leapyear; vm_compute; reflexivity. Qed.

Lemma months_check leapyear : all_from 12 1 (month_ok leapyear) = true.
Proof. destruct leapyear; vm_compute; reflexivity. Qed.

Lemma days_before_year_digits a b c f :
  0 ≤ b ≤ 3 → 0 ≤ c ≤ 24 → 0 ≤ f ≤ 3 →
  Calendar._days_before_year (400 * a + 100 * b + 4 * c + f + 1)
  = 146097 * a + 36524 * b + 1461 * c + 365 * f.
Proof.
  intros Hb Hc Hf. unfold Calendar._days_before_year. cbv zeta.
  replace (400 * a + 100 * b + 4 * c + f + 1 - 1) with (400 * a + 100 * b + 4 * c + f)
    by lia.
  rewrite <- (Z.div_unique (400 * a + 100 * b + 4 * c + f) 4 (100 * a + 25 * b + c) f)
    by lia.
  rewrite <- (Z.div_unique (400 * a + 100 * b + 4 * c + f) 100 (4 * a + b) (4 * c + f))
    by lia.
  rewrite <- (Z.div_unique (400 * a + 100 * b + 4 * c + f) 400 a (100 * b + 4 * c + f))
    by lia.
  lia.
Qed.

Lemma is_leap_digits a b c f :
  0 ≤ b ≤ 3 → 0 ≤ c ≤ 24 → 0 ≤ f ≤ 3 →
  Calendar._is_leap (400 * a + 100 * b + 4 * c + f + 1)
  = (f =? 3) && (negb (c =? 24) || (b =? 3)).
Proof.
  intros Hb Hc Hf. unfold Calendar._is_leap.
  set (y := 400 * a + 100 * b + 4 * c + f + 1).
  destruct (Z.eqb_spec f 3) as [->|Hf3].
  - rewrite <- (Z.mod_unique y 4 (100 * a + 25 * b + c + 1) 0) by (unfold y; lia).
    cbn [Z.eqb andb].
    destruct (Z.eqb_spec c 24) as [->|Hc24]; cbn [negb orb].
    + rewrite <- (Z.mod_unique y 100 (4 * a + b + 1) 0) by (unfold y; lia).
      cbn [Z.eqb negb orb].
      destruct (Z.eqb_spec b 3) as [->|Hb3].
      * by rewrite <- (Z.mod_unique y 400 (a + 1) 0) by (unfold y; lia).
      * rewrite <- (Z.mod_unique y 400 a (100 * b + 100)) by (unfold y; lia).
        destruct (Z.eqb_spec (100 * b + 100) 0); [lia|done].
    + rewrite <- (Z.mod_unique y 100 (4 * a + b) (4 * c + 4)) by (unfold y; lia).
      destruct (Z.eqb_spec (4 * c + 4) 0); [lia|done].
  - rewrite <- (Z.mod_unique y 4 (100 * a + 25 * b + c) (f + 1)) by (unfold y; lia).
    destruct (Z.eqb_spec (f + 1) 0); [lia|done].
Qed.

Lemma days_in_month_of_leap y m :
  Calendar._days_in_month y m = days_in_month_of (Calendar._is_leap y) m.
Proof. reflexivity. Qed.

Lemma ymd2ord_of_leap y m d :
  Calendar._ymd2ord y m d
  = Calendar._days_before_year y + days_before_month_of (Calendar._is_leap y) m + d.
Proof. reflexivity. Qed.

(** [_ord2ymd] on an ordinal given by its digits: the numbers of whole
    400-year, 100-year, 4-year and 1-year cycles before it, and the day of
    the year. *)
Lemma ord2ymd_digits q400 q100 q4 q1 r1 :
  0 ≤ r1 < 365 → 0 ≤ q1 → 365 * q1 + r1 < 1461 →
  0 ≤ q4 → 1461 * q4 + 365 * q1 + r1 < 36524 →
  0 ≤ q100 → 36524 * q100 + 1461 * q4 + 365 * q1 + r1 < 146097 →
  Calendar._ord2ymd (146097 * q400 + 36524 * q100 + 1461 * q4 + 365 * q1 + r1 + 1)
  = let year := q400 * 400 + 1 + (q100 * 100 + q4 * 4 + q1) in
    if (q1 =? 4) || (q100 =? 4) then (year - 1, 12, 31)
    else
      let '(m, d) :=
        month_day_of ((q1 =? 3) && (negb (q4 =? 24) || (q100 =? 3))) r1 in
      (year, m, d).
Proof.
  intros Hr1 Hq1 Hr4 Hq4 Hr100 Hq100 Hr400.
  unfold Calendar._ord2ymd, Calendar._DI400Y, Calendar._DI100Y, Calendar._DI4Y.
  cbv zeta.
  set (n0 := 146097 * q400 + 36524 * q100 + 1461 * q4 + 365 * q1 + r1 + 1 - 1).
  rewrite <- (Z.div_unique n0 146097 q400 (36524 * q100 + 1461 * q4 + 365 * q1 + r1))
    by (unfold n0; lia).
  rewrite <- (Z.mod_unique n0 146097 q400 (36524 * q100 + 1461 * q4 + 365 * q1 + r1))
    by (unfold n0; lia).
  rewrite <- (Z.div_unique (36524 * q100 + 1461 * q4 + 365 * q1 + r1) 36524 q100
                (1461 * q4 + 365 * q1 + r1)) by lia.
  rewrite <- (Z.mod_unique (36524 * q100 + 1461 * q4 + 365 * q1 + r1) 36524 q100
                (1461 * q4 + 365 * q1 + r1)) by lia.
  rewrite <- (Z.div_unique (1461 * q4 + 365 * q1 + r1) 1461 q4 (365 * q1 + r1)) by lia.
  rewrite <- (Z.mod_unique (1461 * q4 + 365 * q1 + r1) 1461 q4 (365 * q1 + r1)) by lia.
  rewrite <- (Z.div_unique (365 * q1 + r1) 365 q1 r1) by lia.
  rewrite <- (Z.mod_unique (365 * q1 + r1) 365 q1 r1) by lia.
  destruct ((q1 =? 4) || (q100 =? 4)); [done|].
  unfold month_day_of. cbv zeta.
  by destruct (_ >? r1).
Qed.

Lemma year_day_spec leapyear n :
  0 ≤ n ≤ 364 →
  ∃ m d, month_day_of leapyear n = (m, d)
    ∧ 1 ≤ m ≤ 12 ∧ 1 ≤ d ≤ days_in_month_of leapyear m
    ∧ days_before_month_of leapyear m + d = n + 1.
Proof.
  intros Hn.
  pose proof (all_from_spec _ _ _ n (year_days_check leapyear) ltac:(lia)) as Hok.
  unfold year_day_ok in Hok. destruct (month_day_of leapyear n) as [m d].
  exists m, d. split; [done|].
  repeat (apply andb_true_iff in Hok as [Hok ?]).
  repeat match goal with
  | H : (_ <=? _) = true |- _ => apply Z.leb_le in H
  | H : (_ =? _) = true |- _ => apply Z.eqb_eq in H
  end.
  lia.
Qed.

Lemma month_spec leapyear m d :
  1 ≤ m ≤ 12 → 1 ≤ d ≤ days_in_month_of leapyear m →
  let n := days_before_month_of leapyear m + d - 1 in
  month_day_of leapyear n = (m, d)
  ∧ 0 ≤ n ≤ (if leapyear then 365 else 364)
  ∧ (n < 365 ∨ (m = 12 ∧ d = 31)).
Proof.
  intros Hm Hd n.
  assert (Hd31 : d ≤ 31).
  { unfold days_in_month_of, Calendar._DAYS_IN_MONTH in Hd.
    repeat match goal with
    | H : context [if ?b then _ else _] |- _ => destruct b
    | H : context [match ?x with _ => _ end] |- _ => destruct x
    end; lia. }
  pose proof (all_from_spec _ _ _ m (months_check leapyear) ltac:(lia)) as Hok.
  unfold month_ok in Hok.
  pose proof (all_from_spec _ _ _ d Hok ltac:(lia)) as Hok2. cbv beta zeta in Hok2.
  apply orb_true_iff in Hok2 as [Hbad|Hok2].
  { apply negb_true_iff, Z.leb_gt in Hbad. lia. }
  fold n in Hok2. destruct (month_day_of leapyear n) as [m' d'].
  repeat (apply andb_true_iff in Hok2 as [Hok2 ?]).
  repeat match goal with
  | H : (_ <=? _) = true |- _ => apply Z.leb_le in H
  | H : (_ =? _) = true |- _ => apply Z.eqb_eq in H
  end.
  split; [congruence|]. split.
  - destruct leapyear;
      repeat match goal with H : (_ <=? _) = true |- _ => apply Z.leb_le in H end; lia.
  - match goal with H : (_ || _) = true |- _ => apply orb_true_iff in H as [H|H] end.
    + left. by apply Z.ltb_lt.
    + right. apply andb_true_iff in H as [?%Z.eqb_eq ?%Z.eqb_eq]. done.
Qed.

Lemma valid_date_iff y m d :
  Calendar.valid_date y m d = true
  ↔ 1 ≤ y ≤ 9999 ∧ 1 ≤ m ≤ 12
    ∧ 1 ≤ d ≤ days_in_month_of (Calendar._is_leap y) m.
Proof.
  unfold Calendar.valid_date, Calendar.MINYEAR, Calendar.MAXYEAR.
  rewrite days_in_month_of_leap, !andb_true_iff, !Z.leb_le. lia.
Qed.

(** Every ordinal of the supported range is the ordinal of the valid date
    [_ord2ymd] returns for it. *)
Lemma ord2ymd_spec n :
  1 ≤ n ≤ Calendar._MAXORDINAL →
  ∃ y m d, Calendar._ord2ymd n = (y, m, d)
    ∧ Calendar.valid_date y m d = true ∧ Calendar._ymd2ord y m d = n.
Proof.
  unfold Calendar._MAXORDINAL. intros Hn.
  pose proof (Z.div_mod (n - 1) 146097 ltac:(lia)) as E400.
  pose proof (Z.mod_pos_bound (n - 1) 146097 ltac:(lia)) as B400.
  set (q400 := (n - 1) / 146097) in *. set (r400 := (n - 1) mod 146097) in *.
  pose proof (Z.div_mod r400 36524 ltac:(lia)) as E100.
  pose proof (Z.mod_pos_bound r400 36524 ltac:(lia)) as B100.
  set (q100 := r400 / 36524) in *. set (r100 := r400 mod 36524) in *.
  pose proof (Z.div_mod r100 1461 ltac:(lia)) as E4.
  pose proof (Z.mod_pos_bound r100 1461 ltac:(lia)) as B4.
  set (q4 := r100 / 1461) in *. set (r4 := r100 mod 1461) in *.
  pose proof (Z.div_mod r4 365 ltac:(lia)) as E1.
  pose proof (Z.mod_pos_bound r4 365 ltac:(lia)) as B1.
  set (q1 := r4 / 365) in *. set (r1 := r4 mod 365) in *.
  clearbody q400 r400 q100 r100 q4 r4 q1 r1.
  assert (Hq : 0 ≤ q400 ≤ 24 ∧ 0 ≤ q100 ≤ 4 ∧ 0 ≤ q4 ≤ 24 ∧ 0 ≤ q1 ≤ 4) by lia.
  replace n with (146097 * q400 + 36524 * q100 + 1461 * q4 + 365 * q1 + r1 + 1) by lia.
  rewrite ord2ymd_digits by lia. cbv zeta.
  destruct (Z.eqb_spec q100 4) as [H100|H100].
  { (* the last day of a 400-year cycle *)
    rewrite orb_true_r.
    assert (q4 = 0 ∧ q1 = 0 ∧ r1 = 0) as (-> & -> & ->) by lia. subst q100.
    eexists _, _, _. split; [reflexivity|].
    replace (q400 * 400 + 1 + (4 * 100 + 0 * 4 + 0) - 1)
      with (400 * q400 + 100 * 3 + 4 * 24 + 3 + 1) by lia.
    rewrite valid_date_iff, ymd2ord_of_leap.
    rewrite is_leap_digits, days_before_year_digits by lia.
    change ((3 =? 3) && (negb (24 =? 24) || (3 =? 3))) with true.
    change (days_before_month_of true 12) with 335.
    change (days_in_month_of true 12) with 31. lia. }
  destruct (Z.eqb_spec q1 4) as [H1|H1].
  { (* the last day of a leap year *)
    cbn [orb]. subst q1. assert (r1 = 0) as -> by lia.
    assert (q4 ≠ 24) by lia.
    eexists _, _, _. split; [reflexivity|].
    replace (q400 * 400 + 1 + (q100 * 100 + q4 * 4 + 4) - 1)
      with (400 * q400 + 100 * q100 + 4 * q4 + 3 + 1) by lia.
    rewrite valid_date_iff, ymd2ord_of_leap.
    rewrite is_leap_digits, days_before_year_digits by lia.
    destruct (Z.eqb_spec q4 24); [done|].
    change ((3 =? 3) && (negb false || (q100 =? 3))) with true.
    change (days_before_month_of true 12) with 335.
    change (days_in_month_of true 12) with 31. lia. }
  cbn [orb].
  set (leapyear := (q1 =? 3) && (negb (q4 =? 24) || (q100 =? 3))).
  destruct (year_day_spec leapyear r1 ltac:(lia)) as (m & d & -> & Hm & Hd & Hsum).
  eexists _, _, _. split; [reflexivity|].
  replace (q400 * 400 + 1 + (q100 * 100 + q4 * 4 + q1))
    with (400 * q400 + 100 * q100 + 4 * q4 + q1 + 1) by lia.
  rewrite valid_date_iff, ymd2ord_of_leap.
  rewrite is_leap_digits, days_before_year_digits by lia. fold leapyear.
  split; [|lia]. split; [|done].
  (* the year stays below 10000 *)
  lia.
Qed.

(** The ordinal of a valid date lies in the supported range, and
    [_ord2ymd] recovers the date from it. *)
Lemma ymd2ord_spec y m d :
  Calendar.valid_date y m d = true →
  1 ≤ Calendar._ymd2ord y m d ≤ Calendar._MAXORDINAL
  ∧ Calendar._ord2ymd (Calendar._ymd2ord y m d) = (y, m, d).
Proof.
  intros (Hy & Hm & Hd)%valid_date_iff. unfold Calendar._MAXORDINAL.
  pose proof (Z.div_mod (y - 1) 400 ltac:(lia)) as Ea.
  pose proof (Z.mod_pos_bound (y - 1) 400 ltac:(lia)) as Ba.
  set (a := (y - 1) / 400) in *. set (ra := (y - 1) mod 400) in *.
  pose proof (Z.div_mod ra 100 ltac:(lia)) as Eb.
  pose proof (Z.mod_pos_bound ra 100 ltac:(lia)) as Bb.
  set (b := ra / 100) in *. set (rb := ra mod 100) in *.
  pose proof (Z.div_mod rb 4 ltac:(lia)) as Ec.
  pose proof (Z.mod_pos_bound rb 4 ltac:(lia)) as Bc.
  set (c := rb / 4) in *. set (f := rb mod 4) in *.
  clearbody a ra b rb c f.
  assert (Hdig : 0 ≤ a ≤ 24 ∧ 0 ≤ b ≤ 3 ∧ 0 ≤ c ≤ 24 ∧ 0 ≤ f ≤ 3) by lia.
  assert (Hyear : y = 400 * a + 100 * b + 4 * c + f + 1) by lia.
  rewrite ymd2ord_of_leap. revert Hd. rewrite Hyear.
  rewrite is_leap_digits, days_before_year_digits by lia.
  set (leapyear := (f =? 3) && (negb (c =? 24) || (b =? 3))). intros Hd.
  destruct (month_spec leapyear m d Hm Hd) as (Hmd & Hn & Hlast).
  set (e := days_before_month_of leapyear m + d - 1) in *.
  replace (146097 * a + 36524 * b + 1461 * c + 365 * f
           + days_before_month_of leapyear m + d)
    with (146097 * a + 36524 * b + 1461 * c + 365 * f + e + 1) by (unfold e; lia).
  clearbody e.
  assert (Hleap : leapyear = true → f = 3 ∧ (c ≠ 24 ∨ b = 3)).
  { unfold leapyear. intros [?%Z.eqb_eq Hor]%andb_true_iff.
    split; [done|]. apply orb_true_iff in Hor as [Hc|Hb].
    - left. by apply negb_true_iff, Z.eqb_neq in Hc.
    - right. by apply Z.eqb_eq. }
  assert (He : 0 ≤ e ≤ 365 ∧ (e = 365 → leapyear = true))
    by (destruct leapyear; lia).
  split.
  { destruct leapyear; [destruct (Hleap eq_refl)|]; lia. }
  destruct (decide (e = 365)) as [->|Hne].
  - (* the last day of a leap year *)
    destruct He as [_ He]. destruct (Hleap (He eq_refl)) as [-> Hcb].
    destruct Hlast as [|[-> ->]]; [lia|].
    destruct (decide (c = 24)) as [->|Hc].
    + assert (b = 3) as -> by (destruct Hcb; [done|lia]).
      replace (146097 * a + 36524 * 3 + 1461 * 24 + 365 * 3 + 365 + 1)
        with (146097 * a + 36524 * 4 + 1461 * 0 + 365 * 0 + 0 + 1) by lia.
      rewrite ord2ymd_digits by lia. cbn [Z.eqb orb]. cbv zeta. f_equal. f_equal. lia.
    + replace (146097 * a + 36524 * b + 1461 * c + 365 * 3 + 365 + 1)
        with (146097 * a + 36524 * b + 1461 * c + 365 * 4 + 0 + 1) by lia.
      rewrite ord2ymd_digits by lia. cbn [Z.eqb orb]. cbv zeta. f_equal. f_equal. lia.
  - rewrite ord2ymd_digits by lia. cbv zeta.
    destruct (Z.eqb_spec f 4); [lia|]. destruct (Z.eqb_spec b 4); [lia|].
    cbn [orb]. fold leapyear. rewrite Hmd. f_equal. f_equal. lia.
Qed.

(** ** [datetime] arithmetic *)

Lemma valid_time_iff hh mm ss us :
  valid_time hh mm ss us = true ↔
  0 ≤ hh ≤ 23 ∧ 0 ≤ mm ≤ 59 ∧ 0 ≤ ss ≤ 59 ∧ 0 ≤ us ≤ 999999.
Proof. unfold valid_time. rewrite !andb_true_iff, !Z.leb_le. lia. Qed.

Lemma valid_datetime_iff d :
  valid_datetime d = true ↔
  Calendar.valid_date (year d) (month d) (day d) = true
  ∧ 0 ≤ hour d ≤ 23 ∧ 0 ≤ minute d ≤ 59 ∧ 0 ≤ second d ≤ 59
  ∧ 0 ≤ microsecond d ≤ 999999.
Proof. unfold valid_datetime. rewrite andb_true_iff, valid_time_iff. tauto. Qed.

(** The time of day of a valid [datetime] is less than a day, so its ordinal
    is the day count of [total_us]. *)
Lemma total_us_split d :
  valid_datetime d = true →
  ∃ t, total_us d = toordinal d * US_PER_DAY + t ∧ 0 ≤ t < US_PER_DAY
    ∧ t = ((hour d * 3600 + minute d * 60 + second d) * US_PER_SECOND + microsecond d).
Proof.
  intros (_ & Hh & Hm & Hs & Hu)%valid_datetime_iff.
  eexists; split; [|split; [|reflexivity]].
  - unfold total_us, timedelta_new. lia.
  - unfold US_PER_DAY, US_PER_SECOND. lia.
Qed.

Lemma total_us_range d :
  valid_datetime d = true →
  US_PER_DAY ≤ total_us d < (Calendar._MAXORDINAL + 1) * US_PER_DAY.
Proof.
  intros Hv. destruct (total_us_split d Hv) as (t & -> & Ht & _).
  apply valid_datetime_iff in Hv as [Hd _].
  apply ymd2ord_spec in Hd as [Hr _]. unfold toordinal.
  unfold US_PER_DAY, US_PER_SECOND in *. lia.
Qed.

(** Adding a [timedelta] moves [total_us] by that amount, as long as the sum
    stays inside the supported range of dates. *)
Lemma datetime_add_spec d other :
  valid_datetime d = true →
  US_PER_DAY ≤ total_us d + other < (Calendar._MAXORDINAL + 1) * US_PER_DAY →
  ∃ d', datetime_add d other = Return d'
    ∧ valid_datetime d' = true
    ∧ total_us d' = total_us d + other
    ∧ dt_tzinfo d' = dt_tzinfo d.
Proof.
  intros Hv Hr. unfold datetime_add. fold (total_us d).
  set (x := total_us d + other) in *.
  assert (Hdays : 1 ≤ td_days x ≤ Calendar._MAXORDINAL).
  { unfold td_days. split.
    - apply Z.div_le_lower_bound; unfold US_PER_DAY, US_PER_SECOND in *; lia.
    - apply Z.lt_succ_r, Z.div_lt_upper_bound;
        unfold US_PER_DAY, US_PER_SECOND in *; lia. }
  destruct (Z.ltb_spec 0 (td_days x)); [|lia].
  destruct (Z.leb_spec (td_days x) Calendar._MAXORDINAL); [|lia].
  cbn [andb].
  destruct (ord2ymd_spec _ Hdays) as (y & m & dd & -> & Hvd & Hord).
  eexists. split; [reflexivity|].
  assert (Hsec : 0 ≤ td_seconds x < 86400).
  { unfold td_seconds, US_PER_DAY, US_PER_SECOND.
    pose proof (Z.mod_pos_bound x (86400 * 1000000)).
    split; [apply Z.div_pos; lia|apply Z.div_lt_upper_bound; lia]. }
  assert (Hus : 0 ≤ td_microseconds x < 1000000).
  { unfold td_microseconds, US_PER_SECOND. apply Z.mod_pos_bound. lia. }
  pose proof (Z.div_mod (td_seconds x) 3600) as E1.
  pose proof (Z.mod_pos_bound (td_seconds x) 3600) as B1.
  pose proof (Z.div_mod (td_seconds x mod 3600) 60) as E2.
  pose proof (Z.mod_pos_bound (td_seconds x mod 3600) 60) as B2.
  assert (Hhh : 0 ≤ td_seconds x / 3600 ≤ 23).
  { split; [apply Z.div_pos; lia|].
    apply Z.lt_succ_r, Z.div_lt_upper_bound; lia. }
  assert (Hmm : 0 ≤ td_seconds x mod 3600 / 60 ≤ 59).
  { split; [apply Z.div_pos; lia|].
    apply Z.lt_succ_r, Z.div_lt_upper_bound; lia. }
  split; [|split; [|reflexivity]].
  - apply valid_datetime_iff. cbn. split; [done|]. lia.
  - unfold total_us, toordinal, timedelta_new. cbn. rewrite Hord.
    pose proof (Z.div_mod x US_PER_DAY) as E3.
    pose proof (Z.div_mod (x mod US_PER_DAY) US_PER_SECOND) as E4.
    pose proof (Z.mod_mod_divide x US_PER_DAY US_PER_SECOND) as E5.
    unfold td_days, td_seconds, td_microseconds in *.
    rewrite E5 in E4 by (exists 86400; reflexivity).
    unfold US_PER_DAY, US_PER_SECOND in *. lia.
Qed.

(** Outside that range the addition overflows. *)
Lemma datetime_add_overflow d other :
  ¬ (US_PER_DAY ≤ total_us d + other < (Calendar._MAXORDINAL + 1) * US_PER_DAY) →
  datetime_add d other = Raise (OverflowError "date value out of range").
Proof.
  intros Hr. unfold datetime_add. fold (total_us d).
  set (x := total_us d + other) in *.
  destruct (Z.ltb_spec 0 (td_days x)) as [Hlo|]; [|done].
  destruct (Z.leb_spec (td_days x) Calendar._MAXORDINAL) as [Hhi|]; [|done].
  exfalso. apply Hr. unfold td_days in *.
  pose proof (Z.div_mod x US_PER_DAY) as E.
  pose proof (Z.mod_pos_bound x US_PER_DAY) as B.
  unfold US_PER_DAY, US_PER_SECOND, Calendar._MAXORDINAL in *. lia.
Qed.

(** A valid [datetime] is determined by [total_us] and its [tzinfo]. *)
Lemma total_us_inj d1 d2 :
  valid_datetime d1 = true → valid_datetime d2 = true →
  total_us d1 = total_us d2 → dt_tzinfo d1 = dt_tzinfo d2 → d1 = d2.
Proof.
  intros Hv1 Hv2 Hus Htz.
  destruct (total_us_split d1 Hv1) as (t1 & E1 & B1 & T1).
  destruct (total_us_split d2 Hv2) as (t2 & E2 & B2 & T2).
  apply valid_datetime_iff in Hv1 as (Hd1 & ? & ? & ? & ?).
  apply valid_datetime_iff in Hv2 as (Hd2 & ? & ? & ? & ?).
  assert (Hord : toordinal d1 = toordinal d2 ∧ t1 = t2).
  { unfold US_PER_DAY, US_PER_SECOND in *. lia. }
  destruct Hord as [Hord Ht].
  apply ymd2ord_spec in Hd1 as [_ I1]. apply ymd2ord_spec in Hd2 as [_ I2].
  unfold toordinal in Hord. rewrite Hord in I1. rewrite I1 in I2.
  destruct d1 as [y1 m1 dd1 h1 mi1 s1 u1 tz1], d2 as [y2 m2 dd2 h2 mi2 s2 u2 tz2].
  cbn in *. simplify_eq.
  assert (h1 = h2 ∧ mi1 = mi2 ∧ s1 = s2 ∧ u1 = u2) as (-> & -> & -> & ->)
    by (unfold US_PER_SECOND in *; lia).
  reflexivity.
Qed.

(** ** Reading back what [isoformat] writes *)

Lemma digit_cases x : 0 ≤ x ≤ 9 →
  x = 0 ∨ x = 1 ∨ x = 2 ∨ x = 3 ∨ x = 4 ∨ x = 5 ∨ x = 6 ∨ x = 7 ∨ x = 8 ∨ x = 9.
Proof. lia. Qed.

Ltac by_digit_cases H :=
  apply digit_cases in H;
  repeat (destruct H as [H|H]); subst; reflexivity.

Lemma is_digit_digit_char x : 0 ≤ x ≤ 9 → is_digit (digit_char x) = true.
Proof. intros H. by_digit_cases H. Qed.

Lemma digit_val_digit_char x : 0 ≤ x ≤ 9 → digit_val (digit_char x) = x.
Proof. intros H. by_digit_cases H. Qed.

Lemma is_digit_not_sep c c' :
  is_digit c = true → is_digit c' = false → Ascii.eqb c c' = false.
Proof.
  intros H1 H2. destruct (Ascii.eqb_spec c c') as [->|]; [congruence|done].
Qed.

Ltac use_digits :=
  repeat match goal with
  | H : is_digit ?c = true |- context [is_digit ?c] => rewrite H
  | H : is_digit ?c = true |- context [Ascii.eqb ?c ?c'] =>
    rewrite (is_digit_not_sep c c' H eq_refl)
  end.

Lemma int_of_2 a b :
  is_digit a = true → is_digit b = true →
  int_of (String a (String b "")) = Return (val2 a b).
Proof. intros Ha Hb. unfold int_of. cbn [parse_digits]. by rewrite Ha, Hb. Qed.

Lemma int_of_4 a b c d :
  is_digit a = true → is_digit b = true → is_digit c = true → is_digit d = true →
  int_of (String a (String b (String c (String d "")))) = Return (val4 a b c d).
Proof.
  intros Ha Hb Hc Hd. unfold int_of. cbn [parse_digits]. by rewrite Ha, Hb, Hc, Hd.
Qed.

Lemma int_of_6 a b c d e f :
  is_digit a = true → is_digit b = true → is_digit c = true →
  is_digit d = true → is_digit e = true → is_digit f = true →
  int_of (String a (String b (String c (String d (String e (String f ""))))))
  = Return (val6 a b c d e f).
Proof.
  intros Ha Hb Hc Hd He Hf. unfold int_of. cbn [parse_digits].
  by rewrite Ha, Hb, Hc, Hd, He, Hf.
Qed.

Ltac step :=
  cbn [mbind result_bind mret result_ret fmap option_fmap option_map
       substring drop_prefix String.length find
       Nat.eqb Nat.ltb Nat.leb negb orb andb nth
       _parse_hh_mm_ss];
  rewrite ?Ascii.eqb_refl;
  rewrite ?int_of_2, ?int_of_4, ?int_of_6 by assumption;
  use_digits.

Ltac split_digits :=
  repeat match goal with
  | H : Forall _ (_ :: _) |- _ => apply Forall_cons in H as [? H]
  end.

Lemma parse_hh_mm_ss_ff_seconds c1 c2 c3 c4 c5 c6 :
  Forall (fun c => is_digit c = true) [c1;c2;c3;c4;c5;c6] →
  _parse_hh_mm_ss_ff
    (String c1 (String c2 (String ":" (String c3 (String c4 (String ":"
      (String c5 (String c6 ""))))))))
  = Return (val2 c1 c2, val2 c3 c4, val2 c5 c6, 0).
Proof.
  intros HF. split_digits.
  unfold _parse_hh_mm_ss_ff. repeat step. reflexivity.
Qed.

Lemma parse_hh_mm_ss_ff_micro c1 c2 c3 c4 c5 c6 f1 f2 f3 f4 f5 f6 :
  Forall (fun c => is_digit c = true) [c1;c2;c3;c4;c5;c6;f1;f2;f3;f4;f5;f6] →
  _parse_hh_mm_ss_ff
    (String c1 (String c2 (String ":" (String c3 (String c4 (String ":"
      (String c5 (String c6 (String "." (String f1 (String f2 (String f3
        (String f4 (String f5 (String f6 "")))))))))))))))
  = Return (val2 c1 c2, val2 c3 c4, val2 c5 c6, val6 f1 f2 f3 f4 f5 f6).
Proof.
  intros HF. split_digits.
  unfold _parse_hh_mm_ss_ff. repeat step. reflexivity.
Qed.

Ltac solve_find :=
  repeat match goal with
  | |- context [find ?c ?s] =>
    let r := fresh in
    let E := fresh in
    evar (r : option nat);
    assert (find c s = r) as E
      by (cbn [find]; use_digits; cbn; subst r; reflexivity);
    subst r; rewrite E; clear E
  end.

Lemma parse_isoformat_time_seconds_utc c1 c2 c3 c4 c5 c6 :
  Forall (fun c => is_digit c = true) [c1;c2;c3;c4;c5;c6] →
  _parse_isoformat_time
    (String c1 (String c2 (String ":" (String c3 (String c4 (String ":"
      (String c5 (String c6 "+00:00"))))))))
  = Return (val2 c1 c2, val2 c3 c4, val2 c5 c6, 0, Some timezone_utc).
Proof.
  intros HF. pose proof (parse_hh_mm_ss_ff_seconds _ _ _ _ _ _ HF) as Hp.
  split_digits. unfold _parse_isoformat_time.
  solve_find.
  cbn [String.length Nat.ltb Nat.leb substring drop_prefix].
  rewrite Hp. reflexivity.
Qed.

Lemma parse_isoformat_time_micro_utc c1 c2 c3 c4 c5 c6 f1 f2 f3 f4 f5 f6 :
  Forall (fun c => is_digit c = true) [c1;c2;c3;c4;c5;c6;f1;f2;f3;f4;f5;f6] →
  _parse_isoformat_time
    (String c1 (String c2 (String ":" (String c3 (String c4 (String ":"
      (String c5 (String c6 (String "." (String f1 (String f2 (String f3
        (String f4 (String f5 (String f6 "+00:00")))))))))))))))
  = Return (val2 c1 c2, val2 c3 c4, val2 c5 c6, val6 f1 f2 f3 f4 f5 f6,
            Some timezone_utc).
Proof.
  intros HF. pose proof (parse_hh_mm_ss_ff_micro _ _ _ _ _ _ _ _ _ _ _ _ HF) as Hp.
  split_digits. unfold _parse_isoformat_time.
  solve_find.
  cbn [String.length Nat.ltb Nat.leb substring drop_prefix].
  rewrite Hp. reflexivity.
Qed.

Lemma parse_isoformat_time_seconds_naive c1 c2 c3 c4 c5 c6 :
  Forall (fun c => is_digit c = true) [c1;c2;c3;c4;c5;c6] →
  _parse_isoformat_time
    (String c1 (String c2 (String ":" (String c3 (String c4 (String ":"
      (String c5 (String c6 ""))))))))
  = Return (val2 c1 c2, val2 c3 c4, val2 c5 c6, 0, None).
Proof.
  intros HF. pose proof (parse_hh_mm_ss_ff_seconds _ _ _ _ _ _ HF) as Hp.
  split_digits. unfold _parse_isoformat_time.
  solve_find.
  cbn [String.length Nat.ltb Nat.leb substring drop_prefix].
  rewrite Hp. reflexivity.
Qed.

Lemma fromisoformat_date_time y1 y2 y3 y4 m1 m2 d1 d2 sep tstr :
  Forall (fun c => is_digit c = true) [y1;y2;y3;y4;m1;m2;d1;d2] →
  tstr ≠ "" →
  fromisoformat
    (String y1 (String y2 (String y3 (String y4 (String "-" (String m1 (String m2
      (String "-" (String d1 (String d2 (String sep tstr)))))))))))
  = '(hh, mm, ss, us, tz) ← _parse_isoformat_time tstr;
    datetime_new (val4 y1 y2 y3 y4) (val2 m1 m2) (val2 d1 d2) hh mm ss us tz.
Proof.
  intros HF Hne. split_digits.
  unfold fromisoformat, _parse_isoformat_date.
  cbn [substring String.length Nat.eqb negb drop_prefix].
  rewrite int_of_4, !int_of_2 by assumption.
  destruct tstr as [|c tstr]; [done|]. reflexivity.
Qed.

Lemma fmt_d_2 n acc :
  fmt_d 2 n acc = String (digit_char (n / 10 mod 10)) (String (digit_char (n mod 10)) acc).
Proof. reflexivity. Qed.

Lemma fmt_d_4 n acc :
  fmt_d 4 n acc =
  String (digit_char (n / 10 / 10 / 10 mod 10)) (String (digit_char (n / 10 / 10 mod 10))
    (String (digit_char (n / 10 mod 10)) (String (digit_char (n mod 10)) acc))).
Proof. reflexivity. Qed.

Lemma fmt_d_6 n acc :
  fmt_d 6 n acc =
  String (digit_char (n / 10 / 10 / 10 / 10 / 10 mod 10))
    (String (digit_char (n / 10 / 10 / 10 / 10 mod 10))
      (String (digit_char (n / 10 / 10 / 10 mod 10))
        (String (digit_char (n / 10 / 10 mod 10))
          (String (digit_char (n / 10 mod 10)) (String (digit_char (n mod 10)) acc))))).
Proof. reflexivity. Qed.

Lemma is_digit_mod10 n : is_digit (digit_char (n mod 10)) = true.
Proof. apply is_digit_digit_char. pose proof (Z.mod_pos_bound n 10). lia. Qed.

Lemma digit_val_mod10 n : digit_val (digit_char (n mod 10)) = n mod 10.
Proof. apply digit_val_digit_char. pose proof (Z.mod_pos_bound n 10). lia. Qed.

Lemma val2_digits n :
  0 ≤ n ≤ 99 → val2 (digit_char (n / 10 mod 10)) (digit_char (n mod 10)) = n.
Proof.
  intros Hn. unfold val2. rewrite !digit_val_mod10.
  rewrite (Z.mod_small (n / 10)).
  - pose proof (Z.div_mod n 10). lia.
  - split; [apply Z.div_pos; lia|apply Z.div_lt_upper_bound; lia].
Qed.

Lemma val4_digits n :
  0 ≤ n ≤ 9999 →
  val4 (digit_char (n / 10 / 10 / 10 mod 10)) (digit_char (n / 10 / 10 mod 10))
       (digit_char (n / 10 mod 10)) (digit_char (n mod 10)) = n.
Proof.
  intros Hn. unfold val4. rewrite !digit_val_mod10.
  rewrite (Z.mod_small (n / 10 / 10 / 10)).
  - pose proof (Z.div_mod n 10). pose proof (Z.div_mod (n / 10) 10).
    pose proof (Z.div_mod (n / 10 / 10) 10). lia.
  - rewrite !Z.div_div by lia.
    split; [apply Z.div_pos; lia|apply Z.div_lt_upper_bound; lia].
Qed.

Lemma val6_digits n :
  0 ≤ n ≤ 999999 →
  val6 (digit_char (n / 10 / 10 / 10 / 10 / 10 mod 10))
       (digit_char (n / 10 / 10 / 10 / 10 mod 10))
       (digit_char (n / 10 / 10 / 10 mod 10)) (digit_char (n / 10 / 10 mod 10))
       (digit_char (n / 10 mod 10)) (digit_char (n mod 10)) = n.
Proof.
  intros Hn. unfold val6. rewrite !digit_val_mod10.
  rewrite (Z.mod_small (n / 10 / 10 / 10 / 10 / 10)).
  - pose proof (Z.div_mod n 10). pose proof (Z.div_mod (n / 10) 10).
    pose proof (Z.div_mod (n / 10 / 10) 10).
    pose proof (Z.div_mod (n / 10 / 10 / 10) 10).
    pose proof (Z.div_mod (n / 10 / 10 / 10 / 10) 10). lia.
  - rewrite !Z.div_div by lia.
    split; [apply Z.div_pos; lia|apply Z.div_lt_upper_bound; lia].
Qed.

Ltac digits_ok := repeat (apply Forall_cons; split; [apply is_digit_mod10|]); apply Forall_nil_2.

Lemma valid_date_year y m d : Calendar.valid_date y m d = true → 1 ≤ y ≤ 9999 ∧ 1 ≤ m ≤ 12 ∧ 1 ≤ d ≤ 31.
Proof.
  unfold Calendar.valid_date, Calendar.MINYEAR, Calendar.MAXYEAR. intros Hval.
  repeat (apply andb_true_iff in Hval as [Hval ?]).
  repeat match goal with H : (_ <=? _) = true |- _ => apply Z.leb_le in H end.
  assert (d ≤ 31); [|lia].
  unfold Calendar._days_in_month, Calendar._DAYS_IN_MONTH in *.
  repeat match goal with
  | H : context [if ?b then _ else _] |- _ => destruct b
  | H : context [match ?x with _ => _ end] |- _ => destruct x
  end; lia.
Qed.

Lemma datetime_new_valid d :
  valid_datetime d = true →
  datetime_new (year d) (month d) (day d) (hour d) (minute d) (second d)
               (microsecond d) (dt_tzinfo d) = Return d.
Proof.
  unfold valid_datetime, datetime_new. intros [-> ->]%andb_true_iff.
  by destruct d.
Qed.

(** The text [isoformat()] writes for a UTC instant reads back as that
    instant. *)
Lemma fromisoformat_isoformat_utc u :
  valid_datetime u = true → dt_tzinfo u = Some timezone_utc →
  fromisoformat (isoformat u timespec_auto) = Return u.
Proof.
  intros Hv Htz. rewrite <- (datetime_new_valid u Hv).
  apply valid_datetime_iff in Hv as (Hd & Hh & Hm & Hs & Hu).
  apply valid_date_year in Hd as (Hy & Hmo & Hdd).
  unfold isoformat, _format_time. rewrite Htz.
  change (_format_offset (utcoffset <$> Some timezone_utc)) with "+00:00".
  destruct (Z.eqb_spec (microsecond u) 0) as [Hz|Hnz].
  - rewrite fmt_d_4, !fmt_d_2.
    rewrite fromisoformat_date_time by (done || digits_ok).
    rewrite parse_isoformat_time_seconds_utc by digits_ok.
    cbn [mbind result_bind]. rewrite val4_digits, !val2_digits by lia.
    by rewrite Hz.
  - rewrite fmt_d_4, !fmt_d_2, fmt_d_6.
    rewrite fromisoformat_date_time by (done || digits_ok).
    rewrite parse_isoformat_time_micro_utc by digits_ok.
    cbn [mbind result_bind]. rewrite val4_digits, !val2_digits, val6_digits by lia.
    reflexivity.
Qed.

(** The display form [YYYY-MM-DDTHH:MM:SS] of a naive [datetime] with no
    sub-second part reads back as that [datetime]. *)
Lemma fromisoformat_isoformat_seconds d :
  valid_datetime d = true → dt_tzinfo d = None → microsecond d = 0 →
  fromisoformat (isoformat d timespec_seconds) = Return d.
Proof.
  intros Hv Htz Hus. rewrite <- (datetime_new_valid d Hv).
  apply valid_datetime_iff in Hv as (Hd & Hh & Hm & Hs & Hu).
  apply valid_date_year in Hd as (Hy & Hmo & Hdd).
  unfold isoformat, _format_time. rewrite Htz.
  change (_format_offset (utcoffset <$> None)) with "".
  rewrite fmt_d_4, !fmt_d_2.
  rewrite fromisoformat_date_time by (done || digits_ok).
  rewrite parse_isoformat_time_seconds_naive by digits_ok.
  cbn [mbind result_bind]. rewrite val4_digits, !val2_digits by lia.
  by rewrite Hus.
Qed.

(** What [fromisoformat] returns was accepted by the constructor. *)
Lemma datetime_new_Return y m d hh mm ss us tz r :
  datetime_new y m d hh mm ss us tz = Return r →
  valid_datetime r = true ∧ dt_tzinfo r = tz.
Proof.
  unfold datetime_new, valid_datetime.
  destruct (Calendar.valid_date y m d) eqn:E1; [|done].
  destruct (valid_time hh mm ss us) eqn:E2; [|done].
  cbn. intros [= <-]. cbn. by rewrite E1, E2.
Qed.

Lemma fromisoformat_valid s d :
  fromisoformat s = Return d → valid_datetime d = true.
Proof.
  unfold fromisoformat.
  destruct (_parse_isoformat_date _) as [[[y m] dd]|]; [|done]. cbn.
  destruct (String.length s <=? 10)%nat.
  - by intros [? _]%datetime_new_Return.
  - destruct (_parse_isoformat_time _) as [[[[[hh mm] ss] us] tz]|]; [|done]. cbn.
    by intros [? _]%datetime_new_Return.
Qed.

(** ** Time Translator *)

Lemma replace_tzinfo_valid d tz :
  valid_datetime (replace_tzinfo d tz) = valid_datetime d.
Proof. reflexivity. Qed.

Lemma replace_tzinfo_total_us d tz : total_us (replace_tzinfo d tz) = total_us d.
Proof. reflexivity. Qed.

(** [astimezone] between two distinct zone objects keeps the instant: the
    wall-clock reading moves by the difference of the offsets. *)
Lemma astimezone_spec d mytz tz :
  valid_datetime d = true → dt_tzinfo d = Some mytz → tz_is tz mytz = false →
  US_PER_DAY ≤ total_us d - utcoffset mytz < (Calendar._MAXORDINAL + 1) * US_PER_DAY →
  US_PER_DAY ≤ total_us d - utcoffset mytz + utcoffset tz
    < (Calendar._MAXORDINAL + 1) * US_PER_DAY →
  ∃ d', astimezone d tz = Return d'
    ∧ valid_datetime d' = true
    ∧ total_us d' = total_us d - utcoffset mytz + utcoffset tz
    ∧ dt_tzinfo d' = Some tz.
Proof.
  intros Hv Htz Hne Hr1 Hr2. unfold astimezone, datetime_sub. rewrite Htz, Hne.
  destruct (datetime_add_spec d (- utcoffset mytz) Hv) as (u & -> & Hvu & Hu & _);
    [lia|].
  cbn [mbind result_bind].
  destruct (datetime_add_spec (replace_tzinfo u (Some tz)) (utcoffset tz))
    as (d' & -> & Hvd & Hd & Htz');
    [by rewrite replace_tzinfo_valid|rewrite replace_tzinfo_total_us; lia|].
  exists d'. rewrite replace_tzinfo_total_us in Hd. split_and!; [done|done|lia|done].
Qed.

Lemma isoformat_seconds_microsecond d us :
  isoformat (replace_microsecond d us) timespec_seconds = isoformat d timespec_seconds.
Proof. reflexivity. Qed.

(** The UTC instant of a local reading: three hours earlier, provided that is
    still a date. *)
Lemma moscow_time_to_utc_dt_spec t d :
  fromisoformat t = Return d →
  US_PER_DAY + utcoffset MOSCOW_TZ ≤ total_us d →
  ∃ u, moscow_time_to_utc_dt t = Return u
    ∧ valid_datetime u = true
    ∧ total_us u = total_us d - utcoffset MOSCOW_TZ
    ∧ dt_tzinfo u = Some timezone_utc.
Proof.
  intros Hp Hlo. pose proof (fromisoformat_valid _ _ Hp) as Hv.
  pose proof (total_us_range d Hv) as Hr.
  unfold moscow_time_to_utc_dt. rewrite Hp. cbn [mbind result_bind].
  destruct (astimezone_spec (replace_tzinfo d (Some MOSCOW_TZ)) MOSCOW_TZ timezone_utc)
    as (u & -> & Hvu & Hu & Htz); try done.
  - rewrite replace_tzinfo_total_us.
    change (utcoffset MOSCOW_TZ) with 10800000000 in *. lia.
  - rewrite replace_tzinfo_total_us.
    change (utcoffset MOSCOW_TZ) with 10800000000 in *.
    change (utcoffset timezone_utc) with 0. lia.
  - exists u. rewrite replace_tzinfo_total_us in Hu.
    change (utcoffset timezone_utc) with 0 in Hu. split_and!; [done|done|lia|done].
Qed.

(** Rendering a UTC instant gives the display form of the local reading
    three hours later. *)
Lemma iso_seconds_moscow_spec u d :
  valid_datetime u = true → dt_tzinfo u = Some timezone_utc →
  valid_datetime d = true → dt_tzinfo d = None →
  total_us d = total_us u + utcoffset MOSCOW_TZ →
  iso_seconds_moscow (Some u) = Return (Some (isoformat d timespec_seconds)).
Proof.
  intros Hvu Htzu Hvd Htzd Hus. unfold iso_seconds_moscow. rewrite Htzu.
  pose proof (total_us_range u Hvu) as Hru. pose proof (total_us_range d Hvd) as Hrd.
  destruct (astimezone_spec u timezone_utc MOSCOW_TZ) as (m & -> & Hvm & Hm & Htzm);
    try done.
  - change (utcoffset timezone_utc) with 0. lia.
  - change (utcoffset timezone_utc) with 0. lia.
  - cbn [mbind result_bind]. do 2 f_equal.
    change (utcoffset timezone_utc) with 0 in Hm.
    assert (m = replace_tzinfo d (Some MOSCOW_TZ)) as ->.
    { apply total_us_inj; try done. rewrite replace_tzinfo_total_us. lia. }
    destruct d as [y mo dd hh mi ss us tz]. cbn in Htzd. subst tz. reflexivity.
Qed.

(** A bound and back, for any text that reads as a naive local [datetime]
    whose UTC instant exists: the display form of that [datetime]. *)
Lemma display_of_range_bound_parsed t d :
  fromisoformat t = Return d → dt_tzinfo d = None →
  US_PER_DAY + utcoffset MOSCOW_TZ ≤ total_us d →
  display_of_range_bound t = Return (Some (isoformat d timespec_seconds)).
Proof.
  intros Hp Htz Hlo. pose proof (fromisoformat_valid _ _ Hp) as Hv.
  destruct (moscow_time_to_utc_dt_spec t d Hp Hlo) as (u & Hu & Hvu & Hus & Htzu).
  unfold display_of_range_bound, parse_moscow_time_to_utc. rewrite Hu.
  cbn [mbind result_bind try_except_ValueError].
  rewrite (fromisoformat_isoformat_utc u Hvu Htzu). cbn [mbind result_bind].
  apply iso_seconds_moscow_spec; try done. lia.
Qed.

(** C1 (as amended): for every display timestamp [t], that is the text
    [YYYY-MM-DDTHH:MM:SS] of a naive local datetime with zero sub-second
    component, at or after 0001-01-01T03:00:00, converting [t] to a UTC range
    bound and rendering that instant back reproduces [t] exactly. *)
Theorem display_of_range_bound_roundtrip (d : datetime) :
  valid_datetime d = true → dt_tzinfo d = None → microsecond d = 0 →
  ((year d, month d, day d) = (1, 1, 1) → 3 ≤ hour d) →
  let t := isoformat d timespec_seconds in
  fromisoformat t = Return d ∧ display_of_range_bound t = Return (Some t).
Proof.
  intros Hv Htz Hus Hearly t.
  pose proof (fromisoformat_isoformat_seconds d Hv Htz Hus) as Hp. fold t in Hp.
  split; [done|]. apply display_of_range_bound_parsed; try done.
  destruct (total_us_split d Hv) as (x & -> & Hx & Hxeq).
  pose proof Hv as (Hd & Hh & Hm & Hs & Hu)%valid_datetime_iff.
  pose proof (ymd2ord_spec _ _ _ Hd) as [Hr Hinv]. fold (toordinal d) in Hr, Hinv.
  change (utcoffset MOSCOW_TZ) with 10800000000.
  destruct (decide (toordinal d = 1)) as [H1|H1].
  - rewrite H1 in Hinv. change (Calendar._ord2ymd 1) with (1, 1, 1) in Hinv.
    symmetry in Hinv. specialize (Hearly Hinv).
    unfold US_PER_DAY, US_PER_SECOND in *. lia.
  - unfold US_PER_DAY, US_PER_SECOND in *. lia.
Qed.

Lemma display_of_range_bound_roundtrip_witness :
  display_of_range_bound "2024-02-29T01:30:15" = Return (Some "2024-02-29T01:30:15").
Proof.
  refine (proj2 (display_of_range_bound_roundtrip display_time_example _ _ _ _)).
  - reflexivity.
  - reflexivity.
  - reflexivity.
  - intros H. discriminate H.
Defined.

(** C1 (as stated) fails: a text with a space separator reads as a naive
    local datetime with zero sub-second component but comes back with a [T];
    so does a date without a time; and the first three hours of year 1 have
    no UTC instant, so the conversion raises [OverflowError]. *)
Lemma display_of_range_bound_not_identity :
  fromisoformat "2024-01-01 10:00:00" = Return (mk_datetime 2024 1 1 10 0 0 0 None)
  ∧ display_of_range_bound "2024-01-01 10:00:00" = Return (Some "2024-01-01T10:00:00")
  ∧ fromisoformat "2024-01-01" = Return (mk_datetime 2024 1 1 0 0 0 0 None)
  ∧ display_of_range_bound "2024-01-01" = Return (Some "2024-01-01T00:00:00")
  ∧ fromisoformat "0001-01-01T00:00:00" = Return (mk_datetime 1 1 1 0 0 0 0 None)
  ∧ parse_moscow_time_to_utc "0001-01-01T00:00:00"
    = Raise (OverflowError "date value out of range")
  ∧ display_of_range_bound "0001-01-01T00:00:00"
    = Raise (OverflowError "date value out of range").
Proof. vm_compute. repeat split. Qed.

(** A text that does not read as a datetime is passed through unchanged. *)
Lemma parse_moscow_time_to_utc_passthrough time_str msg :
  fromisoformat time_str = Raise (ValueError msg) →
  parse_moscow_time_to_utc time_str = Return time_str.
Proof.
  intros Hp. unfold parse_moscow_time_to_utc, moscow_time_to_utc_dt.
  by rewrite Hp.
Qed.

(** C2: a text that carries an explicit offset reads without error, its
    offset is overwritten with the Moscow one, and the returned bound differs
    from the input (here 10:00 UTC becomes 07:00 UTC). *)
Theorem parse_moscow_time_to_utc_overwrites_offset :
  fromisoformat "2024-01-01T10:00:00+00:00"
    = Return (mk_datetime 2024 1 1 10 0 0 0 (Some timezone_utc))
  ∧ parse_moscow_time_to_utc "2024-01-01T10:00:00+00:00"
    = Return "2024-01-01T07:00:00+00:00"
  ∧ parse_moscow_time_to_utc "2024-01-01T10:00:00+05:00"
    = Return "2024-01-01T07:00:00+00:00".
Proof. vm_compute. repeat split. Qed.

(** ** Access Gate *)

Lemma truthy_Some s : truthy (Some s) = true ↔ s ≠ "".
Proof.
  cbn. destruct (String.eqb_spec s ""); cbn; split; intros; congruence.
Qed.

(** The [or] chain of [verify_token] picks the first source that is present
    and not empty. *)
Lemma provided_first_nonempty tq th cred tc secret :
  secret ≠ "" →
  py_or tq (py_or th (py_or cred tc)) = Some secret
  ↔ first_nonempty [tq; th; cred; tc] = Some secret.
Proof.
  intros Hs. unfold py_or. cbn [first_nonempty].
  destruct tq as [q|]; cbn [truthy]; [destruct (String.eqb q ""); cbn [negb]|]; try done;
  (destruct th as [h|]; cbn [truthy]; [destruct (String.eqb h ""); cbn [negb]|]; try done);
  (destruct cred as [c|]; cbn [truthy]; [destruct (String.eqb c ""); cbn [negb]|]; try done);
  (destruct tc as [k|]; [destruct (String.eqb_spec k ""); subst|]; try done);
  split; intros; simplify_eq.
Qed.

(** C6 (as amended): access is granted exactly when a non-empty secret is
    configured and the first source that is present and not empty, in the
    order query parameter, custom header, bearer credentials, cookie, equals
    it; every other request gets the unauthorized failure. *)
Theorem verify_token_first_source env token_q token_h bearer token_cookie :
  let sources := [token_q; token_h; credentials <$> bearer; token_cookie] in
  (verify_token env token_q token_h bearer token_cookie = inr true
   ↔ ∃ secret, secret ≠ "" ∧ API_TOKEN env = Some secret
       ∧ first_nonempty sources = Some secret)
  ∧ (verify_token env token_q token_h bearer token_cookie = inr true
     ∨ verify_token env token_q token_h bearer token_cookie
       = inl (HTTP_401_UNAUTHORIZED "Missing or invalid API token")).
Proof.
  intros sources. unfold verify_token.
  change (match bearer with Some b => Some (credentials b) | None => None end)
    with (credentials <$> bearer).
  set (provided := py_or _ _).
  destruct (API_TOKEN env) as [secret|] eqn:Htok; cbn [truthy].
  - destruct (String.eqb_spec secret "") as [->|Hne]; cbn [negb orb].
    + split; [|by right]. split; [done|]. intros (s & Hs & [= <-] & _). done.
    + destruct (bool_decide_reflect (provided = Some secret)) as [Hp|Hp]; cbn [negb].
      * split; [|by left]. split; [|done]. intros _. exists secret.
        split_and!; [done|done|]. by apply provided_first_nonempty.
      * split; [|by right]. split; [done|]. intros (s & Hs & [= <-] & Hf).
        by apply provided_first_nonempty in Hf.
  - cbn [negb orb]. split; [|by right]. split; [done|]. by intros (s & _ & ? & _).
Qed.

(** C6 (as stated) fails: the custom header carries the configured secret,
    but the stale query parameter comes first and the request is refused. *)
Lemma verify_token_matching_header_refused :
  API_TOKEN quiet_env = Some "s3cret"
  ∧ verify_token quiet_env (Some "stale") (Some "s3cret") None None
    = inl (HTTP_401_UNAUTHORIZED "Missing or invalid API token").
Proof. split; reflexivity. Qed.

(** ** Cookie middleware *)




(** ** Device Directory *)

Lemma device_ids_filter tables :
  device_ids tables = filter nonempty (deviceid_column tables).
Proof.
  unfold device_ids, deviceid_column.
  induction (all_records tables) as [|r rs IH]; [done|].
  cbn [mbind list_bind omap list_omap]. fold (@mbind list _).
  change (rs ≫= _) with (rs ≫= (λ rec,
    match rec_tags rec !! "deviceid" with
    | Some id => if truthy (Some id) then [id] else []
    | None => []
    end)).
  rewrite IH. destruct (rec_tags r !! "deviceid") as [id|]; [|done].
  rewrite filter_cons. unfold nonempty at 1. cbn [truthy].
  destruct (String.eqb_spec id "") as [->|Hne]; cbn [negb].
  - by rewrite decide_False by (intros H; apply H; reflexivity).
  - by rewrite decide_True.
Qed.

Lemma elem_of_deviceid_column tables id :
  id ∈ deviceid_column tables
  ↔ ∃ r, r ∈ all_records tables ∧ rec_tags r !! "deviceid" = Some id.
Proof. unfold deviceid_column. apply list_elem_of_omap. Qed.

Lemma StronglySorted_filter {A} (R : relation A) (P : A → Prop)
    `{∀ x, Decision (P x)} (l : list A) :
  StronglySorted R l → StronglySorted R (filter P l).
Proof.
  induction 1 as [|x l Hs IH Hall]; [constructor|].
  rewrite filter_cons. destruct (decide (P x)); [|done].
  constructor; [done|].
  rewrite Forall_forall in Hall |- *.
  intros y [_ Hy]%list_elem_of_filter. by apply Hall.
Qed.

Lemma str_lt_irrefl s : ¬ str_lt s s.
Proof. intros [_ Hn]. apply Hn. reflexivity. Qed.

Lemma str_lt_spec s1 s2 :
  str_lt s1 s2 ↔ String.leb s1 s2 && negb (String.leb s2 s1) = true.
Proof.
  unfold str_lt, strict, String.le. rewrite andb_true_iff, negb_true_iff.
  destruct (String.leb s1 s2), (String.leb s2 s1); cbn; intuition congruence.
Qed.

Lemma StronglySorted_str_lt_NoDup l : StronglySorted str_lt l → NoDup l.
Proof.
  induction 1 as [|x l Hs IH Hall]; constructor; [|done].
  intros Hin. rewrite Forall_forall in Hall. by apply (str_lt_irrefl x), Hall.
Qed.

(** A list that is ascending and free of duplicates is strictly ascending. *)
Lemma StronglySorted_le_NoDup l :
  StronglySorted String.le l → NoDup l → StronglySorted str_lt l.
Proof.
  induction 1 as [|x l Hs IH Hall]; intros Hnd; [constructor|].
  apply NoDup_cons in Hnd as [Hx Hnd]. constructor; [by apply IH|].
  rewrite Forall_forall in Hall |- *. intros y Hy. split; [by apply Hall|].
  intros Hyx. assert (x = y) as -> by (apply (anti_symm String.le); auto).
  done.
Qed.

(** C7 (as amended): [list_devices] returns the non-empty device ids of the
    store's answer in the order of the answer; the result is strictly
    ascending and duplicate-free whenever the answer's [deviceid] column is,
    which is what the query's [unique] and [sort] stages ask of the store. *)
Theorem list_devices_store_order env tables :
  q_query env (INFLUXORG env) (flux_list_devices env) = Return tables →
  ∃ ids, list_devices env = Return ids
    ∧ ids = filter nonempty (deviceid_column tables)
    ∧ (StronglySorted str_lt (deviceid_column tables) →
       StronglySorted str_lt ids ∧ NoDup ids).
Proof.
  intros Hq. exists (device_ids tables). unfold list_devices. rewrite Hq.
  split; [done|]. split; [apply device_ids_filter|].
  intros Hs. rewrite device_ids_filter.
  assert (StronglySorted str_lt (filter nonempty (deviceid_column tables))) as Hf
    by by apply StronglySorted_filter.
  split; [done|]. by apply StronglySorted_str_lt_NoDup.
Qed.

Lemma list_devices_store_order_witness :
  list_devices sorted_store_env = Return ["attic"; "cellar"]
  ∧ StronglySorted str_lt ["attic"; "cellar"] ∧ NoDup ["attic"; "cellar"].
Proof.
  destruct (list_devices_store_order sorted_store_env
              [mk_FluxTable [id_row "attic"]; mk_FluxTable [id_row "cellar"]] eq_refl)
    as (ids & Hl & -> & Hs).
  split; [exact Hl|]. apply Hs.
  change (StronglySorted str_lt ["attic"; "cellar"]).
  repeat constructor; try (apply str_lt_spec; reflexivity).
Defined.

(** C7 (as stated) fails: the handler neither sorts nor deduplicates, so an
    answer whose tables come in another order, or that lists a device twice,
    is returned as it is. *)
Lemma list_devices_unsorted_answer :
  list_devices unsorted_store_env = Return ["cellar"; "attic"; "attic"]
  ∧ ¬ StronglySorted str_lt ["cellar"; "attic"; "attic"]
  ∧ ¬ NoDup ["cellar"; "attic"; "attic"].
Proof.
  split; [reflexivity|]. split.
  - intros Hs. apply StronglySorted_inv in Hs as [_ Hall].
    apply Forall_cons in Hall as [Hlt _]. apply str_lt_spec in Hlt. discriminate Hlt.
  - intros Hnd. apply NoDup_cons in Hnd as [_ Hnd].
    apply NoDup_cons in Hnd as [Hnin _]. apply Hnin. left.
Qed.

Lemma sorted_Permutation ids : sorted ids ≡ₚ ids.
Proof. apply merge_sort_Permutation. Qed.

Lemma sorted_StronglySorted ids : StronglySorted String.le (sorted ids).
Proof. apply StronglySorted_merge_sort; apply _. Qed.










(** In the example "attic" and "porch" are online; "cellar" went offline and
    "shed" has no status row. *)
Example list_online_latest_online_example :
  list_online evaluating_store_env = Return ["attic"; "porch"].
Proof. vm_compute. reflexivity. Qed.

Example list_online_sorted_example :
  list_online online_store_env = Return ["attic"; "cellar"].
Proof. reflexivity. Qed.


(** ** Presence Resolver *)

(** C9: when the status query and the data query both return no records,
    [device_status] answers [online = false] with both times absent. *)
Theorem device_status_no_samples env deviceid status_tables data_tables :
  q_query env (INFLUXORG env) (flux_status env deviceid) = Return status_tables →
  all_records status_tables = [] →
  q_query env (INFLUXORG env) (flux_last_data env deviceid) = Return data_tables →
  all_records data_tables = [] →
  device_status env deviceid
  = Return {| status_deviceid := deviceid;
              online := false;
              statustime := None;
              lastdatatime := None |}.
Proof.
  intros Hs Hse Hd Hde. unfold device_status.
  rewrite Hs. cbn [mbind result_bind]. rewrite Hse. cbn [foldl].
  rewrite Hd. cbn [mbind result_bind]. rewrite Hde. reflexivity.
Qed.

Lemma device_status_no_samples_witness :
  device_status empty_tables_env "sensor-7"
  = Return {| status_deviceid := "sensor-7";
              online := false;
              statustime := None;
              lastdatatime := None |}.
Proof.
  apply (device_status_no_samples empty_tables_env "sensor-7"
           [mk_FluxTable []] [mk_FluxTable []; mk_FluxTable []]);
    reflexivity.
Defined.

(** ** Telemetry Reader *)

(** Two failures that end in the error body: a [start] with no UTC instant,
    and a record whose time has no Moscow rendering. *)
Example device_data_start_overflow :
  device_data quiet_env "sensor-7" "0001-01-01T00:00:00" None
  = Return {| error := Some "date value out of range";
              data_deviceid := "sensor-7";
              data_start := "0001-01-01T00:00:00";
              data_stop := None;
              points := [] |}.
Proof. reflexivity. Qed.

Example device_data_reshape_overflow :
  device_data late_record_env "sensor-7" "2024-05-01T10:00:00" (Some "2024-05-01T11:00:00")
  = Return {| error := Some "date value out of range";
              data_deviceid := "sensor-7";
              data_start := "2024-05-01T10:00:00";
              data_stop := Some "2024-05-01T11:00:00";
              points := [] |}.
Proof. vm_compute. reflexivity. Qed.

(** ** Device Eraser *)

Lemma predicates_NoDup device_id : NoDup (predicates device_id).
Proof.
  unfold predicates, qt, dq. cbn [String.append].
  repeat constructor; rewrite ?elem_of_cons, ?elem_of_nil; try tauto.
  all: intros H; repeat (destruct H as [H|H]); try done; try discriminate H.
Qed.

(** One round of the loop: the call is made and recorded, and the predicate
    gets its entry, whatever the outcome. *)
Lemma delete_round env pred (deleted : gmap string bool) trace :
  io_try_except
    (call env (delete_call env pred);; mret (<[pred := true]> deleted))
    (mret (<[pred := false]> deleted)) trace
  = (Return (<[pred := succeeded (call_outcome env trace (delete_call env pred))]> deleted),
     trace ++ [delete_call env pred]).
Proof.
  unfold io_try_except, call, mbind, io_bind, mret, io_ret.
  by destruct (call_outcome env trace (delete_call env pred)).
Qed.

(** The loop makes every call of its list, in order, and never raises; it
    leaves the other entries of the dictionary alone. *)
Lemma delete_loop_spec env preds : ∀ (deleted : gmap string bool) trace,
  ∃ deleted' : gmap string bool,
    delete_loop env preds deleted trace
    = (Return deleted', trace ++ (delete_call env <$> preds))
    ∧ dom deleted' = dom deleted ∪ list_to_set preds
    ∧ (∀ key, key ∉ preds → deleted' !! key = deleted !! key)
    ∧ (NoDup preds → ∀ i pred, preds !! i = Some pred →
         deleted' !! pred
         = Some (succeeded (call_outcome env
                   (trace ++ (delete_call env <$> take i preds))
                   (delete_call env pred)))).
Proof.
  induction preds as [|p preds IH]; intros deleted trace.
  - exists deleted. cbn [delete_loop fmap list_fmap list_to_set]. rewrite app_nil_r.
    split; [done|]. split; [by rewrite (right_id_L ∅ (∪))|].
    split; [done|]. intros _ i pred Hi. by rewrite lookup_nil in Hi.
  - cbn [delete_loop]. unfold mbind at 1, io_bind.
    fold (delete_call env p). rewrite delete_round.
    set (b := succeeded _).
    destruct (IH (<[p := b]> deleted) (trace ++ [delete_call env p]))
      as (deleted' & Hrun & Hdom & Hframe & Hval).
    exists deleted'. rewrite Hrun. split_and!.
    + by rewrite fmap_cons, <- app_assoc.
    + rewrite Hdom, dom_insert_L. cbn [list_to_set].
      by rewrite (comm_L (∪) {[p]}), <- (assoc_L (∪)).
    + intros key [Hne Hkey]%not_elem_of_cons.
      rewrite (Hframe key Hkey). by rewrite lookup_insert_ne.
    + intros [Hp Hnd]%NoDup_cons [|i] pred Hi.
      * cbn in Hi. injection Hi as <-. cbn [take fmap list_fmap]. rewrite app_nil_r.
        rewrite (Hframe p Hp). by rewrite lookup_insert_eq.
      * cbn in Hi. rewrite (Hval Hnd i pred Hi).
        by rewrite firstn_cons, fmap_cons, <- app_assoc.
Qed.

(** The MQTT block makes at least one call, and returns [true] only after
    the connection was made and the empty retained message published. *)
Lemma mqtt_clear_spec env device_id trace :
  ∃ (r : result bool) calls,
    mqtt_clear env device_id trace = (r, trace ++ calls)
    ∧ calls ≠ []
    ∧ (r = Return true →
       MqttConnect (MQTTHOST env) (MQTTPORT env) 10 ∈ calls
       ∧ MqttPublish ("devices/" +:+ device_id +:+ "/status") "" 1 true ∈ calls)
    ∧ (∀ b, r = Return b → b = true).
Proof.
  unfold mqtt_clear, call, mbind, io_bind, mret, io_ret.
  destruct (MQTTUSER env) as [u|], (MQTTPASS env) as [p|];
    try destruct (truthy (Some u) && truthy (Some p));
    repeat match goal with
    | |- context [call_outcome env ?t ?c] =>
      destruct (call_outcome env t c) as [[]|?]
    end;
    rewrite <- ?app_assoc; cbn [app];
    eexists _, _; (split; [reflexivity|]);
    (split; [done|]); (split; [|by intros ? [= <-]]);
    intros [=]; split; repeat first [apply list_elem_of_here | apply list_elem_of_further].
Qed.

(** C5: whatever the outcome of each call, [delete_device] returns a result;
    it has made the delete call of every enumerated predicate, in order, and
    its dictionary holds one entry for each of the four predicates, [true]
    where that call returned and [false] where it raised; the MQTT block is
    attempted after them and [mqtt_cleared] is a boolean, [true] only when
    the retained message was published. *)
Theorem delete_device_all_targets env id trace :
  ∃ res calls,
    delete_device env id trace
    = (Return res, trace ++ delete_calls env id ++ calls)
    ∧ device_id res = id
    ∧ dom (influx_deleted res) = list_to_set (predicates id)
    ∧ size (influx_deleted res) = 4%nat
    ∧ (∀ i pred, predicates id !! i = Some pred →
         influx_deleted res !! pred
         = Some (succeeded (call_outcome env
                   (trace ++ take i (delete_calls env id))
                   (delete_call env pred))))
    ∧ calls ≠ []
    ∧ (mqtt_cleared res = true →
       MqttPublish ("devices/" +:+ id +:+ "/status") "" 1 true ∈ calls).
Proof.
  destruct (delete_loop_spec env (predicates id) ∅ trace)
    as (deleted & Hloop & Hdom & _ & Hval).
  destruct (mqtt_clear_spec env id (trace ++ delete_calls env id))
    as (r & calls & Hmqtt & Hne & Hpub & Htrue).
  unfold delete_device. unfold mbind at 1, io_bind. rewrite Hloop.
  fold (delete_calls env id).
  unfold mbind, io_bind, io_try_except, mret, io_ret. rewrite Hmqtt.
  exists {| device_id := id; influx_deleted := deleted;
            mqtt_cleared := match r with Return b => b | Raise _ => false end |}, calls.
  cbn [device_id influx_deleted mqtt_cleared]. split_and!.
  - rewrite <- app_assoc. by destruct r.
  - done.
  - by rewrite Hdom, dom_empty_L, (left_id_L ∅ (∪)).
  - rewrite <- size_dom, Hdom, dom_empty_L, (left_id_L ∅ (∪)).
    rewrite size_list_to_set by apply predicates_NoDup. reflexivity.
  - intros i pred Hi. rewrite (Hval (predicates_NoDup id) i pred Hi).
    unfold delete_calls. by rewrite fmap_take.
  - done.
  - destruct r as [b|]; [|done]. intros ->. by apply Hpub.
Qed.

(** With a store that refuses every delete and a broker that refuses the
    connection, all four entries are [false] and so is [mqtt_cleared]. *)
Example delete_device_all_fail :
  let '(r, trace) := delete_device refusing_env "sensor-7" [] in
  r = Return {| device_id := "sensor-7";
                influx_deleted :=
                  list_to_map ((fun p => (p, false)) <$> predicates "sensor-7");
                mqtt_cleared := false |}
  ∧ trace = delete_calls refusing_env "sensor-7" ++ [MqttConnect "mosquitto" 1883 10].
Proof. vm_compute. split; reflexivity. Qed.

(** ** Telemetry Reader: reshaping *)

(** Each point is made from its own record alone: the loop carries no field
    from one record to the next. *)
Lemma build_points_own_fields rs : ∀ acc,
  (∀ r, r ∈ rs → ∃ s, iso_seconds_moscow (rec_time r) = Return s) →
  ∃ pts, build_points rs acc = Return (acc ++ pts)
    ∧ length pts = length rs
    ∧ ∀ i r, rs !! i = Some r →
        ∃ p, pts !! i = Some p
          ∧ iso_seconds_moscow (rec_time r) = Return (time p)
          ∧ temperature p = rec_fields r !! "temperature"
          ∧ humidity p = rec_fields r !! "humidity"
          ∧ pressure p = rec_fields r !! "pressure".
Proof.
  induction rs as [|r rs IH]; intros acc Hok.
  - exists []. cbn. rewrite app_nil_r. split; [done|]. split; [done|].
    intros i r Hi. by rewrite lookup_nil in Hi.
  - destruct (Hok r) as [s Hs]; [left|].
    cbn [build_points]. rewrite Hs. cbn [mbind result_bind].
    destruct (IH (acc ++ [{| time := s;
                             temperature := rec_fields r !! "temperature";
                             humidity := rec_fields r !! "humidity";
                             pressure := rec_fields r !! "pressure" |}]))
      as (pts & -> & Hlen & Hpts).
    { intros r' Hr'. apply Hok. by right. }
    eexists (_ :: pts). split; [by rewrite <- app_assoc|]. split; [cbn; lia|].
    intros [|i] r' Hi; cbn in Hi.
    + injection Hi as <-. eexists. split; [reflexivity|]. done.
    + apply (Hpts i r' Hi).
Qed.

(** Two samples at distinct timestamps stay two rows, each with the one field
    that was sampled then. *)
Lemma pivot_two_samples t1 t2 id f1 f2 v1 v2 :
  t1 ≠ t2 →
  pivot [mk_Sample t1 id f1 v1; mk_Sample t2 id f2 v2]
  = [ mk_FluxRecord (Some t1) None {[ "deviceid" := id ]} {[ f1 := v1 ]};
      mk_FluxRecord (Some t2) None {[ "deviceid" := id ]} {[ f2 := v2 ]} ].
Proof.
  intros Hne. unfold pivot. cbn [foldl pivot_insert sample_time sample_device
    sample_field sample_value rec_time].
  unfold same_time. cbn [rec_time].
  rewrite bool_decide_eq_false_2 by congruence. reflexivity.
Qed.

(** C4: a device has one sample with only temperature at [t1] and one with
    only humidity at another time [t2] (five seconds later in the scenario);
    the store answers the query of a window that covers both with the pivot
    of the two samples; then [device_data] yields exactly two points, the
    first with the temperature and no humidity or pressure, the second with
    the humidity and no temperature or pressure. *)
Theorem device_data_no_backfill env deviceid start stop start_utc stop_utc
    t1 t2 v1 v2 shown1 shown2 :
  parse_moscow_time_to_utc start = Return start_utc →
  stop ≠ "" →
  parse_moscow_time_to_utc stop = Return stop_utc →
  t1 ≠ t2 →
  q_query env (INFLUXORG env) (flux_device_data env deviceid start_utc stop_utc)
  = Return [mk_FluxTable (pivot [mk_Sample t1 deviceid "temperature" v1;
                                 mk_Sample t2 deviceid "humidity" v2])] →
  iso_seconds_moscow (Some t1) = Return shown1 →
  iso_seconds_moscow (Some t2) = Return shown2 →
  device_data env deviceid start (Some stop)
  = Return {| error := None;
              data_deviceid := deviceid;
              data_start := start;
              data_stop := Some stop;
              points :=
                [ {| time := shown1; temperature := Some v1;
                     humidity := None; pressure := None |};
                  {| time := shown2; temperature := None;
                     humidity := Some v2; pressure := None |} ] |}.
Proof.
  intros Hstart Hne Hstop Ht Hq H1 H2.
  apply truthy_Some in Hne.
  unfold device_data, device_data_try.
  rewrite Hstart. cbn [mbind result_bind]. rewrite Hne, Hstop.
  cbn [mbind result_bind]. rewrite Hq. cbn [mbind result_bind].
  rewrite (pivot_two_samples _ _ _ _ _ _ _ Ht).
  cbn [all_records mbind list_bind records app build_points rec_time rec_fields].
  rewrite H1. cbn [mbind result_bind]. rewrite H2. cbn [mbind result_bind].
  rewrite ?Hne. cbn [try_except_Exception app mbind result_bind].
  rewrite !lookup_singleton_eq.
  rewrite !lookup_singleton_ne by done. reflexivity.
Qed.

Lemma device_data_no_backfill_witness :
  device_data scenario_env "sensor-7" "2024-05-01T13:00:00" (Some "2024-05-01T13:00:10")
  = Return {| error := None;
              data_deviceid := "sensor-7";
              data_start := "2024-05-01T13:00:00";
              data_stop := Some "2024-05-01T13:00:10";
              points :=
                [ {| time := Some "2024-05-01T13:00:00";
                     temperature := Some (VNumber 43 2);
                     humidity := None; pressure := None |};
                  {| time := Some "2024-05-01T13:00:05";
                     temperature := None;
                     humidity := Some (VNumber 44 1); pressure := None |} ] |}.
Proof.
  apply (device_data_no_backfill scenario_env "sensor-7"
           "2024-05-01T13:00:00" "2024-05-01T13:00:10"
           "2024-05-01T10:00:00+00:00" "2024-05-01T10:00:10+00:00"
           T1 T1_plus_5s).
  - reflexivity.
  - discriminate.
  - reflexivity.
  - discriminate.
  - reflexivity.
  - reflexivity.
  - reflexivity.
Defined.

(** The second timestamp of the scenario is the first plus five seconds. *)
Example scenario_five_seconds :
  datetime_add T1 (timedelta_new 0 0 0 5 0) = Return T1_plus_5s.
Proof. reflexivity. Qed.

(** ** Time Translator: further properties *)

(** The three normalised fields of a [timedelta] of [k] whole seconds and
    [us] microseconds. *)
Lemma td_fields k us :
  0 ≤ us < US_PER_SECOND →
  td_days (k * US_PER_SECOND + us) = k / 86400
  ∧ td_seconds (k * US_PER_SECOND + us) = k mod 86400
  ∧ td_microseconds (k * US_PER_SECOND + us) = us.
Proof.
  intros Hus. unfold td_days, td_seconds, td_microseconds, US_PER_DAY, US_PER_SECOND in *.
  pose proof (Z.div_mod k 86400 ltac:(lia)) as Hk.
  pose proof (Z.mod_pos_bound k 86400 ltac:(lia)) as Hr.
  set (q := k / 86400) in *. set (r := k mod 86400) in *.
  assert ((k * 1000000 + us) mod (86400 * 1000000) = r * 1000000 + us) as Hm.
  { symmetry. apply (Z.mod_unique _ _ q); lia. }
  split_and!.
  - symmetry. apply (Z.div_unique _ _ _ (r * 1000000 + us)); lia.
  - rewrite Hm. symmetry. apply (Z.div_unique _ _ _ us); lia.
  - symmetry. apply (Z.mod_unique _ _ k); lia.
Qed.

(** Adding a whole number of seconds does not look at the microseconds: they
    are carried over unchanged, whatever they are. *)
Lemma datetime_add_microsecond d us other :
  other mod US_PER_SECOND = 0 →
  0 ≤ microsecond d < US_PER_SECOND → 0 ≤ us < US_PER_SECOND →
  datetime_add (replace_microsecond d us) other
  = match datetime_add d other with
    | Return r => Return (replace_microsecond r us)
    | Raise e => Raise e
    end.
Proof.
  intros Ho Hd Hus.
  pose proof (Z.div_mod other US_PER_SECOND ltac:(unfold US_PER_SECOND; lia)) as Hq.
  rewrite Ho in Hq.
  set (k := toordinal d * 86400 + (hour d * 3600 + minute d * 60 + second d)
            + other / US_PER_SECOND).
  unfold datetime_add.
  assert (∀ x, timedelta_new (toordinal d) (hour d) (minute d) (second d) x + other
               = k * US_PER_SECOND + x) as Hk.
  { intros x. unfold timedelta_new, US_PER_DAY, k. lia. }
  change (toordinal (replace_microsecond d us)) with (toordinal d).
  cbn [hour minute second microsecond dt_tzinfo replace_microsecond].
  rewrite !Hk.
  destruct (td_fields k us Hus) as (-> & -> & ->).
  destruct (td_fields k (microsecond d) Hd) as (-> & -> & ->).
  destruct (_ && _); [|done].
  by destruct (Calendar._ord2ymd (k / 86400)) as [[y m] dd].
Qed.

Lemma datetime_add_microsecond_range d other r :
  datetime_add d other = Return r → 0 ≤ microsecond r < US_PER_SECOND.
Proof.
  unfold datetime_add. destruct (_ && _); [|done].
  destruct (Calendar._ord2ymd _) as [[y m] dd]. intros [= <-].
  cbn [microsecond]. apply Z.mod_pos_bound. unfold US_PER_SECOND. lia.
Qed.

Lemma mod_second_opp x : x mod US_PER_SECOND = 0 → (- x) mod US_PER_SECOND = 0.
Proof.
  intros H. pose proof (Z.div_mod x US_PER_SECOND ltac:(unfold US_PER_SECOND; lia)) as Hq.
  rewrite H in Hq. symmetry.
  apply (Z.mod_unique _ _ (- (x / US_PER_SECOND))); unfold US_PER_SECOND in *; lia.
Qed.

(** X1: [iso_seconds_moscow] renders to the second: the sub-second part of
    the timestamp has no influence on the outcome, neither on the text nor on
    whether an exception is raised. This holds for a naive timestamp and for
    an aware one whose offset is a whole number of seconds. *)
Theorem iso_seconds_moscow_ignores_microsecond (ts : datetime) (us : Z) :
  valid_datetime ts = true →
  0 ≤ us ≤ 999999 →
  (∀ tz, dt_tzinfo ts = Some tz → utcoffset tz mod US_PER_SECOND = 0) →
  iso_seconds_moscow (Some (replace_microsecond ts us)) = iso_seconds_moscow (Some ts).
Proof.
  intros Hv Hus Hoff.
  apply valid_datetime_iff in Hv as (_ & _ & _ & _ & Hm).
  assert (∀ d tz, (0 ≤ microsecond d < US_PER_SECOND) → dt_tzinfo d = Some tz →
            utcoffset tz mod US_PER_SECOND = 0 →
            (moscow_time ← astimezone (replace_microsecond d us) MOSCOW_TZ;
             Return (Some (isoformat (replace_tzinfo (replace_microsecond moscow_time 0) None)
                             timespec_seconds)))
            = (moscow_time ← astimezone d MOSCOW_TZ;
               Return (Some (isoformat (replace_tzinfo (replace_microsecond moscow_time 0) None)
                               timespec_seconds)))) as Hgen.
  { intros d tz Hd Htz Ho. unfold astimezone, datetime_sub.
    cbn [dt_tzinfo replace_microsecond]. rewrite Htz.
    destruct (tz_is MOSCOW_TZ tz); [reflexivity|].
    rewrite datetime_add_microsecond;
      [|by apply mod_second_opp|done|unfold US_PER_SECOND; lia].
    destruct (datetime_add d (- utcoffset tz)) as [r|e] eqn:Hr; [|reflexivity].
    cbn [mbind result_bind].
    change (replace_tzinfo (replace_microsecond r us) (Some MOSCOW_TZ))
      with (replace_microsecond (replace_tzinfo r (Some MOSCOW_TZ)) us).
    rewrite datetime_add_microsecond;
      [|reflexivity|exact (datetime_add_microsecond_range _ _ _ Hr)
       |unfold US_PER_SECOND; lia].
    by destruct (datetime_add (replace_tzinfo r (Some MOSCOW_TZ)) (utcoffset MOSCOW_TZ)). }
  unfold iso_seconds_moscow. cbn [dt_tzinfo replace_microsecond].
  destruct (dt_tzinfo ts) as [tz|] eqn:Htz.
  - apply (Hgen ts tz); [unfold US_PER_SECOND; lia|done|by apply Hoff].
  - apply (Hgen (replace_tzinfo ts (Some timezone_utc)) timezone_utc);
      [unfold US_PER_SECOND; cbn; lia|done|reflexivity].
Qed.

Lemma iso_seconds_moscow_ignores_microsecond_witness :
  iso_seconds_moscow (Some (replace_microsecond T1 999999)) = iso_seconds_moscow (Some T1).
Proof.
  apply (iso_seconds_moscow_ignores_microsecond T1 999999).
  - reflexivity.
  - lia.
  - intros tz [= <-]. reflexivity.
Defined.

(** A [datetime] for every reading inside the supported range. *)
Lemma datetime_of_total_us x tz :
  US_PER_DAY ≤ x < (Calendar._MAXORDINAL + 1) * US_PER_DAY →
  ∃ m, valid_datetime m = true ∧ total_us m = x ∧ dt_tzinfo m = tz.
Proof.
  intros Hx.
  destruct (datetime_add_spec (mk_datetime 1 1 1 0 0 0 0 tz) (x - US_PER_DAY))
    as (m & _ & Hv & Hm & Htz); [reflexivity| |].
  - change (total_us (mk_datetime 1 1 1 0 0 0 0 tz)) with US_PER_DAY. lia.
  - exists m. change (total_us (mk_datetime 1 1 1 0 0 0 0 tz)) with US_PER_DAY in Hm.
    split_and!; [done|lia|done].
Qed.

Lemma total_us_replace_microsecond d us :
  total_us (replace_microsecond d us) = total_us d - microsecond d + us.
Proof. unfold total_us, timedelta_new, toordinal. cbn. lia. Qed.

Lemma valid_replace_microsecond d us :
  valid_datetime d = true → 0 ≤ us ≤ 999999 →
  valid_datetime (replace_microsecond d us) = true.
Proof.
  rewrite !valid_datetime_iff. cbn. intros (? & ? & ? & ? & ?) ?. split_and!; done || lia.
Qed.

(** The first and the last day of the calendar, by ordinal. *)
Lemma toordinal_first d :
  valid_datetime d = true →
  (year d, month d, day d) = (1, 1, 1) ↔ toordinal d = 1.
Proof.
  intros (Hd & _)%valid_datetime_iff. apply ymd2ord_spec in Hd as [_ Hinv].
  fold (toordinal d) in Hinv. split.
  - intros [= Hy Hm Hdd]. unfold toordinal. by rewrite Hy, Hm, Hdd.
  - intros H1. rewrite H1 in Hinv. by rewrite <- Hinv.
Qed.

Lemma toordinal_last d :
  valid_datetime d = true →
  (year d, month d, day d) = (9999, 12, 31) ↔ toordinal d = Calendar._MAXORDINAL.
Proof.
  intros (Hd & _)%valid_datetime_iff. apply ymd2ord_spec in Hd as [_ Hinv].
  fold (toordinal d) in Hinv. split.
  - intros [= Hy Hm Hdd]. unfold toordinal. by rewrite Hy, Hm, Hdd.
  - intros H1. rewrite H1 in Hinv. by rewrite <- Hinv.
Qed.

Lemma before_first_utc_day_iff d :
  valid_datetime d = true →
  before_first_utc_day d ↔ total_us d < US_PER_DAY + utcoffset MOSCOW_TZ.
Proof.
  intros Hv. unfold before_first_utc_day. rewrite (toordinal_first d Hv).
  destruct (total_us_split d Hv) as (t & -> & Ht & ->).
  pose proof Hv as (Hd & Hh & Hm & Hs & Hu)%valid_datetime_iff.
  apply ymd2ord_spec in Hd as [Hr _]. fold (toordinal d) in Hr.
  change (utcoffset MOSCOW_TZ) with 10800000000.
  unfold US_PER_DAY, US_PER_SECOND in *. lia.
Qed.

Lemma after_last_moscow_day_iff d :
  valid_datetime d = true →
  after_last_moscow_day d
  ↔ (Calendar._MAXORDINAL + 1) * US_PER_DAY ≤ total_us d + utcoffset MOSCOW_TZ.
Proof.
  intros Hv. unfold after_last_moscow_day. rewrite (toordinal_last d Hv).
  destruct (total_us_split d Hv) as (t & -> & Ht & ->).
  pose proof Hv as (Hd & Hh & Hm & Hs & Hu)%valid_datetime_iff.
  apply ymd2ord_spec in Hd as [Hr _]. fold (toordinal d) in Hr.
  change (utcoffset MOSCOW_TZ) with 10800000000.
  unfold Calendar._MAXORDINAL, US_PER_DAY, US_PER_SECOND in *. lia.
Qed.

(** A naive timestamp is rendered as the UTC one with the same reading. *)
Lemma iso_seconds_moscow_naive ts :
  dt_tzinfo ts = None →
  iso_seconds_moscow (Some ts)
  = iso_seconds_moscow (Some (replace_tzinfo ts (Some timezone_utc))).
Proof. intros Htz. unfold iso_seconds_moscow. by rewrite Htz. Qed.

Lemma instant_us_naive ts :
  dt_tzinfo ts = None →
  instant_us (replace_tzinfo ts (Some timezone_utc)) = instant_us ts.
Proof.
  intros Htz. unfold instant_us. rewrite Htz, replace_tzinfo_total_us. reflexivity.
Qed.

(** The rendering of any timestamp whose instant, moved to Moscow time, is a
    date: the local reading three hours after the instant. *)
Lemma iso_seconds_moscow_instant ts :
  valid_datetime ts = true →
  US_PER_DAY ≤ instant_us ts →
  instant_us ts + utcoffset MOSCOW_TZ < (Calendar._MAXORDINAL + 1) * US_PER_DAY →
  ∃ m, valid_datetime m = true ∧ dt_tzinfo m = None
    ∧ total_us m = instant_us ts + utcoffset MOSCOW_TZ
    ∧ iso_seconds_moscow (Some ts) = Return (Some (isoformat m timespec_seconds)).
Proof.
  assert (∀ ts tz, valid_datetime ts = true → dt_tzinfo ts = Some tz →
            US_PER_DAY ≤ instant_us ts →
            instant_us ts + utcoffset MOSCOW_TZ < (Calendar._MAXORDINAL + 1) * US_PER_DAY →
            ∃ m, valid_datetime m = true ∧ dt_tzinfo m = None
              ∧ total_us m = instant_us ts + utcoffset MOSCOW_TZ
              ∧ iso_seconds_moscow (Some ts)
                = Return (Some (isoformat m timespec_seconds))) as Haware.
  { clear ts. intros ts tz Hv Htz Hlo Hhi. unfold instant_us in *. rewrite Htz in *.
    change (utcoffset MOSCOW_TZ) with 10800000000 in *.
    unfold iso_seconds_moscow. rewrite Htz.
    destruct (tz_is MOSCOW_TZ tz) eqn:His.
    - destruct tz; try discriminate His.
      exists (replace_tzinfo ts None).
      change (utcoffset MOSCOW_TZ) with 10800000000.
      rewrite replace_tzinfo_valid, replace_tzinfo_total_us.
      split_and!; [done|done|lia|].
      unfold astimezone. rewrite Htz. reflexivity.
    - destruct (astimezone_spec ts tz MOSCOW_TZ) as (m & -> & Hvm & Hm & Htzm);
        try done.
      + change (utcoffset MOSCOW_TZ) with 10800000000. lia.
      + change (utcoffset MOSCOW_TZ) with 10800000000. lia.
      + exists (replace_tzinfo m None).
        rewrite replace_tzinfo_valid, replace_tzinfo_total_us.
        change (utcoffset MOSCOW_TZ) with 10800000000 in Hm.
        split_and!; [done|done|lia|reflexivity]. }
  intros Hv Hlo Hhi. destruct (dt_tzinfo ts) as [tz|] eqn:Htz.
  - by apply (Haware ts tz).
  - rewrite (iso_seconds_moscow_naive ts Htz), <- (instant_us_naive ts Htz) in *.
    by apply (Haware _ timezone_utc).
Qed.

(** The rendering of a naive or UTC timestamp outside the last three hours
    of the calendar: the local reading three hours later, cut to the second. *)
Lemma iso_seconds_moscow_utc ts :
  valid_datetime ts = true →
  dt_tzinfo ts = None ∨ dt_tzinfo ts = Some timezone_utc →
  ¬ after_last_moscow_day ts →
  ∃ m, valid_datetime m = true ∧ dt_tzinfo m = None ∧ microsecond m = 0
    ∧ total_us m = total_us ts - microsecond ts + utcoffset MOSCOW_TZ
    ∧ iso_seconds_moscow (Some ts) = Return (Some (isoformat m timespec_seconds)).
Proof.
  intros Hv Htz Hlate. rewrite (after_last_moscow_day_iff ts Hv) in Hlate.
  pose proof (total_us_range ts Hv) as Hr.
  assert (instant_us ts = total_us ts) as Hi.
  { unfold instant_us. destruct Htz as [-> | ->]; cbn; lia. }
  destruct (iso_seconds_moscow_instant ts Hv) as (m & Hvm & Htzm & Hm & ->); [lia..|].
  rewrite Hi in Hm.
  pose proof Hv as (_ & _ & _ & _ & Hus)%valid_datetime_iff.
  pose proof Hvm as (_ & _ & _ & _ & Husm)%valid_datetime_iff.
  assert (microsecond m = microsecond ts) as Hsame.
  { unfold total_us, timedelta_new, US_PER_DAY in Hm.
    change (utcoffset MOSCOW_TZ) with (10800 * US_PER_SECOND) in Hm.
    unfold US_PER_SECOND in Hm. lia. }
  exists (replace_microsecond m 0).
  rewrite total_us_replace_microsecond, Hm, Hsame.
  split_and!; [by apply valid_replace_microsecond|done|done|lia|reflexivity].
Qed.

(** X2: a naive or UTC timestamp is rendered unless it lies in the last three
    hours of 9999-12-31, where Moscow time has left the calendar and
    [OverflowError] is raised; a rendered text has the 19 characters of
    [YYYY-MM-DDTHH:MM:SS] and reads back as the naive local time three hours
    after the timestamp, cut to the second. *)
Theorem iso_seconds_moscow_range (ts : datetime) :
  valid_datetime ts = true →
  dt_tzinfo ts = None ∨ dt_tzinfo ts = Some timezone_utc →
  (after_last_moscow_day ts →
   iso_seconds_moscow (Some ts) = Raise (OverflowError "date value out of range"))
  ∧ (¬ after_last_moscow_day ts →
     ∃ s m, iso_seconds_moscow (Some ts) = Return (Some s)
       ∧ String.length s = 19%nat
       ∧ fromisoformat s = Return m
       ∧ dt_tzinfo m = None
       ∧ total_us m = total_us ts - microsecond ts + utcoffset MOSCOW_TZ).
Proof.
  intros Hv Htz. split.
  - intros Hlate. rewrite (after_last_moscow_day_iff ts Hv) in Hlate.
    assert (∀ u, valid_datetime u = true → dt_tzinfo u = Some timezone_utc →
              (Calendar._MAXORDINAL + 1) * US_PER_DAY ≤ total_us u + utcoffset MOSCOW_TZ →
              iso_seconds_moscow (Some u)
              = Raise (OverflowError "date value out of range")) as Hutc.
    { intros u Hvu Htzu Hu. unfold iso_seconds_moscow. rewrite Htzu.
      unfold astimezone, datetime_sub. rewrite Htzu. cbn [tz_is].
      pose proof (total_us_range u Hvu) as Hr.
      destruct (datetime_add_spec u (- utcoffset timezone_utc) Hvu)
        as (u' & -> & Hvu' & Hu' & Htzu'); [cbn; lia|].
      cbn [utcoffset] in Hu'.
      assert (u' = u) as -> by (apply total_us_inj; try done; lia).
      cbn [mbind result_bind].
      rewrite datetime_add_overflow; [reflexivity|].
      rewrite replace_tzinfo_total_us. lia. }
    destruct Htz as [Htz|Htz].
    + rewrite (iso_seconds_moscow_naive ts Htz). by apply Hutc.
    + by apply Hutc.
  - intros Hlate.
    destruct (iso_seconds_moscow_utc ts Hv Htz Hlate) as (m & Hvm & Htzm & Hus & Hm & ->).
    exists (isoformat m timespec_seconds), m.
    split_and!; [done| | |done|done].
    + unfold isoformat. rewrite Htzm. reflexivity.
    + by apply fromisoformat_isoformat_seconds.
Qed.

Lemma iso_seconds_moscow_range_witness :
  iso_seconds_moscow (Some (mk_datetime 9999 12 31 21 0 0 0 (Some timezone_utc)))
  = Raise (OverflowError "date value out of range")
  ∧ ∃ s m, iso_seconds_moscow (Some (mk_datetime 9999 12 31 20 59 59 999999 None))
           = Return (Some s)
      ∧ String.length s = 19%nat
      ∧ fromisoformat s = Return m
      ∧ dt_tzinfo m = None
      ∧ total_us m
        = total_us (mk_datetime 9999 12 31 20 59 59 999999 None) - 999999
          + utcoffset MOSCOW_TZ.
Proof.
  split.
  - apply (iso_seconds_moscow_range (mk_datetime 9999 12 31 21 0 0 0 (Some timezone_utc)));
      [reflexivity|by right|]. split; [reflexivity|]. cbn. lia.
  - apply (iso_seconds_moscow_range (mk_datetime 9999 12 31 20 59 59 999999 None));
      [reflexivity|by left|]. intros [_ H]. cbn in H. lia.
Defined.

(** X3: a rendered time given back as a range bound denotes the instant it
    was rendered from, cut to the second: for a naive or UTC timestamp that
    can be rendered, [parse_moscow_time_to_utc] of the rendering is the UTC
    text of the timestamp with its microseconds set to zero. *)
Theorem range_bound_of_display (ts : datetime) :
  valid_datetime ts = true →
  dt_tzinfo ts = None ∨ dt_tzinfo ts = Some timezone_utc →
  ¬ after_last_moscow_day ts →
  ∃ s, iso_seconds_moscow (Some ts) = Return (Some s)
    ∧ parse_moscow_time_to_utc s
      = Return (isoformat (replace_tzinfo (replace_microsecond ts 0) (Some timezone_utc))
                  timespec_auto).
Proof.
  intros Hv Htz Hlate.
  destruct (iso_seconds_moscow_utc ts Hv Htz Hlate) as (m & Hvm & Htzm & Hus & Hm & ->).
  eexists; split; [reflexivity|].
  pose proof (fromisoformat_isoformat_seconds m Hvm Htzm Hus) as Hp.
  pose proof (total_us_range ts Hv) as Hr.
  pose proof Hv as (_ & _ & _ & _ & Husts)%valid_datetime_iff.
  assert (US_PER_DAY ≤ total_us ts - microsecond ts) as Hlo.
  { destruct (total_us_split ts Hv) as (t & Ht & Hb & Heq).
    pose proof Hv as (Hd & Hh & Hmi & Hs & _)%valid_datetime_iff.
    apply ymd2ord_spec in Hd as [Hord _]. fold (toordinal ts) in Hord.
    unfold US_PER_DAY, US_PER_SECOND in *. lia. }
  destruct (moscow_time_to_utc_dt_spec _ m Hp) as (u & Hu & Hvu & Hus' & Htzu); [lia|].
  unfold parse_moscow_time_to_utc. rewrite Hu.
  cbn [mbind result_bind try_except_ValueError]. do 2 f_equal.
  apply total_us_inj; try done.
  - rewrite replace_tzinfo_valid. apply valid_replace_microsecond; [done|lia].
  - rewrite replace_tzinfo_total_us, total_us_replace_microsecond. lia.
Qed.

Lemma range_bound_of_display_witness :
  ∃ s, iso_seconds_moscow (Some (mk_datetime 2024 5 1 10 0 5 250000 (Some timezone_utc)))
       = Return (Some s)
    ∧ parse_moscow_time_to_utc s = Return "2024-05-01T10:00:05+00:00".
Proof.
  apply (range_bound_of_display (mk_datetime 2024 5 1 10 0 5 250000 (Some timezone_utc)));
    [reflexivity|by right|].
  intros [H _]. discriminate H.
Defined.

(** X4: the rendering depends on the instant only, not on the zone the
    timestamp is expressed in: two timestamps (naive ones read as UTC) that
    denote the same instant are rendered alike, as long as the instant and
    its Moscow reading fall inside the calendar. *)
Theorem iso_seconds_moscow_same_instant (ts1 ts2 : datetime) :
  valid_datetime ts1 = true → valid_datetime ts2 = true →
  instant_us ts1 = instant_us ts2 →
  US_PER_DAY ≤ instant_us ts1 →
  instant_us ts1 + utcoffset MOSCOW_TZ < (Calendar._MAXORDINAL + 1) * US_PER_DAY →
  iso_seconds_moscow (Some ts1) = iso_seconds_moscow (Some ts2)
  ∧ ∃ s, iso_seconds_moscow (Some ts1) = Return (Some s).
Proof.
  intros Hv1 Hv2 Heq Hlo Hhi.
  destruct (iso_seconds_moscow_instant ts1 Hv1 Hlo Hhi) as (m1 & Hvm1 & Htz1 & Hm1 & ->).
  rewrite Heq in Hlo, Hhi.
  destruct (iso_seconds_moscow_instant ts2 Hv2 Hlo Hhi) as (m2 & Hvm2 & Htz2 & Hm2 & ->).
  assert (m1 = m2) as -> by (apply total_us_inj; try done; [lia|congruence]).
  split; [reflexivity|by eexists].
Qed.

Lemma iso_seconds_moscow_same_instant_witness :
  iso_seconds_moscow (Some (mk_datetime 2024 5 1 15 30 0 0 (Some (timezone 19800000000))))
  = iso_seconds_moscow (Some (mk_datetime 2024 5 1 10 0 0 0 None))
  ∧ ∃ s, iso_seconds_moscow
           (Some (mk_datetime 2024 5 1 15 30 0 0 (Some (timezone 19800000000))))
         = Return (Some s).
Proof.
  apply (iso_seconds_moscow_same_instant
           (mk_datetime 2024 5 1 15 30 0 0 (Some (timezone 19800000000)))
           (mk_datetime 2024 5 1 10 0 0 0 None)).
  - reflexivity.
  - reflexivity.
  - reflexivity.
  - vm_compute. discriminate.
  - vm_compute. reflexivity.
Defined.

(** *** What the parser can raise *)

Lemma only_ValueError_Return {A} (a : A) : raises_only_ValueError (Return a).
Proof. intros e [=]. Qed.

Lemma only_ValueError_Raise {A} msg : raises_only_ValueError (@Raise A (ValueError msg)).
Proof. intros e [= <-]. by eexists. Qed.

Lemma only_ValueError_bind {A B} (c : result A) (k : A → result B) :
  raises_only_ValueError c →
  (∀ a, c = Return a → raises_only_ValueError (k a)) →
  raises_only_ValueError (c ≫= k).
Proof.
  intros Hc Hk. destruct c as [a|e]; cbn.
  - by apply Hk.
  - intros e' [= <-]. by apply Hc.
Qed.

Create HintDb only_ValueError.
#[local] Hint Resolve only_ValueError_Return only_ValueError_Raise : only_ValueError.

Lemma int_of_only_ValueError s : raises_only_ValueError (int_of s).
Proof.
  unfold int_of. destruct s; [auto with only_ValueError|].
  destruct (parse_digits _ _); auto with only_ValueError.
Qed.

Lemma parse_isoformat_date_only_ValueError s :
  raises_only_ValueError (_parse_isoformat_date s).
Proof.
  unfold _parse_isoformat_date.
  destruct (negb _); [auto with only_ValueError|].
  apply only_ValueError_bind; [apply int_of_only_ValueError|intros y _].
  destruct (negb _); [auto with only_ValueError|].
  apply only_ValueError_bind; [apply int_of_only_ValueError|intros m _].
  destruct (negb _); [auto with only_ValueError|].
  apply only_ValueError_bind; [apply int_of_only_ValueError|intros d _].
  auto with only_ValueError.
Qed.

Lemma parse_hh_mm_ss_only_ValueError comps : ∀ s,
  raises_only_ValueError (_parse_hh_mm_ss comps s).
Proof.
  induction comps as [|comps IH]; intros s; cbn [_parse_hh_mm_ss];
    [auto with only_ValueError|].
  destruct (_ <? _)%nat; [auto with only_ValueError|].
  apply only_ValueError_bind; [apply int_of_only_ValueError|intros v _].
  destruct (drop_prefix 2 s) as [|c rest]; [auto with only_ValueError|].
  destruct comps; [auto with only_ValueError|].
  destruct (Ascii.eqb c ":"); [|auto with only_ValueError].
  apply only_ValueError_bind; [apply IH|intros [vs r] _]. auto with only_ValueError.
Qed.

Lemma parse_hh_mm_ss_ff_only_ValueError s :
  raises_only_ValueError (_parse_hh_mm_ss_ff s).
Proof.
  unfold _parse_hh_mm_ss_ff.
  apply only_ValueError_bind; [apply parse_hh_mm_ss_only_ValueError|intros [comps rest] _].
  destruct rest as [|c frac]; [auto with only_ValueError|].
  destruct (negb _); [auto with only_ValueError|].
  destruct (_ =? 3)%nat.
  { apply only_ValueError_bind; [apply int_of_only_ValueError|intros us _].
    auto with only_ValueError. }
  destruct (_ =? 6)%nat; [|auto with only_ValueError].
  apply only_ValueError_bind; [apply int_of_only_ValueError|intros us _].
  auto with only_ValueError.
Qed.

Lemma timezone_new_only_ValueError offset : raises_only_ValueError (timezone_new offset).
Proof. unfold timezone_new. destruct (_ && _); auto with only_ValueError. Qed.

Lemma parse_isoformat_time_only_ValueError s :
  raises_only_ValueError (_parse_isoformat_time s).
Proof.
  unfold _parse_isoformat_time.
  destruct (_ <? _)%nat; [auto with only_ValueError|].
  destruct (match find "-" s with Some i => Some i | None => find "+" s end) as [i|].
  - apply only_ValueError_bind;
      [apply parse_hh_mm_ss_ff_only_ValueError|intros [[[hh mm] ss] us] _].
    destruct (negb _); [auto with only_ValueError|].
    apply only_ValueError_bind;
      [apply parse_hh_mm_ss_ff_only_ValueError|intros [[[th tm] tsec] tus] _].
    destruct (_ && _); [auto with only_ValueError|].
    apply only_ValueError_bind; [apply timezone_new_only_ValueError|intros tzi _].
    auto with only_ValueError.
  - apply only_ValueError_bind;
      [apply parse_hh_mm_ss_ff_only_ValueError|intros [[[hh mm] ss] us] _].
    auto with only_ValueError.
Qed.

Lemma datetime_new_only_ValueError y m d hh mm ss us tz :
  raises_only_ValueError (datetime_new y m d hh mm ss us tz).
Proof.
  unfold datetime_new. destruct (negb _); [auto with only_ValueError|].
  destruct (negb _); auto with only_ValueError.
Qed.

(** [fromisoformat] rejects a text with [ValueError] and nothing else. *)
Lemma fromisoformat_only_ValueError s : raises_only_ValueError (fromisoformat s).
Proof.
  unfold fromisoformat.
  apply only_ValueError_bind;
    [apply parse_isoformat_date_only_ValueError|intros [[y m] d] _].
  destruct (_ <=? _)%nat; [apply datetime_new_only_ValueError|].
  apply only_ValueError_bind;
    [apply parse_isoformat_time_only_ValueError|intros [[[[hh mm] ss] us] tz] _].
  apply datetime_new_only_ValueError.
Qed.

Lemma substring_0_0 s : substring 0 0 s = "".
Proof. by destruct s. Qed.

(** A text that does not begin with a year is not a date. *)
Lemma fromisoformat_no_year s :
  starts_with_year s = false → ∃ msg, fromisoformat s = Raise (ValueError msg).
Proof.
  intros Hy. unfold fromisoformat, _parse_isoformat_date.
  destruct s as [|a [|b [|c [|d s]]]]; try (cbn; by eexists).
  destruct (negb _); [by eexists|].
  cbn [substring]. rewrite substring_0_0. cbn [starts_with_year] in Hy.
  unfold int_of. cbn [parse_digits].
  destruct (is_digit a); [|by eexists].
  destruct (is_digit b); [|by eexists].
  destruct (is_digit c); [|by eexists].
  destruct (is_digit d); [done|by eexists].
Qed.

(** X5: a text that does not begin with the four digits of a year is never
    read as a date: the empty text and relative Flux bounds such as [-7d] or
    [now()] are returned unchanged. *)
Theorem parse_moscow_time_to_utc_not_a_date (time_str : string) :
  starts_with_year time_str = false →
  parse_moscow_time_to_utc time_str = Return time_str.
Proof.
  intros Hy. destruct (fromisoformat_no_year _ Hy) as [msg Hp].
  unfold parse_moscow_time_to_utc, moscow_time_to_utc_dt. by rewrite Hp.
Qed.

Lemma parse_moscow_time_to_utc_not_a_date_witness :
  parse_moscow_time_to_utc "-7d" = Return "-7d".
Proof. apply (parse_moscow_time_to_utc_not_a_date "-7d"). reflexivity. Defined.

(** The function is its body at the outcome of the parser. *)
Lemma parse_moscow_time_to_utc_utc_bound_of time_str :
  parse_moscow_time_to_utc time_str = utc_bound_of (fromisoformat time_str) time_str.
Proof. reflexivity. Qed.

(** What the parser of the embedding returns is a [datetime] the constructor
    accepts, and it raises nothing but [ValueError]. *)
Lemma fromisoformat_outcome time_str :
  raises_only_ValueError (fromisoformat time_str)
  ∧ ∀ d, fromisoformat time_str = Return d → valid_datetime d = true.
Proof. split; [apply fromisoformat_only_ValueError|apply fromisoformat_valid]. Qed.

(** The two outcomes of moving a Moscow reading to UTC. *)
Lemma astimezone_moscow_utc d :
  valid_datetime d = true → ¬ before_first_utc_day d →
  ∃ u, astimezone (replace_tzinfo d (Some MOSCOW_TZ)) timezone_utc = Return u
    ∧ valid_datetime u = true
    ∧ total_us u = total_us d - utcoffset MOSCOW_TZ
    ∧ dt_tzinfo u = Some timezone_utc.
Proof.
  intros Hv Hearly. rewrite (before_first_utc_day_iff d Hv) in Hearly.
  pose proof (total_us_range d Hv) as Hr.
  destruct (astimezone_spec (replace_tzinfo d (Some MOSCOW_TZ)) MOSCOW_TZ timezone_utc)
    as (u & Hu & Hvu & Hus & Htz); try done.
  - rewrite replace_tzinfo_total_us.
    change (utcoffset MOSCOW_TZ) with 10800000000 in *. lia.
  - rewrite replace_tzinfo_total_us.
    change (utcoffset MOSCOW_TZ) with 10800000000 in *.
    change (utcoffset timezone_utc) with 0. lia.
  - exists u. rewrite replace_tzinfo_total_us in Hus.
    change (utcoffset timezone_utc) with 0 in Hus. split_and!; [done|done|lia|done].
Qed.

Lemma astimezone_moscow_utc_overflow d :
  valid_datetime d = true → before_first_utc_day d →
  astimezone (replace_tzinfo d (Some MOSCOW_TZ)) timezone_utc
  = Raise (OverflowError "date value out of range").
Proof.
  intros Hv Hearly. rewrite (before_first_utc_day_iff d Hv) in Hearly.
  unfold astimezone, datetime_sub. cbn [dt_tzinfo replace_tzinfo tz_is].
  rewrite datetime_add_overflow; [reflexivity|].
  change (total_us (replace_tzinfo d (Some MOSCOW_TZ))) with (total_us d). lia.
Qed.

(** X6: whatever [datetime.fromisoformat] makes of the text (a [ValueError]
    or any [datetime]), [parse_moscow_time_to_utc] raises in one situation
    only: the parser returned a [datetime] in the first three hours of
    0001-01-01, whose UTC instant would fall before the calendar; the
    exception is then [OverflowError]. The parser's [ValueError] is never
    passed on. *)
Theorem parse_moscow_time_to_utc_raises (parsed : result datetime) (time_str : string)
    (e : Exception) :
  raises_only_ValueError parsed →
  (∀ d, parsed = Return d → valid_datetime d = true) →
  parse_moscow_time_to_utc time_str = utc_bound_of (fromisoformat time_str) time_str
  ∧ (utc_bound_of parsed time_str = Raise e
     ↔ e = OverflowError "date value out of range"
       ∧ ∃ d, parsed = Return d ∧ before_first_utc_day d).
Proof.
  intros Honly Hvalid. split; [reflexivity|]. unfold utc_bound_of.
  destruct parsed as [d|e0].
  - specialize (Hvalid d eq_refl). cbn [mbind result_bind].
    destruct (decide (before_first_utc_day d)) as [Hearly|Hlate].
    + rewrite (astimezone_moscow_utc_overflow d Hvalid Hearly).
      cbn [mbind result_bind try_except_ValueError]. split.
      * intros [= <-]. split; [reflexivity|by exists d].
      * by intros [-> _].
    + destruct (astimezone_moscow_utc d Hvalid Hlate) as (u & -> & _).
      cbn [mbind result_bind try_except_ValueError]. split; [done|].
      intros (_ & d' & [= <-] & Hearly). done.
  - destruct (Honly e0 eq_refl) as [msg ->].
    cbn [mbind result_bind try_except_ValueError]. split; [done|].
    by intros (_ & d & [=] & _).
Qed.

Lemma parse_moscow_time_to_utc_raises_witness :
  parse_moscow_time_to_utc "0001-01-01T00:00:00Z"
  = utc_bound_of (fromisoformat "0001-01-01T00:00:00Z") "0001-01-01T00:00:00Z"
  ∧ (utc_bound_of (Return (mk_datetime 1 1 1 0 0 0 0 (Some timezone_utc)))
                  "0001-01-01T00:00:00Z"
     = Raise (OverflowError "date value out of range")
     ↔ OverflowError "date value out of range" = OverflowError "date value out of range"
       ∧ ∃ d, Return (mk_datetime 1 1 1 0 0 0 0 (Some timezone_utc)) = Return d
              ∧ before_first_utc_day d).
Proof.
  apply (parse_moscow_time_to_utc_raises
           (Return (mk_datetime 1 1 1 0 0 0 0 (Some timezone_utc)))
           "0001-01-01T00:00:00Z" (OverflowError "date value out of range")).
  - intros e H. discriminate H.
  - intros d H. injection H as <-. reflexivity.
Defined.

(** X7: every [datetime] the parser returns for the text, with or without an
    offset of its own, is taken as Moscow wall-clock time: unless it lies in
    the first three hours of year 1, the bound returned is a UTC text that
    reads back as the instant three hours before the wall-clock reading. The
    last part ties this to the function for the texts the parser of the
    embedding reads. *)
Theorem parse_moscow_time_to_utc_shift (time_str : string) (d : datetime) :
  valid_datetime d = true →
  ¬ before_first_utc_day d →
  ∃ u, utc_bound_of (Return d) time_str = Return (isoformat u timespec_auto)
    ∧ fromisoformat (isoformat u timespec_auto) = Return u
    ∧ dt_tzinfo u = Some timezone_utc
    ∧ total_us u = total_us d - utcoffset MOSCOW_TZ
    ∧ (fromisoformat time_str = Return d →
       parse_moscow_time_to_utc time_str = Return (isoformat u timespec_auto)).
Proof.
  intros Hv Hearly.
  destruct (astimezone_moscow_utc d Hv Hearly) as (u & Hu & Hvu & Hus & Htz).
  exists u.
  assert (utc_bound_of (Return d) time_str = Return (isoformat u timespec_auto)) as Hb.
  { unfold utc_bound_of. cbn [mbind result_bind]. by rewrite Hu. }
  split_and!; [done|by apply fromisoformat_isoformat_utc|done|done|].
  intros Hp. by rewrite parse_moscow_time_to_utc_utc_bound_of, Hp.
Qed.

Lemma parse_moscow_time_to_utc_shift_witness :
  ∃ u, utc_bound_of (Return (mk_datetime 2024 5 1 13 0 0 0 (Some timezone_utc)))
                    "2024-05-01T13:00:00Z"
       = Return (isoformat u timespec_auto)
    ∧ fromisoformat (isoformat u timespec_auto) = Return u
    ∧ dt_tzinfo u = Some timezone_utc
    ∧ total_us u
      = total_us (mk_datetime 2024 5 1 13 0 0 0 (Some timezone_utc))
        - utcoffset MOSCOW_TZ
    ∧ (fromisoformat "2024-05-01T13:00:00Z"
       = Return (mk_datetime 2024 5 1 13 0 0 0 (Some timezone_utc)) →
       parse_moscow_time_to_utc "2024-05-01T13:00:00Z"
       = Return (isoformat u timespec_auto)).
Proof.
  apply (parse_moscow_time_to_utc_shift "2024-05-01T13:00:00Z"
           (mk_datetime 2024 5 1 13 0 0 0 (Some timezone_utc))).
  - reflexivity.
  - intros [H _]. discriminate H.
Defined.

(** ** Access Gate and cookie middleware: further properties *)




(** ** Device Directory, Presence Resolver and Telemetry Reader: further properties *)

(** X10: [list_online] does not depend on the order in which the store lists
    the devices: two answers whose [deviceid] columns are rearrangements of
    one another give the same list. *)
Theorem list_online_order_independent (env1 env2 : Env) (tables1 tables2 : list FluxTable) :
  q_query env1 (INFLUXORG env1) (flux_list_online env1) = Return tables1 →
  q_query env2 (INFLUXORG env2) (flux_list_online env2) = Return tables2 →
  deviceid_column tables1 ≡ₚ deviceid_column tables2 →
  list_online env1 = list_online env2.
Proof.
  intros Hq1 Hq2 Hperm. unfold list_online. rewrite Hq1, Hq2.
  cbn [mbind result_bind]. f_equal.
  apply (StronglySorted_unique String.le); [apply sorted_StronglySorted..|].
  rewrite !sorted_Permutation, !device_ids_filter. by rewrite Hperm.
Qed.

Lemma list_online_order_independent_witness :
  list_online online_store_env = list_online sorted_store_env.
Proof.
  apply (list_online_order_independent online_store_env sorted_store_env
           [mk_FluxTable [id_row "cellar"]; mk_FluxTable [id_row "attic"]]
           [mk_FluxTable [id_row "attic"]; mk_FluxTable [id_row "cellar"]]).
  - reflexivity.
  - reflexivity.
  - vm_compute. apply perm_swap.
Defined.

Lemma foldl_last {A B} (f : A → B) (l : list A) : ∀ init,
  foldl (fun _ x => f x) init l
  = match last l with Some x => f x | None => init end.
Proof.
  induction l as [|x l IH]; intros init; [reflexivity|].
  cbn [foldl]. rewrite IH. destruct l as [|a l]; [reflexivity|].
  change (last (x :: a :: l)) with (last (a :: l)).
  destruct (last (a :: l)) eqn:E; [reflexivity|by apply last_None in E].
Qed.

(** X11: when the store answers with several records, the last one decides:
    [online] tells whether the value of the last status record is exactly the
    string "online", [statustime] is the rendering of that record's time, and
    [lastdatatime] the rendering of the time of the last telemetry record;
    the records before them are ignored. *)
Theorem device_status_last_record (env : Env) (deviceid : string)
    (status_tables data_tables : list FluxTable) (r r' : FluxRecord)
    (st ld : option string) :
  q_query env (INFLUXORG env) (flux_status env deviceid) = Return status_tables →
  last (all_records status_tables) = Some r →
  q_query env (INFLUXORG env) (flux_last_data env deviceid) = Return data_tables →
  last (all_records data_tables) = Some r' →
  iso_seconds_moscow (rec_time r) = Return st →
  iso_seconds_moscow (rec_time r') = Return ld →
  device_status env deviceid
  = Return {| status_deviceid := deviceid;
              online := bool_decide (rec_value r = Some (VString "online"));
              statustime := st;
              lastdatatime := ld |}.
Proof.
  intros Hqs Hls Hqd Hld Hst Hldt. unfold device_status.
  rewrite Hqs. cbn [mbind result_bind].
  rewrite (foldl_last (fun r => (rec_value r, rec_time r))), Hls.
  rewrite Hqd. cbn [mbind result_bind].
  rewrite (foldl_last rec_time), Hld.
  rewrite Hst. cbn [mbind result_bind]. rewrite Hldt. reflexivity.
Qed.

Lemma device_status_last_record_witness :
  device_status two_status_env "sensor-7"
  = Return {| status_deviceid := "sensor-7";
              online := true;
              statustime := Some "2024-05-01T13:00:05";
              lastdatatime := Some "2024-05-01T13:00:00" |}.
Proof.
  apply (device_status_last_record two_status_env "sensor-7"
           [mk_FluxTable [status_row "offline" T1];
            mk_FluxTable [status_row "online" T1_plus_5s]]
           [mk_FluxTable [mk_FluxRecord (Some T1) None ∅ ∅]]
           (status_row "online" T1_plus_5s)
           (mk_FluxRecord (Some T1) None ∅ ∅)).
  - reflexivity.
  - reflexivity.
  - reflexivity.
  - reflexivity.
  - vm_compute. reflexivity.
  - vm_compute. reflexivity.
Defined.

(** The try block of [device_data] once both bounds are converted and the
    store has answered. *)
Lemma device_data_try_answered env deviceid start stop start_utc stop_utc tables :
  parse_moscow_time_to_utc start = Return start_utc →
  stop ≠ "" →
  parse_moscow_time_to_utc stop = Return stop_utc →
  q_query env (INFLUXORG env) (flux_device_data env deviceid start_utc stop_utc)
  = Return tables →
  device_data_try env deviceid start (Some stop)
  = (points ← build_points (all_records tables) [];
     Return {| error := None; data_deviceid := deviceid; data_start := start;
               data_stop := Some stop; points := points |}).
Proof.
  intros Hstart Hne Hstop Hq. apply truthy_Some in Hne.
  unfold device_data_try. rewrite Hstart, Hne. cbn [mbind result_bind].
  rewrite Hstop. cbn [mbind result_bind]. rewrite Hq. cbn [mbind result_bind].
  by destruct (build_points _ _).
Qed.

(** X12: when both bounds convert and every record of the store's answer has
    a time that can be rendered, the body carries no error and exactly one
    point per record, in the order of the answer; each point holds the
    rendered time and the three field values of its own record. The handler
    neither drops, merges nor reorders rows. *)
Theorem device_data_points_in_order (env : Env) (deviceid start stop : string)
    (start_utc stop_utc : string) (tables : list FluxTable) :
  parse_moscow_time_to_utc start = Return start_utc →
  stop ≠ "" →
  parse_moscow_time_to_utc stop = Return stop_utc →
  q_query env (INFLUXORG env) (flux_device_data env deviceid start_utc stop_utc)
  = Return tables →
  (∀ r, r ∈ all_records tables → ∃ s, iso_seconds_moscow (rec_time r) = Return s) →
  ∃ pts,
    device_data env deviceid start (Some stop)
    = Return {| error := None; data_deviceid := deviceid; data_start := start;
                data_stop := Some stop; points := pts |}
    ∧ length pts = length (all_records tables)
    ∧ ∀ i r, all_records tables !! i = Some r →
        ∃ p, pts !! i = Some p
          ∧ iso_seconds_moscow (rec_time r) = Return (time p)
          ∧ temperature p = rec_fields r !! "temperature"
          ∧ humidity p = rec_fields r !! "humidity"
          ∧ pressure p = rec_fields r !! "pressure".
Proof.
  intros Hstart Hne Hstop Hq Hrender.
  destruct (build_points_own_fields (all_records tables) [] Hrender)
    as (pts & Hpts & Hlen & Hown).
  exists pts. split; [|done].
  unfold device_data.
  rewrite (device_data_try_answered _ _ _ _ _ _ _ Hstart Hne Hstop Hq), Hpts.
  reflexivity.
Qed.

Lemma device_data_points_in_order_witness :
  ∃ pts,
    device_data scenario_env "sensor-7" "2024-05-01T13:00:00" (Some "2024-05-01T13:00:10")
    = Return {| error := None; data_deviceid := "sensor-7";
                data_start := "2024-05-01T13:00:00";
                data_stop := Some "2024-05-01T13:00:10"; points := pts |}
    ∧ length pts = length (all_records [mk_FluxTable (pivot scenario_samples)])
    ∧ ∀ i r, all_records [mk_FluxTable (pivot scenario_samples)] !! i = Some r →
        ∃ p, pts !! i = Some p
          ∧ iso_seconds_moscow (rec_time r) = Return (time p)
          ∧ temperature p = rec_fields r !! "temperature"
          ∧ humidity p = rec_fields r !! "humidity"
          ∧ pressure p = rec_fields r !! "pressure".
Proof.
  apply (device_data_points_in_order scenario_env "sensor-7"
           "2024-05-01T13:00:00" "2024-05-01T13:00:10"
           "2024-05-01T10:00:00+00:00" "2024-05-01T10:00:10+00:00").
  - vm_compute. reflexivity.
  - discriminate.
  - vm_compute. reflexivity.
  - reflexivity.
  - intros r Hr.
    change (all_records [mk_FluxTable (pivot scenario_samples)])
      with [mk_FluxRecord (Some T1) None {[ "deviceid" := "sensor-7" ]}
              {[ "temperature" := VNumber 43 2 ]};
            mk_FluxRecord (Some T1_plus_5s) None {[ "deviceid" := "sensor-7" ]}
              {[ "humidity" := VNumber 44 1 ]}] in Hr.
    apply elem_of_cons in Hr as [->|Hr]; [eexists; vm_compute; reflexivity|].
    apply elem_of_cons in Hr as [->|Hr]; [eexists; vm_compute; reflexivity|].
    by apply elem_of_nil in Hr.
Defined.

Lemma datetime_add_raises d other e :
  datetime_add d other = Raise e → e = OverflowError "date value out of range".
Proof.
  unfold datetime_add. destruct (_ && _).
  - by destruct (Calendar._ord2ymd _) as [[y m] dd].
  - by intros [= <-].
Qed.

(** The one exception of [iso_seconds_moscow]. *)
Lemma iso_seconds_moscow_raises ts e :
  iso_seconds_moscow ts = Raise e → e = OverflowError "date value out of range".
Proof.
  destruct ts as [ts|]; [|done]. unfold iso_seconds_moscow.
  set (ts' := match dt_tzinfo ts with
              | Some _ => ts
              | None => replace_tzinfo ts (Some timezone_utc)
              end).
  unfold astimezone, datetime_sub. destruct (tz_is _ _); [done|].
  destruct (datetime_add ts' _) as [u|e1] eqn:H1; cbn [mbind result_bind].
  - destruct (datetime_add (replace_tzinfo u _) _) as [m|e2] eqn:H2;
      cbn [mbind result_bind]; [done|].
    intros [= <-]. by apply datetime_add_raises in H2.
  - intros [= <-]. by apply datetime_add_raises in H1.
Qed.

Lemma build_points_raises rs r e : ∀ acc,
  r ∈ rs → iso_seconds_moscow (rec_time r) = Raise e →
  build_points rs acc = Raise (OverflowError "date value out of range").
Proof.
  induction rs as [|r0 rs IH]; intros acc Hin Hr; [by apply elem_of_nil in Hin|].
  cbn [build_points].
  destruct (iso_seconds_moscow (rec_time r0)) as [s|e0] eqn:H0; cbn [mbind result_bind].
  - apply elem_of_cons in Hin as [->|Hin]; [congruence|]. by apply IH.
  - by rewrite (iso_seconds_moscow_raises _ _ H0).
Qed.

(** X13: one record whose time cannot be rendered spoils the whole answer:
    the body then carries the error text of [OverflowError] and no point at
    all, not even for the records before it. *)
Theorem device_data_unrenderable_record (env : Env) (deviceid start stop : string)
    (start_utc stop_utc : string) (tables : list FluxTable) (r : FluxRecord)
    (e : Exception) :
  parse_moscow_time_to_utc start = Return start_utc →
  stop ≠ "" →
  parse_moscow_time_to_utc stop = Return stop_utc →
  q_query env (INFLUXORG env) (flux_device_data env deviceid start_utc stop_utc)
  = Return tables →
  r ∈ all_records tables →
  iso_seconds_moscow (rec_time r) = Raise e →
  device_data env deviceid start (Some stop)
  = Return {| error := Some "date value out of range";
              data_deviceid := deviceid; data_start := start;
              data_stop := Some stop; points := [] |}.
Proof.
  intros Hstart Hne Hstop Hq Hin Hr. unfold device_data.
  rewrite (device_data_try_answered _ _ _ _ _ _ _ Hstart Hne Hstop Hq).
  by rewrite (build_points_raises _ _ _ [] Hin Hr).
Qed.

Lemma device_data_unrenderable_record_witness :
  device_data late_record_env "sensor-7" "2024-05-01T10:00:00" (Some "2024-05-01T11:00:00")
  = Return {| error := Some "date value out of range";
              data_deviceid := "sensor-7"; data_start := "2024-05-01T10:00:00";
              data_stop := Some "2024-05-01T11:00:00"; points := [] |}.
Proof.
  apply (device_data_unrenderable_record late_record_env "sensor-7"
           "2024-05-01T10:00:00" "2024-05-01T11:00:00"
           "2024-05-01T07:00:00+00:00" "2024-05-01T08:00:00+00:00"
           [mk_FluxTable
              [mk_FluxRecord (Some (mk_datetime 9999 12 31 22 0 0 0 (Some timezone_utc)))
                 None {[ "deviceid" := "sensor-7" ]} {[ "temperature" := VNumber 43 2 ]}]]
           (mk_FluxRecord (Some (mk_datetime 9999 12 31 22 0 0 0 (Some timezone_utc)))
              None {[ "deviceid" := "sensor-7" ]} {[ "temperature" := VNumber 43 2 ]})
           (OverflowError "date value out of range")).
  - vm_compute. reflexivity.
  - discriminate.
  - vm_compute. reflexivity.
  - reflexivity.
  - apply list_elem_of_here.
  - vm_compute. reflexivity.
Defined.

(** ** Telemetry Reader: the failure policy *)

(** The [try] block of [device_data], step by step. *)
Lemma device_data_try_steps env deviceid start stop :
  device_data_try env deviceid start stop
  = (start_utc ← parse_moscow_time_to_utc start;
     stop_utc ← stop_bound env stop;
     tables ← q_query env (INFLUXORG env)
                (flux_device_data env deviceid start_utc stop_utc);
     points ← build_points (all_records tables) [];
     stop_shown ← (if truthy stop then Return stop
                   else iso_seconds_moscow (Some (datetime_now_utc env)));
     Return {| error := None; data_deviceid := deviceid; data_start := start;
               data_stop := stop_shown; points := points |}).
Proof. reflexivity. Qed.

(** C3 (as amended): [device_data] returns a body in every case, with the
    device id and [start] as given. A failure of the window resolution (the
    conversion of [start], then of [stop]), of the store query, or of the
    reshaping (a record whose time cannot be rendered) ends in the error
    body: the text of the exception, the device id, [start] and [stop] as
    given, and no points. A malformed [start] is no failure of its own: a
    text that does not begin with a year is the lower bound of the query as
    it is, so what follows depends on the store. *)
Theorem device_data_failure_policy env deviceid start stop :
  (∃ body, device_data env deviceid start stop = Return body
     ∧ data_deviceid body = deviceid
     ∧ data_start body = start
     ∧ (error body = None ∨ ∃ e, body = error_body deviceid start stop e))
  ∧ (∀ e, parse_moscow_time_to_utc start = Raise e →
       device_data env deviceid start stop = Return (error_body deviceid start stop e))
  ∧ (∀ start_utc e,
       parse_moscow_time_to_utc start = Return start_utc →
       stop_bound env stop = Raise e →
       device_data env deviceid start stop = Return (error_body deviceid start stop e))
  ∧ (∀ start_utc stop_utc e,
       parse_moscow_time_to_utc start = Return start_utc →
       stop_bound env stop = Return stop_utc →
       q_query env (INFLUXORG env) (flux_device_data env deviceid start_utc stop_utc)
       = Raise e →
       device_data env deviceid start stop = Return (error_body deviceid start stop e))
  ∧ (∀ start_utc stop_utc tables r e,
       parse_moscow_time_to_utc start = Return start_utc →
       stop_bound env stop = Return stop_utc →
       q_query env (INFLUXORG env) (flux_device_data env deviceid start_utc stop_utc)
       = Return tables →
       r ∈ all_records tables →
       iso_seconds_moscow (rec_time r) = Raise e →
       device_data env deviceid start stop
       = Return (error_body deviceid start stop
                   (OverflowError "date value out of range")))
  ∧ (starts_with_year start = false →
     parse_moscow_time_to_utc start = Return start).
Proof.
  split_and!.
  - unfold device_data.
    destruct (device_data_try env deviceid start stop) as [body|e] eqn:Htry;
      cbn [try_except_Exception].
    + exists body. split; [done|]. rewrite device_data_try_steps in Htry.
      destruct (parse_moscow_time_to_utc start) as [start_utc|]; [|done].
      cbn [mbind result_bind] in Htry.
      destruct (stop_bound env stop) as [stop_utc|]; [|done].
      cbn [mbind result_bind] in Htry.
      destruct (q_query env _ _) as [tables|]; [|done].
      cbn [mbind result_bind] in Htry.
      destruct (build_points _ _) as [pts|]; [|done].
      cbn [mbind result_bind] in Htry.
      destruct (if truthy stop then _ else _) as [shown|]; [|done].
      cbn [mbind result_bind] in Htry. injection Htry as <-.
      split_and!; [done|done|by left].
    + exists (error_body deviceid start stop e).
      split_and!; [done|done|done|]. right. by exists e.
  - intros e Hstart. unfold device_data. rewrite device_data_try_steps, Hstart.
    reflexivity.
  - intros start_utc e Hstart Hstop. unfold device_data.
    rewrite device_data_try_steps, Hstart. cbn [mbind result_bind]. rewrite Hstop.
    reflexivity.
  - intros start_utc stop_utc e Hstart Hstop Hq. unfold device_data.
    rewrite device_data_try_steps, Hstart. cbn [mbind result_bind]. rewrite Hstop.
    cbn [mbind result_bind]. rewrite Hq. reflexivity.
  - intros start_utc stop_utc tables r e Hstart Hstop Hq Hin Hr. unfold device_data.
    rewrite device_data_try_steps, Hstart. cbn [mbind result_bind]. rewrite Hstop.
    cbn [mbind result_bind]. rewrite Hq. cbn [mbind result_bind].
    rewrite (build_points_raises _ _ _ [] Hin Hr). reflexivity.
  - intros Hy. destruct (fromisoformat_no_year _ Hy) as [msg Hp].
    by apply (parse_moscow_time_to_utc_passthrough _ msg).
Qed.

(** The malformed [start] of the specification, with a store that rejects
    the query: the store's failure is reported in the body. *)
Lemma device_data_failure_policy_witness :
  device_data down_env "sensor-7" "yesterday" None
  = Return (error_body "sensor-7" "yesterday" None (ApiException "connection refused")).
Proof.
  apply (proj1 (proj2 (proj2 (proj2
           (device_data_failure_policy down_env "sensor-7" "yesterday" None))))
           "yesterday" (isoformat (datetime_now_utc down_env) timespec_auto)
           (ApiException "connection refused")).
  - reflexivity.
  - reflexivity.
  - reflexivity.
Defined.

(** C3 (as stated) fails: a [start] that is not a time at all, here the
    relative Flux bound [-7d], is no failure. The text is handed to the store
    as the lower bound of the query; the store answers, and the body carries
    the points and no error. *)
Lemma device_data_relative_start_accepted :
  starts_with_year "-7d" = false
  ∧ parse_moscow_time_to_utc "-7d" = Return "-7d"
  ∧ device_data scenario_env "sensor-7" "-7d" (Some "2024-05-01T13:00:10")
    = Return {| error := None;
                data_deviceid := "sensor-7";
                data_start := "-7d";
                data_stop := Some "2024-05-01T13:00:10";
                points :=
                  [ {| time := Some "2024-05-01T13:00:00";
                       temperature := Some (VNumber 43 2);
                       humidity := None; pressure := None |};
                    {| time := Some "2024-05-01T13:00:05";
                       temperature := None;
                       humidity := Some (VNumber 44 1); pressure := None |} ] |}.
Proof. vm_compute. repeat split. Qed.

(** ** Device Eraser: further properties *)

Lemma calls_until_failure_prefix env calls : ∀ trace,
  (calls_until_failure env trace calls).2 `prefix_of` calls
  ∧ ((calls_until_failure env trace calls).1 = true →
     (calls_until_failure env trace calls).2 = calls).
Proof.
  induction calls as [|c calls IH]; intros trace; cbn [calls_until_failure].
  - done.
  - destruct (succeeded _).
    + destruct (IH (trace ++ [c])) as [Hp Hall].
      destruct (calls_until_failure env (trace ++ [c]) calls) as [ok made].
      cbn [fst snd] in *. split.
      * by apply prefix_cons.
      * intros Hok. by rewrite (Hall Hok).
    + cbn [fst snd]. split; [|done]. by apply prefix_cons, prefix_nil.
Qed.

(** The MQTT block, call by call. *)
Lemma mqtt_clear_until_failure env device_id trace :
  io_try_except (mqtt_clear env device_id) (mret false) trace
  = (Return (calls_until_failure env trace (mqtt_calls env device_id)).1,
     trace ++ (calls_until_failure env trace (mqtt_calls env device_id)).2).
Proof.
  unfold mqtt_clear, mqtt_calls, io_try_except, call, mbind, io_bind, mret, io_ret.
  destruct (MQTTUSER env) as [u|], (MQTTPASS env) as [p|];
    try destruct (truthy (Some u) && truthy (Some p));
    cbn [app calls_until_failure];
    repeat match goal with
    | |- context [call_outcome env ?t ?c] =>
      destruct (call_outcome env t c) as [[]|?]; cbn [succeeded fst snd]
    end;
    rewrite <- ?app_assoc; reflexivity.
Qed.

(** X14: the MQTT block of [delete_device] stops at the first call that
    fails and never makes the function fail: after the four delete calls, the
    calls made are the MQTT calls in program order (credentials when both are
    configured, connect, publish of the empty retained message, loop,
    disconnect) up to and including the first one that raises, and
    [mqtt_cleared] tells whether all of them returned. *)
Theorem delete_device_mqtt_until_failure (env : Env) (id : string) (trace : list Call) :
  ∃ res ok made,
    calls_until_failure env (trace ++ delete_calls env id) (mqtt_calls env id) = (ok, made)
    ∧ delete_device env id trace = (Return res, trace ++ delete_calls env id ++ made)
    ∧ mqtt_cleared res = ok
    ∧ made `prefix_of` mqtt_calls env id
    ∧ (ok = true → made = mqtt_calls env id).
Proof.
  destruct (delete_loop_spec env (predicates id) ∅ trace) as (deleted & Hloop & _).
  destruct (calls_until_failure_prefix env (mqtt_calls env id)
              (trace ++ delete_calls env id)) as [Hp Hall].
  destruct (calls_until_failure env (trace ++ delete_calls env id) (mqtt_calls env id))
    as [ok made] eqn:Hrun.
  exists {| device_id := id; influx_deleted := deleted; mqtt_cleared := ok |}, ok, made.
  split_and!; [done| |done|done|done].
  unfold delete_device. unfold mbind at 1, io_bind. rewrite Hloop.
  fold (delete_calls env id).
  unfold mbind, io_bind. rewrite mqtt_clear_until_failure, Hrun.
  cbn [fst snd]. unfold mret, io_ret. by rewrite <- app_assoc.
Qed.

(** ** File collector: [guess_lang] and [choose_fence] *)

Lemma rfind_range c s : -1 ≤ rfind c s < Z.of_nat (String.length s).
Proof.
  induction s as [|c' s IH]; cbn [rfind String.length]; [lia|].
  destruct (Z.leb_spec 0 (rfind c s)); [lia|]. destruct (Ascii.eqb c' c); lia.
Qed.

Lemma append_nil_l s : "" +:+ s = s.
Proof. reflexivity. Qed.

Lemma append_cons c s1 s2 : String c s1 +:+ s2 = String c (s1 +:+ s2).
Proof. reflexivity. Qed.

Lemma length_append s1 s2 :
  String.length (s1 +:+ s2) = (String.length s1 + String.length s2)%nat.
Proof.
  induction s1 as [|c s1 IH]; rewrite ?append_nil_l, ?append_cons; cbn [String.length];
    [done|by rewrite IH].
Qed.

Lemma rfind_app c s1 s2 :
  rfind c (s1 +:+ s2)
  = if 0 <=? rfind c s2 then Z.of_nat (String.length s1) + rfind c s2 else rfind c s1.
Proof.
  induction s1 as [|c' s1 IH];
    rewrite ?append_nil_l, ?append_cons; cbn [rfind String.length].
  - pose proof (rfind_range c s2). destruct (Z.leb_spec 0 (rfind c s2)); lia.
  - rewrite IH.
    pose proof (rfind_range c s1).
    destruct (Z.leb_spec 0 (rfind c s2)).
    + destruct (Z.leb_spec 0 (Z.of_nat (String.length s1) + rfind c s2)); lia.
    + reflexivity.
Qed.

Lemma drop_prefix_app s1 s2 : drop_prefix (String.length s1) (s1 +:+ s2) = s2.
Proof.
  induction s1 as [|c s1 IH]; rewrite ?append_nil_l, ?append_cons; [by destruct s2|exact IH].
Qed.

Lemma substring_0_app s1 s2 : substring 0 (String.length s1) (s1 +:+ s2) = s1.
Proof.
  induction s1 as [|c s1 IH];
    rewrite ?append_nil_l, ?append_cons; cbn [String.length substring].
  - by destruct s2.
  - by rewrite IH.
Qed.

Lemma get_app_l n s1 s2 c : String.get n s1 = Some c → String.get n (s1 +:+ s2) = Some c.
Proof.
  revert n. induction s1 as [|c' s1 IH]; intros n; [done|].
  destruct n as [|n]; [done|]. rewrite append_cons. cbn [String.get]. apply IH.
Qed.

(** The base name of a path whose last component holds no separator. *)
Lemma basename_app dir base :
  dir = "" ∨ (∃ dir', dir = dir' +:+ "/") →
  rfind "/" base = -1 →
  os_path.basename (dir +:+ base) = base.
Proof.
  intros Hdir Hbase. unfold os_path.basename, os_path.sep.
  destruct Hdir as [->|[dir' ->]].
  - rewrite append_nil_l, Hbase. reflexivity.
  - rewrite rfind_app, Hbase. cbn [Z.leb Z.compare].
    rewrite rfind_app. change (rfind "/" "/") with 0. cbn [Z.leb Z.compare].
    replace (Z.to_nat (Z.of_nat (String.length dir') + 0 + 1))
      with (String.length (dir' +:+ "/")).
    + apply drop_prefix_app.
    + rewrite length_append. cbn [String.length]. lia.
Qed.

Lemma splitext_loop_found p j c : ∀ n start,
  String.get j p = Some c → c ≠ os_path.extsep →
  (start ≤ j < start + n)%nat →
  os_path._splitext_loop p n start = true.
Proof.
  induction n as [|n IH]; intros start Hj Hc Hr; [lia|].
  cbn [os_path._splitext_loop].
  destruct (String.get start p) as [c'|] eqn:Hget; [|reflexivity].
  destruct (Ascii.eqb_spec c' os_path.extsep) as [->|Hne]; [|reflexivity].
  cbn [negb]. apply IH; [done..|].
  destruct (decide (j = start)) as [->|]; [congruence|lia].
Qed.

(** The extension of a file name: what follows its last dot, when a
    character other than a dot stands before it. *)
Lemma splitext_extension stem e j c :
  rfind "/" stem = -1 → rfind "/" e = -1 → rfind "." e = -1 →
  String.get j stem = Some c → c ≠ "."%char →
  os_path.splitext (stem +:+ "." +:+ e) = (stem, "." +:+ e).
Proof.
  intros Hs1 Hs2 He Hj Hc. unfold os_path.splitext, os_path._splitext.
  unfold os_path.sep, os_path.extsep.
  assert (rfind "/" (stem +:+ "." +:+ e) = -1) as ->.
  { rewrite !rfind_app, Hs2, Hs1. reflexivity. }
  assert (rfind "." (stem +:+ "." +:+ e) = Z.of_nat (String.length stem)) as ->.
  { rewrite (rfind_app _ stem). rewrite (rfind_app _ "."), He. cbn. lia. }
  pose proof (Nat2Z.is_nonneg (String.length stem)).
  destruct (Z.ltb_spec (-1) (Z.of_nat (String.length stem))); [|lia].
  assert (j < String.length stem)%nat as Hlt.
  { clear -Hj. revert j Hj. induction stem as [|c' stem IH]; intros [|j] Hj;
      cbn in *; try done; try lia. apply IH in Hj. lia. }
  rewrite (splitext_loop_found _ j c);
    [|by apply get_app_l|done|lia].
  replace (Z.to_nat (Z.of_nat (String.length stem))) with (String.length stem) by lia.
  by rewrite substring_0_app, drop_prefix_app.
Qed.

(** A name without a dot, or whose only dot is the first character, has no
    extension. *)
Lemma splitext_no_extension name :
  rfind "/" name = -1 → rfind "." name = -1 →
  os_path.splitext name = (name, "")
  ∧ os_path.splitext ("." +:+ name) = ("." +:+ name, "").
Proof.
  intros Hs Hd. unfold os_path.splitext, os_path._splitext, os_path.sep, os_path.extsep.
  rewrite (rfind_app _ "."), Hs, Hd. rewrite (rfind_app _ "."), Hd. split; reflexivity.
Qed.

Lemma first_hint_no_Dockerfile base :
  str_in "Dockerfile" base = false → first_hint NAME_LANG_HINTS base = None.
Proof. intros H. unfold NAME_LANG_HINTS. cbn [first_hint]. by rewrite H. Qed.

(** X15: a file whose name has no dot, or only a leading one, is labelled
    [plaintext] (unless its name contains "Dockerfile"): the leading dot of a
    hidden file is not an extension. In particular the entry [".env"] of
    [LANG_MAP] does not apply to a file named [.env]. *)
Theorem guess_lang_no_extension (dir name : string) :
  dir = "" ∨ (∃ dir', dir = dir' +:+ "/") →
  rfind "/" name = -1 → rfind "." name = -1 →
  str_in "Dockerfile" name = false →
  guess_lang (dir +:+ name) = "plaintext"
  ∧ guess_lang (dir +:+ "." +:+ name) = "plaintext".
Proof.
  intros Hdir Hs Hd Hh. unfold guess_lang.
  destruct (splitext_no_extension name Hs Hd) as [E1 E2].
  rewrite !basename_app; [|done|by rewrite (rfind_app _ "."), Hs|done|done].
  rewrite (first_hint_no_Dockerfile name Hh), E1.
  rewrite first_hint_no_Dockerfile, E2; [done|].
  rewrite append_cons, append_nil_l. cbn [str_in]. by rewrite Hh.
Qed.

Lemma guess_lang_no_extension_witness :
  guess_lang "env" = "plaintext" ∧ guess_lang ".env" = "plaintext".
Proof.
  apply (guess_lang_no_extension "" "env").
  - by left.
  - reflexivity.
  - reflexivity.
  - reflexivity.
Defined.

(** X16: the language of a file is decided by what follows the last dot of
    its base name, compared without regard to the case of ASCII letters; the
    directories of the path play no part. This holds when a character other
    than a dot stands before that dot and the base name does not contain
    "Dockerfile". *)
Theorem guess_lang_extension (dir stem e : string) (j : nat) (c : ascii) :
  dir = "" ∨ (∃ dir', dir = dir' +:+ "/") →
  rfind "/" stem = -1 → rfind "/" e = -1 → rfind "." e = -1 →
  String.get j stem = Some c → c ≠ "."%char →
  str_in "Dockerfile" (stem +:+ "." +:+ e) = false →
  guess_lang (dir +:+ stem +:+ "." +:+ e)
  = default "plaintext" (LANG_MAP !! ("." +:+ lower e)).
Proof.
  intros Hdir Hs1 Hs2 He Hj Hc Hh. unfold guess_lang.
  rewrite basename_app; [|done|].
  - rewrite (first_hint_no_Dockerfile _ Hh).
    by rewrite (splitext_extension stem e j c).
  - rewrite !rfind_app, Hs2, Hs1. reflexivity.
Qed.

Lemma guess_lang_extension_witness :
  guess_lang "Dockerfile/report.final.YML" = "yaml".
Proof.
  apply (guess_lang_extension "Dockerfile/" "report.final" "YML" 0 "r").
  - right. by exists "Dockerfile".
  - reflexivity.
  - reflexivity.
  - reflexivity.
  - reflexivity.
  - discriminate.
  - reflexivity.
Defined.

(** The targets of the script: the hidden file [.env] and the password file
    get no language. *)
Example guess_lang_targets :
  guess_lang <$> TARGETS
  = [ "plaintext"; "yaml"; "ini"; "python"; "dockerfile"; "ini"; "plaintext"; "plaintext" ].
Proof. vm_compute. reflexivity. Qed.

Lemma prefix_app_l a b s : String.prefix (a +:+ b) s = true → String.prefix a s = true.
Proof.
  revert s. induction a as [|c a IH]; intros s; [by destruct s|].
  rewrite append_cons. destruct s as [|c' s]; [done|]. cbn [String.prefix].
  destruct (ascii_dec c c'); [apply IH|done].
Qed.

Lemma str_in_app_l a b s : str_in (a +:+ b) s = true → str_in a s = true.
Proof.
  induction s as [|c s IH]; cbn [str_in]; rewrite !orb_true_iff.
  - intros [H|H]; [left; by apply prefix_app_l in H|done].
  - intros [H|H]; [left; by apply prefix_app_l in H|right; by apply IH].
Qed.

(** X17: the fence [choose_fence] picks occurs in the content exactly when
    the content holds four backquotes in a row; for every other content the
    fenced block cannot be closed by the content itself. *)
Theorem choose_fence_collision (content : string) :
  str_in (choose_fence content) content = str_in "````" content.
Proof.
  unfold choose_fence. destruct (str_in "```" content) eqn:H3; [reflexivity|].
  rewrite H3. destruct (str_in "````" content) eqn:H4; [|reflexivity].
  apply (str_in_app_l "```" "`") in H4. congruence.
Qed.

(** ** File collector: [iter_targets] *)

(** Induction over a directory tree. *)
Lemma Node_tree_ind (P : Node → Prop) :
  P File →
  (∀ entries, Forall (fun e => P e.2) entries → P (Dir entries)) →
  ∀ node, P node.
Proof.
  intros HF HD. fix IH 1. intros [|entries]; [exact HF|].
  apply HD. induction entries as [|e entries IHes]; constructor; [apply IH|exact IHes].
Qed.

Lemma walk_Dir top entries p :
  p ∈ walk top (Dir entries)
  ↔ (∃ fn, (fn, File) ∈ entries ∧ p = os_path.join top fn)
    ∨ (∃ d sub, (d, Dir sub) ∈ entries ∧ (d ∉ SKIP_DIRS)
         ∧ p ∈ walk (os_path.join top d) (Dir sub)).
Proof.
  cbn [walk]. rewrite elem_of_app, !list_elem_of_bind. split.
  - intros [([fn child] & Hp & He)|([d child] & Hp & He)].
    + destruct child; [|by apply elem_of_nil in Hp].
      apply list_elem_of_singleton in Hp. left. by exists fn.
    + destruct child as [|sub]; [by apply elem_of_nil in Hp|].
      destruct (bool_decide_reflect (d ∉ SKIP_DIRS)); [|by apply elem_of_nil in Hp].
      right. by exists d, sub.
  - intros [(fn & He & ->)|(d & sub & He & Hd & Hp)].
    + left. exists (fn, File). split; [apply list_elem_of_singleton; reflexivity|done].
    + right. exists (d, Dir sub). split; [|done]. by rewrite bool_decide_true.
Qed.

(** The walk lists exactly the files of the tree that no directory named in
    [SKIP_DIRS] leads to, each under the path joined from the names on the
    way. *)
Lemma walk_spec node : ∀ top p,
  p ∈ walk top node
  ↔ ∃ dirs name, tree_file node dirs name
      ∧ Forall (fun d => d ∉ SKIP_DIRS) dirs
      ∧ p = foldl os_path.join top (dirs ++ [name]).
Proof.
  induction node as [|entries IH] using Node_tree_ind; intros top p.
  - split; [by intros ?%elem_of_nil|].
    intros (dirs & name & Ht & _). destruct dirs; cbn in Ht.
    + by destruct Ht as (? & ? & _).
    + by destruct Ht as (? & ? & ? & _).
  - rewrite walk_Dir. rewrite Forall_forall in IH. split.
    + intros [(fn & He & ->)|(d & sub & He & Hd & Hp)].
      * exists [], fn. split_and!; [by exists entries|constructor|reflexivity].
      * apply (IH _ He) in Hp as (dirs & name & Ht & Hok & ->).
        exists (d :: dirs), name. split_and!; [|by constructor|reflexivity].
        cbn [tree_file]. by exists entries, sub.
    + intros (dirs & name & Ht & Hok & ->). destruct dirs as [|d dirs]; cbn in Ht.
      * destruct Ht as (es & [= <-] & He). left. by exists name.
      * destruct Ht as (es & sub & [= <-] & He & Ht).
        apply Forall_cons in Hok as [Hd Hok]. right. exists d, sub.
        split_and!; [done..|]. apply (IH _ He). by exists dirs, name.
Qed.

Lemma dict_fromkeys_spec paths :
  NoDup (dict_fromkeys paths) ∧ ∀ p, p ∈ dict_fromkeys paths ↔ p ∈ paths.
Proof.
  unfold dict_fromkeys.
  assert (∀ keys, NoDup keys →
            NoDup (foldl (fun keys k => if bool_decide (k ∈ keys) then keys
                                        else keys ++ [k]) keys paths)
            ∧ ∀ p, p ∈ foldl (fun keys k => if bool_decide (k ∈ keys) then keys
                                            else keys ++ [k]) keys paths
                   ↔ p ∈ keys ∨ p ∈ paths) as Hgen.
  { induction paths as [|k paths IH]; intros keys Hnd; cbn [foldl].
    - split; [done|]. intros p. rewrite elem_of_nil. tauto.
    - destruct (bool_decide_reflect (k ∈ keys)) as [Hin|Hnin].
      + destruct (IH keys Hnd) as [Hnd' Hel]. split; [done|].
        intros p. rewrite Hel, elem_of_cons. split; [tauto|].
        intros [?|[->|?]]; tauto.
      + destruct (IH (keys ++ [k])) as [Hnd' Hel].
        { apply NoDup_app. split_and!; [done| |apply NoDup_singleton].
          intros x Hx ->%list_elem_of_singleton. done. }
        split; [done|]. intros p.
        rewrite Hel, elem_of_app, list_elem_of_singleton, elem_of_cons. tauto. }
  destruct (Hgen [] (NoDup_nil_2)) as [Hnd Hel]. split; [done|].
  intros p. rewrite Hel, elem_of_nil. tauto.
Qed.

(** X18: the list [iter_targets] returns is in strictly ascending order of
    code points and names no path twice, whatever the directory holds. *)
Theorem iter_targets_strictly_sorted (cwd : Node) :
  StronglySorted str_lt (iter_targets cwd) ∧ NoDup (iter_targets cwd).
Proof.
  unfold iter_targets.
  set (paths := TARGETS ≫= _).
  assert (NoDup (sorted (dict_fromkeys paths))) as Hnd.
  { rewrite sorted_Permutation. apply dict_fromkeys_spec. }
  split; [|done]. apply StronglySorted_le_NoDup; [apply sorted_StronglySorted|done].
Qed.

(** X19: what [iter_targets] lists. A path is listed exactly when it is a
    target that is not a directory, whether such a file exists or not, or
    when it names a file below a target that is a directory and no directory
    on the way from the target to the file is called [.git] or
    [__pycache__]; the path of such a file is joined from the target and the
    names on the way. *)
Theorem iter_targets_spec (cwd : Node) (p : string) :
  p ∈ iter_targets cwd
  ↔ ∃ t, t ∈ TARGETS
      ∧ if isdir cwd t then
          ∃ node dirs name,
            resolve cwd (components t) = Some node
            ∧ tree_file node dirs name
            ∧ Forall (fun d => d ∉ SKIP_DIRS) dirs
            ∧ p = foldl os_path.join t (dirs ++ [name])
        else p = t.
Proof.
  assert (∀ t, p ∈ (if isdir cwd t then os_walk cwd t else [t])
               ↔ if isdir cwd t then
                   ∃ node dirs name,
                     resolve cwd (components t) = Some node
                     ∧ tree_file node dirs name
                     ∧ Forall (fun d => d ∉ SKIP_DIRS) dirs
                     ∧ p = foldl os_path.join t (dirs ++ [name])
                 else p = t) as Hone.
  { intros t. destruct (isdir cwd t) eqn:Hdir.
    - unfold os_walk. destruct (resolve cwd (components t)) as [node|] eqn:Hres.
      + rewrite walk_spec. split.
        * intros (dirs & name & H). by exists node, dirs, name.
        * intros (node' & dirs & name & [= <-] & H). by exists dirs, name.
      + unfold isdir in Hdir. by rewrite Hres in Hdir.
    - apply list_elem_of_singleton. }
  unfold iter_targets. rewrite sorted_Permutation.
  rewrite (proj2 (dict_fromkeys_spec _)), list_elem_of_bind. split.
  - intros (t & Hp & Ht). exists t. split; [done|]. by apply Hone.
  - intros (t & Ht & Hp). exists t. split; [|done]. by apply Hone.
Qed.

(** X20: when none of the targets is a directory, the list is the eight
    targets themselves in code-point order, the hidden files first; a target
    that does not exist is listed all the same. *)
Theorem iter_targets_plain_files (cwd : Node) :
  (∀ t, t ∈ TARGETS → isdir cwd t = false) →
  iter_targets cwd
  = [ ".env";
      ".influxdb-config/influx-configs";
      ".mosquitto/config/mosquitto.conf";
      ".mosquitto/config/passwd";
      "api/Dockerfile";
      "api/main.py";
      "docker-compose.yml";
      "telegraf/telegraf.conf" ].
Proof.
  intros Hfiles. unfold iter_targets.
  assert (∀ ts, (∀ t, t ∈ ts → isdir cwd t = false) →
            (t ← ts; if isdir cwd t then os_walk cwd t else [t]) = ts) as Hplain.
  { induction ts as [|t ts IH]; intros Hts; [reflexivity|].
    cbn [mbind list_bind]. rewrite (Hts t) by apply list_elem_of_here.
    cbn [app]. f_equal. apply IH. intros t' Ht'. by apply Hts, list_elem_of_further. }
  rewrite (Hplain TARGETS Hfiles). vm_compute. reflexivity.
Qed.

Lemma iter_targets_plain_files_witness :
  iter_targets (Dir [("api", Dir [("main.py", File)]); (".env", File)])
  = [ ".env";
      ".influxdb-config/influx-configs";
      ".mosquitto/config/mosquitto.conf";
      ".mosquitto/config/passwd";
      "api/Dockerfile";
      "api/main.py";
      "docker-compose.yml";
      "telegraf/telegraf.conf" ].
Proof.
  apply (iter_targets_plain_files (Dir [("api", Dir [("main.py", File)]); (".env", File)])).
  intros t Ht. unfold TARGETS in Ht.
  repeat (apply elem_of_cons in Ht as [->|Ht]; [vm_compute; reflexivity|]).
  by apply elem_of_nil in Ht.
Defined.

(** The example tree: the one target that is a directory is replaced by the
    files below it, less those under [.git]; the cache directory next to
    [api/main.py] is not under any target and plays no part. *)
Example iter_targets_example :
  iter_targets example_tree
  = [ ".env";
      ".influxdb-config/influx-configs/backup/old";
      ".influxdb-config/influx-configs/default";
      ".mosquitto/config/mosquitto.conf";
      ".mosquitto/config/passwd";
      "api/Dockerfile";
      "api/main.py";
      "docker-compose.yml";
      "telegraf/telegraf.conf" ].
Proof. vm_compute. reflexivity. Qed.
